(** * Access control and sharing of the file-storage server

    A shallow embedding of the Express routes of the server
    ([apps/server/src/routes/files.ts] and the share router mounted at
    [/api/share]) over the Drizzle schema ([file], [share],
    [activity_log], [user]), followed by the properties of the
    access-control specification.

    Tables are lists of rows in storage order; a [findFirst] returns the
    first row that satisfies the [where] clause and an [insert] checks the
    primary-key, unique and foreign-key constraints of the schema.  A
    route handler is a computation over a [World]: the database, the blob
    store, the upload directory, the server console and the
    nondeterminism a request consumes (clock, [nanoid] output, Cloudinary
    answers, storage faults).  Requests are served one after the other.

    The routes that only read ([GET /api/files] and the activity router)
    change nothing in the store; they are handlers of their own and are
    not part of [Request]. *)

From Stdlib Require Import String List ZArith Bool Lia Sorted.
Import ListNotations.
Local Open Scope list_scope.
Local Open Scope string_scope.

(** ** Schema (packages/db schema) *)

Inductive shareTypeEnum := ST_user | ST_link.
Inductive roleEnum := R_owner | R_viewer | R_editor.
Inductive activityTypeEnum :=
  A_upload | A_download | A_share | A_unshare | A_delete.

Definition shareType_eqb (a b : shareTypeEnum) : bool :=
  match a, b with
  | ST_user, ST_user | ST_link, ST_link => true
  | _, _ => false
  end.

Module user.
Record row := mk { id : string; name : string; email : string }.
End user.

Module file.
Record row := mk {
    id : string;
    filename : string;
    cloudinaryId : string;
    fileUrl : string;
    size : Z;
    type : string;
    resourceType : option string;
    ownerId : string;
    createdAt : Z;
    updatedAt : Z }.
End file.

Module share.
Record row := mk {
    id : string;
    fileId : string;
    shareType : shareTypeEnum;
    sharedWithUserId : option string;
    token : option string;
    role : roleEnum;
    expiresAt : option Z;
    createdAt : Z;
    createdBy : string }.
End share.

Module activityLog.
Record row := mk {
    id : string;
    fileId : string;
    userId : string;
    activityType : activityTypeEnum;
    metadata : option string;
    createdAt : Z }.
End activityLog.

Record DB := mkDB {
  users : list user.row;
  files : list file.row;
  shares : list share.row;
  activityLogs : list activityLog.row }.

Definition empty_db : DB := mkDB [] [] [] [].

(** SQL [col = v] on a nullable text column: NULL never equals a value. *)
Definition eq_nullable (col : option string) (v : string) : bool :=
  match col with
  | Some x => x =? v
  | None => false
  end.

(** [or(isNull(share.expiresAt), sql`${share.expiresAt} > NOW()`)] *)
Definition notExpired (NOW : Z) (s : share.row) : bool :=
  match share.expiresAt s with
  | None => true
  | Some e => (NOW <? e)%Z
  end.

(** ** HTTP responses *)

Inductive Body :=
  | Error (error : string)
  | Message (message : string)
  | Uploaded (id : string) (filename : string)
  | BulkUploaded (files : list (string * string))
      (errors : list (string * string))
  | FileInfo (id : string) (isOwner : bool) (role : option roleEnum)
  | Download (downloadUrl filename : string)
  | ShareCreated (id sharedWith : string) (role : roleEnum)
      (expiresAt : option Z)
  | LinkCreated (id : string) (token : option string) (expiresAt : option Z)
  | SharedFile (id downloadUrl : string) (role : roleEnum)
  | ShareList (shares : list share.row).

Record Response := res { status : nat; body : Body }.

(** ** Errors thrown by the collaborators *)

Inductive Err :=
  | UniqueViolation (constraint : string)
  | ForeignKeyViolation (constraint : string)
  | InvalidEnumValue (v : string)
  | StorageFailure
  | CloudinaryNotFound (public_id : string)
  | ENOENT (path : string)
  | TypeError (what : string)
  | MulterError (code : string)
  | PlainError (message : string).

Definition message (e : Err) : string :=
  match e with
  | UniqueViolation c =>
      "duplicate key value violates unique constraint " ++ c
  | ForeignKeyViolation c => "violates foreign key constraint " ++ c
  | InvalidEnumValue v => "invalid input value for enum role: " ++ v
  | StorageFailure => "storage failure"
  | CloudinaryNotFound p => "Resource not found - " ++ p
  | ENOENT p => "ENOENT: no such file or directory, unlink " ++ p
  | TypeError what => "Cannot read properties of null, reading " ++ what
  | MulterError code =>
      if code =? "LIMIT_FILE_SIZE" then "File too large"
      else if code =? "LIMIT_FILE_COUNT" then "Too many files"
      else "Unexpected field"
  | PlainError m => m
  end.

(** ** The world a request runs in *)

Record UploadApiResponse := mkCloud {
  public_id : string;
  secure_url : string;
  resource_type : string }.

Record World := mkWorld {
  db : DB;
  blobs : list (string * string); (* Cloudinary: public id, resource type *)
  tmpFiles : list string;     (* multer's upload directory *)
  console : list string;      (* console.error labels, oldest first *)
  now : Z;                    (* new Date() and SQL NOW() of this request *)
  entropy : list string;      (* what the next nanoid() calls return *)
  faults : list bool;         (* true: the next storage call fails *)
  cloudinaryReplies : list UploadApiResponse
                              (* what the next uploads are answered *) }.

Definition set_db (w : World) (d : DB) : World :=
  mkWorld d (blobs w) (tmpFiles w) (console w) (now w) (entropy w)
    (faults w) (cloudinaryReplies w).
Definition set_blobs (w : World) (b : list (string * string)) : World :=
  mkWorld (db w) b (tmpFiles w) (console w) (now w) (entropy w)
    (faults w) (cloudinaryReplies w).
Definition set_tmpFiles (w : World) (t : list string) : World :=
  mkWorld (db w) (blobs w) t (console w) (now w) (entropy w)
    (faults w) (cloudinaryReplies w).
Definition set_console (w : World) (c : list string) : World :=
  mkWorld (db w) (blobs w) (tmpFiles w) c (now w) (entropy w)
    (faults w) (cloudinaryReplies w).
Definition set_entropy (w : World) (e : list string) : World :=
  mkWorld (db w) (blobs w) (tmpFiles w) (console w) (now w) e
    (faults w) (cloudinaryReplies w).
Definition set_faults (w : World) (f : list bool) : World :=
  mkWorld (db w) (blobs w) (tmpFiles w) (console w) (now w) (entropy w)
    f (cloudinaryReplies w).
Definition set_cloudinaryReplies (w : World) (c : list UploadApiResponse)
  : World :=
  mkWorld (db w) (blobs w) (tmpFiles w) (console w) (now w) (entropy w)
    (faults w) c.

(** ** The handler monad: state, early [return res...], and [throw] *)

Inductive Outcome (A : Type) :=
  | Val (a : A)
  | Sent (r : Response)
  | Thrown (e : Err).
Arguments Val {A} a.
Arguments Sent {A} r.
Arguments Thrown {A} e.

Definition M (A : Type) : Type := World -> Outcome A * World.

Definition ret {A} (a : A) : M A := fun w => (Val a, w).

Definition bind {A B} (m : M A) (k : A -> M B) : M B :=
  fun w =>
    match m w with
    | (Val a, w') => k a w'
    | (Sent r, w') => (Sent r, w')
    | (Thrown e, w') => (Thrown e, w')
    end.

Declare Scope handler_scope.
Delimit Scope handler_scope with handler.
Notation "x <- m ;; k" := (bind m (fun x => k))
  (at level 100, m at next level, right associativity) : handler_scope.
Notation "m ;; k" := (bind m (fun _ => k))
  (at level 100, right associativity) : handler_scope.
Local Open Scope handler_scope.

(** [return res.status(s).json(b)] *)
Definition reply {A} (s : nat) (b : Body) : M A :=
  fun w => (Sent (res s b), w).

Definition throw {A} (e : Err) : M A := fun w => (Thrown e, w).

(** [try { m } catch (error) { h error }]: an early [return] inside the
    block is not caught. *)
Definition tryCatch {A} (m : M A) (h : Err -> M A) : M A :=
  fun w =>
    match m w with
    | (Thrown e, w') => h e w'
    | other => other
    end.

Definition when_ (c : bool) (m : M unit) : M unit :=
  if c then m else ret tt.

(** [l.forEach(f)] *)
Fixpoint forEach {A} (f : A -> M unit) (l : list A) : M unit :=
  match l with
  | [] => ret tt
  | a :: l' => f a ;; forEach f l'
  end.

(** [await Promise.allSettled(l.map(f))] for an [f] that catches what it
    throws.  The promises run one after the other here; in the server
    their statements may interleave. *)
Fixpoint mapM {A B} (f : A -> M B) (l : list A) : M (list B) :=
  match l with
  | [] => ret []
  | a :: l' => b <- f a ;; bs <- mapM f l' ;; ret (b :: bs)
  end.

Definition console_error (label : string) : M unit :=
  fun w => (Val tt, set_console w (console w ++ [label])).

(** A call to the database or to Cloudinary: it consumes one entry of the
    fault schedule and throws when that entry is [true]. *)
Definition storage {A} (op : M A) : M A :=
  fun w =>
    let w' := set_faults w (tl (faults w)) in
    if hd false (faults w) then (Thrown StorageFailure, w') else op w'.

Definition nanoid : M string :=
  fun w => (Val (hd "" (entropy w)), set_entropy w (tl (entropy w))).

(** What the client gets: every route catches what it throws, so [Thrown]
    only remains for a handler without a catch block. *)
Definition run (h : M Response) (w : World) : Response * World :=
  match h w with
  | (Val r, w') => (r, w')
  | (Sent r, w') => (r, w')
  | (Thrown e, w') => (res 500 (Error (message e)), w')
  end.

(** ** Database statements *)

Definition has_user (d : DB) (uid : string) : bool :=
  existsb (fun u => user.id u =? uid) (users d).
Definition has_file (d : DB) (fid : string) : bool :=
  existsb (fun f => file.id f =? fid) (files d).

Definition file_findFirst (where_ : file.row -> bool)
  : M (option file.row) :=
  storage (fun w => (Val (find where_ (files (db w))), w)).

Definition user_findFirst (where_ : user.row -> bool)
  : M (option user.row) :=
  storage (fun w => (Val (find where_ (users (db w))), w)).

(** The [where] clause may mention SQL [NOW()]. *)
Definition share_findFirst (where_ : Z -> share.row -> bool)
  : M (option share.row) :=
  storage (fun w => (Val (find (where_ (now w)) (shares (db w))), w)).

(** [db.query.share.findFirst({ where, with: { file } })]: one statement
    that also loads the row [share.fileId] refers to. *)
Definition share_findFirst_with_file (where_ : share.row -> bool)
  : M (option (share.row * option file.row)) :=
  storage (fun w =>
    (Val (option_map
            (fun s =>
               (s, find (fun f => file.id f =? share.fileId s)
                     (files (db w))))
            (find where_ (shares (db w)))), w)).

Definition share_findMany (where_ : share.row -> bool)
  : M (list share.row) :=
  storage (fun w => (Val (filter where_ (shares (db w))), w)).

Definition insert_user_db (r : user.row) (d : DB) : Err + DB :=
  if has_user d (user.id r) then inl (UniqueViolation "user_pkey")
  else if existsb (fun u => user.email u =? user.email r) (users d)
  then inl (UniqueViolation "user_email_unique")
  else inr (mkDB (users d ++ [r]) (files d) (shares d) (activityLogs d)).

Definition insert_file_db (r : file.row) (d : DB) : Err + DB :=
  if has_file d (file.id r) then inl (UniqueViolation "file_pkey")
  else if negb (has_user d (file.ownerId r))
  then inl (ForeignKeyViolation "file_owner_id_user_id_fk")
  else inr (mkDB (users d) (files d ++ [r]) (shares d) (activityLogs d)).

Definition insert_share_db (r : share.row) (d : DB) : Err + DB :=
  if existsb (fun s => share.id s =? share.id r) (shares d)
  then inl (UniqueViolation "share_pkey")
  else if match share.token r with
          | Some t => existsb (fun s => eq_nullable (share.token s) t)
                        (shares d)
          | None => false
          end
  then inl (UniqueViolation "share_token_unique")
  else if negb (has_file d (share.fileId r))
  then inl (ForeignKeyViolation "share_file_id_file_id_fk")
  else if match share.sharedWithUserId r with
          | Some u => negb (has_user d u)
          | None => false
          end
  then inl (ForeignKeyViolation "share_shared_with_user_id_user_id_fk")
  else if negb (has_user d (share.createdBy r))
  then inl (ForeignKeyViolation "share_created_by_user_id_fk")
  else inr (mkDB (users d) (files d) (shares d ++ [r]) (activityLogs d)).

Definition insert_activityLog_db (r : activityLog.row) (d : DB) : Err + DB :=
  if existsb (fun l => activityLog.id l =? activityLog.id r)
       (activityLogs d)
  then inl (UniqueViolation "activity_log_pkey")
  else if negb (has_file d (activityLog.fileId r))
  then inl (ForeignKeyViolation "activity_log_file_id_file_id_fk")
  else if negb (has_user d (activityLog.userId r))
  then inl (ForeignKeyViolation "activity_log_user_id_user_id_fk")
  else inr (mkDB (users d) (files d) (shares d) (activityLogs d ++ [r])).

(** [db.delete(share).where(p)] *)
Definition delete_share_db (where_ : share.row -> bool) (d : DB) : DB :=
  mkDB (users d) (files d)
    (filter (fun s => negb (where_ s)) (shares d)) (activityLogs d).

(** [db.delete(file).where(p)]: [share.file_id] and [activity_log.file_id]
    reference [file.id] with [onDelete: "cascade"]. *)
Definition delete_file_db (where_ : file.row -> bool) (d : DB) : DB :=
  let gone := filter where_ (files d) in
  let dead fid := existsb (fun f => file.id f =? fid) gone in
  mkDB (users d)
    (filter (fun f => negb (where_ f)) (files d))
    (filter (fun s => negb (dead (share.fileId s))) (shares d))
    (filter (fun l => negb (dead (activityLog.fileId l))) (activityLogs d)).

(** [db.update(file).set({ resourceType }).where(p)]; the column
    [updatedAt] has [$onUpdate(() => new Date())]. *)
Definition update_resourceType_db (rt : string) (NOW : Z)
  (where_ : file.row -> bool) (d : DB) : DB :=
  mkDB (users d)
    (map (fun f =>
            if where_ f
            then file.mk (file.id f) (file.filename f) (file.cloudinaryId f)
                   (file.fileUrl f) (file.size f) (file.type f) (Some rt)
                   (file.ownerId f) (file.createdAt f) NOW
            else f) (files d))
    (shares d) (activityLogs d).

Definition write (stmt : DB -> Err + DB) : M unit :=
  storage (fun w =>
    match stmt (db w) with
    | inl e => (Thrown e, w)
    | inr d => (Val tt, set_db w d)
    end).

Definition insert_file (r : file.row) : M file.row :=
  write (insert_file_db r) ;; ret r.
Definition insert_share (r : share.row) : M share.row :=
  write (insert_share_db r) ;; ret r.
Definition insert_activityLog (r : activityLog.row) : M unit :=
  write (insert_activityLog_db r).
Definition delete_share (where_ : share.row -> bool) : M unit :=
  write (fun d => inr (delete_share_db where_ d)).
Definition delete_file (where_ : file.row -> bool) : M unit :=
  write (fun d => inr (delete_file_db where_ d)).
Definition update_resourceType (rt : string) (where_ : file.row -> bool)
  : M unit :=
  fun w => write (fun d => inr (update_resourceType_db rt (now w) where_ d)) w.

(** ** Collaborators: clock, Cloudinary, the upload directory *)

Definition truthy (s : string) : bool := negb (s =? "").

Definition no_reply : UploadApiResponse := mkCloud "" "" "".

Definition cloudinary_uploader_upload (path : string) : M UploadApiResponse :=
  storage (fun w =>
    if existsb (String.eqb path) (tmpFiles w)
    then let r := hd no_reply (cloudinaryReplies w) in
         (Val r,
          set_cloudinaryReplies
            (set_blobs w (blobs w ++ [(public_id r, resource_type r)]))
            (tl (cloudinaryReplies w)))
    else (Thrown (ENOENT path), w)).

(** [destroy] answers "not found" without throwing when no asset of that
    resource type has the public id. *)
Definition cloudinary_uploader_destroy (pid rtype : string) : M unit :=
  storage (fun w =>
    (Val tt,
     set_blobs w
       (filter (fun b => negb ((fst b =? pid) && (snd b =? rtype)))
          (blobs w)))).

Definition cloudinary_api_resource (pid : string) : M string :=
  storage (fun w =>
    match find (fun b => fst b =? pid) (blobs w) with
    | Some b => (Val (snd b), w)
    | None => (Thrown (CloudinaryNotFound pid), w)
    end).

Definition fs_existsSync (path : string) : M bool :=
  fun w => (Val (existsb (String.eqb path) (tmpFiles w)), w).

Definition fs_unlinkSync (path : string) : M unit :=
  fun w =>
    if existsb (String.eqb path) (tmpFiles w)
    then (Val tt,
          set_tmpFiles w
            (filter (fun p => negb (p =? path)) (tmpFiles w)))
    else (Thrown (ENOENT path), w).

(** [new Date()] and the columns' [defaultNow()] *)
Definition Date_now : M Z := fun w => (Val (now w), w).

(** ** Requests *)

Module AuthRequest.
Record user := mk { id : string; email : string; name : string }.
End AuthRequest.

Module multer.
Record File := mk {
  path : string; originalname : string; size : Z; mimetype : string }.
End multer.

(** What [new Date(v)] evaluates to. *)
Inductive JsDate := InvalidDate | DateAt (ms : Z).

(** A value of the JSON body, as far as a route looks at it: [js_truthy]
    is what [if (v)] tests and [new_Date] is what [new Date(v)]
    evaluates to. *)
Record JsValue := mkJsValue { js_truthy : bool; new_Date : JsDate }.

(** The numbers 0, the empty string, [false] and [null] are falsy. *)
Definition json_zero : JsValue := mkJsValue false (DateAt 0).
Definition json_empty_string : JsValue := mkJsValue false InvalidDate.
Definition json_false : JsValue := mkJsValue false (DateAt 0).
Definition json_null : JsValue := mkJsValue false (DateAt 0).

(** A date-time string that denotes the instant [ms]. *)
Definition json_date (ms : Z) : JsValue := mkJsValue true (DateAt ms).

(** ** Middleware *)

(** [auth.api.getSession({ headers })]: the identity provider looks the
    session up in its store; [session] is what it finds. *)
Definition auth_api_getSession (session : option AuthRequest.user)
  : M (option AuthRequest.user) :=
  storage (ret session).

(** middleware/auth: without a session the request is answered 401 and the
    handler is not called; otherwise [req.user] is set and [next()] runs. *)
Definition authMiddleware {A} (session : option AuthRequest.user)
  (next : option AuthRequest.user -> M A) : M A :=
  user <- tryCatch
            (session <- auth_api_getSession session ;;
             match session with
             | None => reply 401 (Error "Unauthorized")
             | Some user => ret user
             end)
            (fun error =>
               console_error "Auth middleware error:" ;;
               reply 401 (Error "Unauthorized")) ;;
  next (Some user).

(** config/multer.ts *)
Definition allowedTypes : list string :=
  ["image/jpeg"; "image/jpg"; "image/png"; "image/gif"; "image/webp";
   "application/pdf"; "text/csv"; "application/vnd.ms-excel";
   "application/vnd.openxmlformats-officedocument.spreadsheetml.sheet";
   "video/mp4"; "video/mpeg"; "video/quicktime"; "audio/mpeg"; "audio/wav"].

Definition fileFilter (file : multer.File) : M unit :=
  if existsb (String.eqb (multer.mimetype file)) allowedTypes
  then ret tt
  else throw (PlainError
    "Invalid file type. Only images, PDFs, CSVs, videos, and audio files are allowed.").

(** [limits.fileSize]: 50MB per file *)
Definition limits_fileSize : Z := 50 * 1024 * 1024.

(** [storage]: the disk storage writes the file under its generated
    name. *)
Definition diskStorage (f : multer.File) : M unit :=
  fun w =>
    if existsb (String.eqb (multer.path f)) (tmpFiles w) then (Val tt, w)
    else (Val tt, set_tmpFiles w (tmpFiles w ++ [multer.path f])).

(** One file part of the request: multer asks [fileFilter], then streams
    the file to the storage and aborts when it exceeds
    [limits.fileSize]. *)
Definition multer_file (f : multer.File) : M unit :=
  fileFilter f ;;
  if (limits_fileSize <? multer.size f)%Z
  then throw (MulterError "LIMIT_FILE_SIZE")
  else diskStorage f.

(** [upload.single("file")]: an accepted upload is on disk before the
    handler runs; a refused one is passed to the error handler and nothing
    is stored. *)
Definition upload_single (req_file : option multer.File) : M unit :=
  match req_file with
  | Some f => multer_file f
  | None => ret tt
  end.

(** The file parts in the order they arrive, at most [filesLeft] of
    them. *)
Fixpoint multer_files (filesLeft : nat) (files : list multer.File) : M unit :=
  match files with
  | [] => ret tt
  | f :: rest =>
      match filesLeft with
      | O => throw (MulterError "LIMIT_UNEXPECTED_FILE")
      | S n => multer_file f ;; multer_files n rest
      end
  end.

(** [upload.array("files", 10)]: when a part is refused, multer removes
    the files of the request it has stored and passes the error on. *)
Definition upload_array (req_files : option (list multer.File)) : M unit :=
  match req_files with
  | Some files =>
      tryCatch (multer_files 10 files)
        (fun error =>
           forEach
             (fun f =>
                there <- fs_existsSync (multer.path f) ;;
                when_ there (fs_unlinkSync (multer.path f)))
             files ;;
           throw error)
  | None => ret tt
  end.

(** ** routes/files.ts *)

Module files_router.

Definition logActivity (fileId userId : string)
  (activityType : activityTypeEnum) (metadata : option string) : M unit :=
  id <- nanoid ;;
  t <- Date_now ;;
  insert_activityLog (activityLog.mk id fileId userId activityType metadata t).

Definition POST_upload (req_user : option AuthRequest.user)
  (req_file : option multer.File) : M Response :=
  tryCatch
    (match req_file with
     | None => reply 400 (Error "No file uploaded")
     | Some f =>
     match req_user with
     | None => reply 401 (Error "Unauthorized")
     | Some u =>
       result <- cloudinary_uploader_upload (multer.path f) ;;
       newFile <-
         tryCatch
           (fileId <- nanoid ;;
            t <- Date_now ;;
            newFile <- insert_file
              (file.mk fileId (multer.originalname f) (public_id result)
                 (secure_url result) (multer.size f) (multer.mimetype f)
                 (Some (resource_type result)) (AuthRequest.id u) t t) ;;
            logActivity fileId (AuthRequest.id u) A_upload None ;;
            fs_unlinkSync (multer.path f) ;;
            ret newFile)
           (fun dbError =>
              tryCatch
                (cloudinary_uploader_destroy (public_id result)
                   (resource_type result))
                (fun cleanupError =>
                   console_error "Failed to cleanup Cloudinary file:") ;;
              throw dbError) ;;
       reply 201 (Uploaded (file.id newFile) (file.filename newFile))
     end
     end)
    (fun error =>
       console_error "Upload error:" ;;
       match req_file with
       | Some f =>
           there <- fs_existsSync (multer.path f) ;;
           when_ there (fs_unlinkSync (multer.path f))
       | None => ret tt
       end ;;
       reply 500 (Error (message error))).

(** What one promise of [uploadPromises] resolves to. *)
Inductive BulkResult :=
  | bulk_success (newFile : file.row)
  | bulk_error (filename error : string).

Definition uploadPromise (u : AuthRequest.user) (uploadedFile : multer.File)
  : M BulkResult :=
  tryCatch
    (result <- cloudinary_uploader_upload (multer.path uploadedFile) ;;
     tryCatch
       (fileId <- nanoid ;;
        t <- Date_now ;;
        newFile <- insert_file
          (file.mk fileId (multer.originalname uploadedFile)
             (public_id result) (secure_url result)
             (multer.size uploadedFile) (multer.mimetype uploadedFile)
             (Some (resource_type result)) (AuthRequest.id u) t t) ;;
        logActivity fileId (AuthRequest.id u) A_upload None ;;
        fs_unlinkSync (multer.path uploadedFile) ;;
        ret (bulk_success newFile))
       (fun dbError =>
          tryCatch
            (cloudinary_uploader_destroy (public_id result)
               (resource_type result))
            (fun cleanupError =>
               console_error "Failed to cleanup Cloudinary file:") ;;
          throw dbError))
    (fun error =>
       ret (bulk_error (multer.originalname uploadedFile) (message error))).

Definition successfulUploads (results : list BulkResult)
  : list (string * string) :=
  flat_map (fun r => match r with
                     | bulk_success f => [(file.id f, file.filename f)]
                     | bulk_error _ _ => []
                     end) results.

Definition failedUploads (results : list BulkResult)
  : list (string * string) :=
  flat_map (fun r => match r with
                     | bulk_success _ => []
                     | bulk_error name e => [(name, e)]
                     end) results.

Definition POST_upload_bulk (req_user : option AuthRequest.user)
  (req_files : option (list multer.File)) : M Response :=
  tryCatch
    (match req_files with
     | None | Some [] => reply 400 (Error "No files uploaded")
     | Some files =>
       match req_user with
       | None => reply 401 (Error "Unauthorized")
       | Some u =>
         results <- mapM (uploadPromise u) files ;;
         reply 201
           (BulkUploaded (successfulUploads results) (failedUploads results))
       end
     end)
    (fun error =>
       console_error "Bulk upload error:" ;;
       match req_files with
       | Some files =>
           forEach
             (fun f =>
                there <- fs_existsSync (multer.path f) ;;
                when_ there (fs_unlinkSync (multer.path f)))
             files
       | None => ret tt
       end ;;
       reply 500 (Error (message error))).

(** The access check shared by [GET /:id] and [GET /:id/download]. *)
Definition hasShare_where (fileId userId : string) (NOW : Z)
  (s : share.row) : bool :=
  (share.fileId s =? fileId)
  && eq_nullable (share.sharedWithUserId s) userId
  && notExpired NOW s.

Definition GET_id (req_user : option AuthRequest.user) (id : string)
  : M Response :=
  tryCatch
    (match req_user with
     | None => reply 401 (Error "Unauthorized")
     | Some u =>
       if negb (truthy id) then reply 400 (Error "File ID is required")
       else
       fileRecord <- file_findFirst (fun f => file.id f =? id) ;;
       match fileRecord with
       | None => reply 404 (Error "File not found")
       | Some fileRecord =>
         let isOwner := file.ownerId fileRecord =? AuthRequest.id u in
         hasShare <- share_findFirst
           (hasShare_where (file.id fileRecord) (AuthRequest.id u)) ;;
         match isOwner, hasShare with
         | false, None => reply 403 (Error "Access denied")
         | _, _ =>
           reply 200
             (FileInfo (file.id fileRecord) isOwner
                (if isOwner then Some R_owner
                 else option_map share.role hasShare))
         end
       end
     end)
    (fun error =>
       console_error "Get file error:" ;;
       reply 500 (Error (message error))).

Definition GET_id_download (req_user : option AuthRequest.user)
  (id : string) : M Response :=
  tryCatch
    (match req_user with
     | None => reply 401 (Error "Unauthorized")
     | Some u =>
       if negb (truthy id) then reply 400 (Error "File ID is required")
       else
       fileRecord <- file_findFirst (fun f => file.id f =? id) ;;
       match fileRecord with
       | None => reply 404 (Error "File not found")
       | Some fileRecord =>
         let isOwner := file.ownerId fileRecord =? AuthRequest.id u in
         hasShare <- share_findFirst
           (hasShare_where (file.id fileRecord) (AuthRequest.id u)) ;;
         match isOwner, hasShare with
         | false, None => reply 403 (Error "Access denied")
         | _, _ =>
           logActivity (file.id fileRecord) (AuthRequest.id u)
             A_download None ;;
           reply 200
             (Download (file.fileUrl fileRecord) (file.filename fileRecord))
         end
       end
     end)
    (fun error =>
       console_error "Download error:" ;;
       reply 500 (Error (message error))).

Definition inferResourceType (mime : string) : string :=
  if prefix "image/" mime then "image"
  else if prefix "video/" mime then "video"
  else "raw".

Definition DELETE_id (req_user : option AuthRequest.user) (id : string)
  : M Response :=
  tryCatch
    (match req_user with
     | None => reply 401 (Error "Unauthorized")
     | Some u =>
       if negb (truthy id) then reply 400 (Error "File ID is required")
       else
       fileRecord <- file_findFirst (fun f => file.id f =? id) ;;
       match fileRecord with
       | None => reply 404 (Error "File not found")
       | Some fileRecord =>
         if negb (file.ownerId fileRecord =? AuthRequest.id u)
         then reply 403 (Error "Only owner can delete")
         else
         let stored := match file.resourceType fileRecord with
                       | Some rt => rt
                       | None => ""
                       end in
         resourceType <-
           (if truthy stored then ret stored
            else
              tryCatch
                (fetched <- cloudinary_api_resource
                              (file.cloudinaryId fileRecord) ;;
                 update_resourceType fetched (fun f => file.id f =? id) ;;
                 ret fetched)
                (fun apiError =>
                   console_error
                     "Failed to fetch resource type from Cloudinary:" ;;
                   ret (inferResourceType (file.type fileRecord)))) ;;
         cloudinary_uploader_destroy (file.cloudinaryId fileRecord)
           resourceType ;;
         logActivity (file.id fileRecord) (AuthRequest.id u) A_delete None ;;
         delete_file (fun f => file.id f =? id) ;;
         reply 200 (Message "File deleted successfully")
       end
     end)
    (fun error =>
       console_error "Delete error:" ;;
       reply 500 (Error (message error))).

End files_router.

(** ** The share router ([/api/share]) *)

Module share_router.

Definition logActivity (fileId userId : string)
  (activityType : activityTypeEnum) (metadata : option string) : M unit :=
  id <- nanoid ;;
  t <- Date_now ;;
  insert_activityLog (activityLog.mk id fileId userId activityType metadata t).

(** [req.body] of [POST /:fileId/user].  A field is [None] when it is
    undefined (or, for [userEmail] and [role], null). *)
Record UserShareBody := mkUserShareBody {
  userEmail : option string;
  role : option string;
  expiresAt : option JsValue }.

Definition allowedRoles : list string := ["viewer"; "editor"].

Definition includes (l : list string) (s : string) : bool :=
  existsb (String.eqb s) l.

(** The column type of [share.role] is the enum [role]. *)
Definition roleEnum_of_string (s : string) : option roleEnum :=
  if s =? "owner" then Some R_owner
  else if s =? "viewer" then Some R_viewer
  else if s =? "editor" then Some R_editor
  else None.

(** The block under [// Validate expiresAt date], the same in both
    [POST] routes. *)
Definition validateExpiresAt (expiresAt : option JsValue) : M (option Z) :=
  match expiresAt with
  | None => ret None
  | Some v =>
    if js_truthy v
    then
      match new_Date v with
      | InvalidDate => reply 400 (Error "Invalid expiration date")
      | DateAt ms =>
        today <- Date_now ;;
        if (ms <=? today)%Z
        then reply 400 (Error "Expiration date must be in the future")
        else ret (Some ms)
      end
    else ret None
  end.

Definition POST_fileId_user (req_user : option AuthRequest.user)
  (fileId : string) (req_body : UserShareBody) : M Response :=
  tryCatch
    (match req_user with
     | None => reply 401 (Error "Unauthorized")
     | Some u =>
       if negb (truthy fileId) then reply 400 (Error "File ID is required")
       else
       let role := match role req_body with
                   | Some r => r
                   | None => "viewer"
                   end in
       match userEmail req_body with
       | None => reply 400 (Error "User email is required")
       | Some userEmail =>
       if negb (truthy userEmail)
       then reply 400 (Error "User email is required")
       else
       if truthy role && negb (includes allowedRoles role)
       then reply 400 (Error "Invalid role. Must be 'viewer' or 'editor'")
       else
       fileRecord <- file_findFirst (fun f => file.id f =? fileId) ;;
       match fileRecord with
       | None => reply 404 (Error "File not found")
       | Some fileRecord =>
       if negb (file.ownerId fileRecord =? AuthRequest.id u)
       then reply 403 (Error "Only file owner can share files")
       else
       sharedUser <- user_findFirst (fun x => user.email x =? userEmail) ;;
       match sharedUser with
       | None => reply 404 (Error "User not found")
       | Some sharedUser =>
       if user.id sharedUser =? AuthRequest.id u
       then reply 400 (Error "Cannot share with yourself")
       else
       existingShare <- share_findFirst
         (fun _ s =>
            (share.fileId s =? fileId)
            && eq_nullable (share.sharedWithUserId s) (user.id sharedUser)
            && shareType_eqb (share.shareType s) ST_user) ;;
       match existingShare with
       | Some _ => reply 400 (Error "File already shared with this user")
       | None =>
       expiresAtDate <- validateExpiresAt (expiresAt req_body) ;;
       id <- nanoid ;;
       match roleEnum_of_string (if truthy role then role else "viewer") with
       | None => throw (InvalidEnumValue role)
       | Some roleValue =>
       t <- Date_now ;;
       newShare <- insert_share
         (share.mk id fileId ST_user (Some (user.id sharedUser)) None
            roleValue expiresAtDate t (AuthRequest.id u)) ;;
       logActivity fileId (AuthRequest.id u) A_share
         (Some ("Shared with " ++ userEmail)) ;;
       reply 201
         (ShareCreated (share.id newShare) (user.id sharedUser)
            (share.role newShare) (share.expiresAt newShare))
       end
       end
       end
       end
       end
     end)
    (fun error =>
       console_error "Share with user error:" ;;
       reply 500 (Error (message error))).

Definition POST_fileId_link (req_user : option AuthRequest.user)
  (fileId : string) (req_body_expiresAt : option JsValue) : M Response :=
  tryCatch
    (match req_user with
     | None => reply 401 (Error "Unauthorized")
     | Some u =>
       if negb (truthy fileId) then reply 400 (Error "File ID is required")
       else
       fileRecord <- file_findFirst (fun f => file.id f =? fileId) ;;
       match fileRecord with
       | None => reply 404 (Error "File not found")
       | Some fileRecord =>
       if negb (file.ownerId fileRecord =? AuthRequest.id u)
       then reply 403 (Error "Only file owner can generate share links")
       else
       token <- nanoid ;;
       expiresAtDate <- validateExpiresAt req_body_expiresAt ;;
       id <- nanoid ;;
       t <- Date_now ;;
       newShare <- insert_share
         (share.mk id fileId ST_link None (Some token) R_viewer
            expiresAtDate t (AuthRequest.id u)) ;;
       logActivity fileId (AuthRequest.id u) A_share
         (Some "Generated share link") ;;
       reply 201
         (LinkCreated (share.id newShare) (share.token newShare)
            (share.expiresAt newShare))
       end
     end)
    (fun error =>
       console_error "Generate share link error:" ;;
       reply 500 (Error (message error))).

(** [shareRecord.file.x]: reading a property of a missing joined row. *)
Definition property {A} (joined : option file.row) (x : file.row -> A)
  (what : string) : M A :=
  match joined with
  | Some f => ret (x f)
  | None => throw (TypeError what)
  end.

Definition GET_link_token (req_user : option AuthRequest.user)
  (token : string) : M Response :=
  tryCatch
    (match req_user with
     | None => reply 401 (Error "Unauthorized")
     | Some u =>
       if negb (truthy token) then reply 400 (Error "Token is required")
       else
       shareRecord <- share_findFirst_with_file
         (fun s =>
            eq_nullable (share.token s) token
            && shareType_eqb (share.shareType s) ST_link) ;;
       match shareRecord with
       | None => reply 404 (Error "Share link not found")
       | Some (shareRecord, shareRecord_file) =>
         today <- Date_now ;;
         if match share.expiresAt shareRecord with
            | Some e => (e <? today)%Z
            | None => false
            end
         then reply 403 (Error "Share link has expired")
         else
         logActivity (share.fileId shareRecord) (AuthRequest.id u)
           A_download None ;;
         file_id <- property shareRecord_file file.id "id" ;;
         file_fileUrl <- property shareRecord_file file.fileUrl "fileUrl" ;;
         reply 200 (SharedFile file_id file_fileUrl (share.role shareRecord))
       end
     end)
    (fun error =>
       console_error "Access share link error:" ;;
       reply 500 (Error (message error))).

Definition GET_fileId_shares (req_user : option AuthRequest.user)
  (fileId : string) : M Response :=
  tryCatch
    (match req_user with
     | None => reply 401 (Error "Unauthorized")
     | Some u =>
       if negb (truthy fileId) then reply 400 (Error "File ID is required")
       else
       fileRecord <- file_findFirst (fun f => file.id f =? fileId) ;;
       match fileRecord with
       | None => reply 404 (Error "File not found")
       | Some fileRecord =>
       if negb (file.ownerId fileRecord =? AuthRequest.id u)
       then reply 403 (Error "Only file owner can view shares")
       else
       shares <- share_findMany (fun s => share.fileId s =? fileId) ;;
       reply 200 (ShareList shares)
       end
     end)
    (fun error =>
       console_error "Get shares error:" ;;
       reply 500 (Error (message error))).

Definition DELETE_shareId (req_user : option AuthRequest.user)
  (shareId : string) : M Response :=
  tryCatch
    (match req_user with
     | None => reply 401 (Error "Unauthorized")
     | Some u =>
       if negb (truthy shareId) then reply 400 (Error "Share ID is required")
       else
       shareRecord <- share_findFirst_with_file
         (fun s => share.id s =? shareId) ;;
       match shareRecord with
       | None => reply 404 (Error "Share not found")
       | Some (shareRecord, shareRecord_file) =>
       file_ownerId <- property shareRecord_file file.ownerId "ownerId" ;;
       if negb (file_ownerId =? AuthRequest.id u)
       then reply 403 (Error "Only file owner can revoke shares")
       else
       delete_share (fun s => share.id s =? shareId) ;;
       logActivity (share.fileId shareRecord) (AuthRequest.id u) A_unshare
         (Some ("Revoked share " ++ shareId)) ;;
       reply 200 (Message "Share revoked successfully")
       end
     end)
    (fun error =>
       console_error "Revoke share error:" ;;
       reply 500 (Error (message error))).

End share_router.

(** ** The routes that only read *)

(** [GET /api/files] and the activity router answer with
    [res.json(payload)]: a handler of type [M A] that ends in [Val payload]
    has answered 200 with that payload, and an early
    [return res.status(s).json(...)] is [Sent] as before.  The joined
    [owner], [user] and [createdByUser] columns are left out. *)

(** [orderBy: [desc(key)]].  Rows with equal keys come in an order
    PostgreSQL does not specify. *)
Fixpoint insert_desc {A} (key : A -> Z) (x : A) (l : list A) : list A :=
  match l with
  | [] => [x]
  | y :: l' =>
      if (key y <? key x)%Z then x :: l else y :: insert_desc key x l'
  end.

Definition orderBy_desc {A} (key : A -> Z) (l : list A) : list A :=
  fold_right (insert_desc key) [] l.

Definition file_findMany (where_ : file.row -> bool)
  (orderBy : list file.row -> list file.row) : M (list file.row) :=
  storage (fun w => (Val (orderBy (filter where_ (files (db w)))), w)).

(** [db.query.share.findMany({ where, with: { file } })] *)
Definition share_findMany_with_file (where_ : Z -> share.row -> bool)
  : M (list (share.row * option file.row)) :=
  storage (fun w =>
    (Val (map (fun s =>
                 (s, find (fun f => file.id f =? share.fileId s)
                       (files (db w))))
            (filter (where_ (now w)) (shares (db w)))), w)).

(** [findMany({ where, orderBy: [desc(createdAt)], limit })] and
    [select().from(activityLog).where().orderBy().limit()] *)
Definition activityLog_findMany (where_ : activityLog.row -> bool)
  (limit : option nat) : M (list activityLog.row) :=
  storage (fun w =>
    let rows := orderBy_desc activityLog.createdAt
                  (filter where_ (activityLogs (db w))) in
    (Val (match limit with
          | Some n => firstn n rows
          | None => rows
          end), w)).

Definition activityLog_findFirst (where_ : activityLog.row -> bool)
  : M (option activityLog.row) :=
  storage (fun w => (Val (find where_ (activityLogs (db w))), w)).

Module files_listing.

(** One entry of [sharedFiles]: [{ ...s.file, role: s.role }]. *)
Definition SharedFileEntry : Type := option file.row * roleEnum.

(** [router.get("/")] of routes/files.ts *)
Definition GET_ (req_user : option AuthRequest.user)
  : M (list file.row * list SharedFileEntry) :=
  tryCatch
    (match req_user with
     | None => reply 401 (Error "Unauthorized")
     | Some u =>
       ownedFiles <- file_findMany
         (fun f => file.ownerId f =? AuthRequest.id u)
         (orderBy_desc file.createdAt) ;;
       sharedWithUser <- share_findMany_with_file
         (fun NOW s =>
            eq_nullable (share.sharedWithUserId s) (AuthRequest.id u)
            && notExpired NOW s) ;;
       let sharedFiles :=
         map (fun s => (snd s, share.role (fst s))) sharedWithUser in
       ret (ownedFiles, sharedFiles)
     end)
    (fun error =>
       console_error "Get files error:" ;;
       reply 500 (Error (message error))).

(** [router.get("/", authMiddleware, ...)] *)
Definition router_get_ (session : option AuthRequest.user)
  : M (list file.row * list SharedFileEntry) :=
  authMiddleware session GET_.

End files_listing.

Module activity_router.

(** [router.get("/files/:fileId")] *)
Definition GET_files_fileId (req_user : option AuthRequest.user)
  (fileId : string) : M (list activityLog.row) :=
  tryCatch
    (match req_user with
     | None => reply 401 (Error "Unauthorized")
     | Some u =>
       if negb (truthy fileId) then reply 400 (Error "File ID is required")
       else
       fileRecord <- file_findFirst (fun f => file.id f =? fileId) ;;
       match fileRecord with
       | None => reply 404 (Error "File not found")
       | Some fileRecord =>
       if negb (file.ownerId fileRecord =? AuthRequest.id u)
       then reply 403 (Error "Only file owner can view activity logs")
       else
       activities <- activityLog_findMany
         (fun a => activityLog.fileId a =? fileId) None ;;
       ret activities
       end
     end)
    (fun error =>
       console_error "Get activity log error:" ;;
       reply 500 (Error (message error))).

(** [router.get("/user")] *)
Definition GET_user (req_user : option AuthRequest.user)
  : M (list activityLog.row) :=
  tryCatch
    (match req_user with
     | None => reply 401 (Error "Unauthorized")
     | Some u =>
       activities <- activityLog_findMany
         (fun a => activityLog.userId a =? AuthRequest.id u) (Some 50) ;;
       ret activities
     end)
    (fun error =>
       console_error "Get user activity error:" ;;
       reply 500 (Error (message error))).

(** [router.get("/")]: the entries about the files the user owns, each
    looked up again by id for its joins. *)
Definition GET_ (req_user : option AuthRequest.user)
  : M (list activityLog.row) :=
  tryCatch
    (match req_user with
     | None => reply 401 (Error "Unauthorized")
     | Some u =>
       userFiles <- file_findMany
         (fun f => file.ownerId f =? AuthRequest.id u) (fun rows => rows) ;;
       let fileIds := map file.id userFiles in
       if (length fileIds =? 0)%nat then ret []
       else
       activities <- activityLog_findMany
         (fun a => existsb (String.eqb (activityLog.fileId a)) fileIds)
         (Some 100) ;;
       activitiesWithDetails <- mapM
         (fun a =>
            activityLog_findFirst
              (fun x => activityLog.id x =? activityLog.id a))
         activities ;;
       mapM (fun a => match a with
                      | Some a => ret a
                      | None => throw (TypeError "id")
                      end)
         activitiesWithDetails
     end)
    (fun error =>
       console_error "Get all activities error:" ;;
       reply 500 (Error (message error))).

(** [router.get(path, authMiddleware, ...)] of the three routes *)
Definition router_get_files_fileId (session : option AuthRequest.user)
  (fileId : string) : M (list activityLog.row) :=
  authMiddleware session (fun req_user => GET_files_fileId req_user fileId).

Definition router_get_user (session : option AuthRequest.user)
  : M (list activityLog.row) :=
  authMiddleware session GET_user.

Definition router_get_ (session : option AuthRequest.user)
  : M (list activityLog.row) :=
  authMiddleware session GET_.

End activity_router.

(** ** The server: requests arriving one after the other *)

Inductive Request :=
  | signUp (account : user.row)
  | upload (session : option AuthRequest.user)
      (req_file : option multer.File)
  | uploadBulk (session : option AuthRequest.user)
      (req_files : option (list multer.File))
  | getFile (session : option AuthRequest.user) (id : string)
  | download (session : option AuthRequest.user) (id : string)
  | deleteFile (session : option AuthRequest.user) (id : string)
  | shareWithUser (session : option AuthRequest.user) (fileId : string)
      (req_body : share_router.UserShareBody)
  | shareLink (session : option AuthRequest.user) (fileId : string)
      (expiresAt : option JsValue)
  | accessLink (session : option AuthRequest.user) (token : string)
  | listShares (session : option AuthRequest.user) (fileId : string)
  | revokeShare (session : option AuthRequest.user) (shareId : string).

(** The identity provider owns the [user] table; the routes only read it. *)
Definition identity_signUp (account : user.row) : M Response :=
  write (insert_user_db account) ;;
  reply 200 (Message "signed up").

(** [router.post("/upload", authMiddleware, upload.single("file"), ...)]
    and the other registrations. *)
Definition route (req : Request) : M Response :=
  match req with
  | signUp a => identity_signUp a
  | upload s f =>
      authMiddleware s
        (fun req_user => upload_single f ;; files_router.POST_upload req_user f)
  | uploadBulk s fs =>
      authMiddleware s
        (fun req_user =>
           upload_array fs ;; files_router.POST_upload_bulk req_user fs)
  | getFile s id =>
      authMiddleware s (fun req_user => files_router.GET_id req_user id)
  | download s id =>
      authMiddleware s
        (fun req_user => files_router.GET_id_download req_user id)
  | deleteFile s id =>
      authMiddleware s (fun req_user => files_router.DELETE_id req_user id)
  | shareWithUser s fid b =>
      authMiddleware s
        (fun req_user => share_router.POST_fileId_user req_user fid b)
  | shareLink s fid e =>
      authMiddleware s
        (fun req_user => share_router.POST_fileId_link req_user fid e)
  | accessLink s t =>
      authMiddleware s
        (fun req_user => share_router.GET_link_token req_user t)
  | listShares s fid =>
      authMiddleware s
        (fun req_user => share_router.GET_fileId_shares req_user fid)
  | revokeShare s sid =>
      authMiddleware s
        (fun req_user => share_router.DELETE_shareId req_user sid)
  end.

(** What one request brings with it. *)
Record Env := mkEnv {
  env_now : Z;
  env_entropy : list string;
  env_faults : list bool;
  env_cloudinaryReplies : list UploadApiResponse }.

Definition arrive (env : Env) (w : World) : World :=
  mkWorld (db w) (blobs w) (tmpFiles w) (console w)
    (env_now env) (env_entropy env) (env_faults env)
    (env_cloudinaryReplies env).

Definition serve (env : Env) (req : Request) (w : World)
  : Response * World :=
  run (route req) (arrive env w).

Definition boot : World :=
  mkWorld empty_db [] [] [] 0%Z [] [] [].

Inductive reachable : World -> Prop :=
  | reachable_boot : reachable boot
  | reachable_serve env req w :
      reachable w -> reachable (snd (serve env req w)).

(** ** The specification's view of the routes *)

Inductive AccessDecision :=
  | Allowed (role : roleEnum)
  | Denied
  | NotFound.

Definition decision_of (r : Response) : option AccessDecision :=
  match status r, body r with
  | 200, FileInfo _ _ (Some role) => Some (Allowed role)
  | 200, SharedFile _ _ role => Some (Allowed role)
  | 403, Error _ => Some Denied
  | 404, Error _ => Some NotFound
  | _, _ => None
  end.

(** [resolveByUser]: what [GET /api/files/:id] decides for the session's
    user when the request arrives with [env]. *)
Definition resolveByUser (env : Env) (w : World) (u : AuthRequest.user)
  (fileId : string) : option AccessDecision :=
  decision_of (fst (serve env (getFile (Some u) fileId) w)).

(** [resolveByToken]: what [GET /api/share/link/:token] decides. *)
Definition resolveByToken (env : Env) (w : World) (u : AuthRequest.user)
  (token : string) : option AccessDecision :=
  decision_of (fst (serve env (accessLink (Some u) token) w)).

Definition DuplicateGrant : Response :=
  res 400 (Error "File already shared with this user").

Definition InvalidExpiry (r : Response) : Prop :=
  r = res 400 (Error "Expiration date must be in the future")
  \/ r = res 400 (Error "Invalid expiration date").

(** [new Date(x) > new Date()]; a comparison with an invalid date is
    false. *)
Definition strictlyFuture (today : Z) (d : JsDate) : Prop :=
  match d with
  | InvalidDate => False
  | DateAt ms => (today < ms)%Z
  end.

(** A grant that access checks take into account at time [t]. *)
Definition active (t : Z) (g : share.row) : Prop :=
  match share.expiresAt g with
  | None => True
  | Some e => (t < e)%Z
  end.

(** ** Invariants of the store *)

Definition opt_list {A} (o : option A) : list A :=
  match o with
  | Some a => [a]
  | None => []
  end.

Definition tokens (l : list share.row) : list string :=
  flat_map (fun s => opt_list (share.token s)) l.

(** The (file, user) pairs that hold a direct grant. *)
Definition direct_keys (l : list share.row) : list (string * string) :=
  flat_map
    (fun s => opt_list
                (option_map (pair (share.fileId s))
                   (share.sharedWithUserId s))) l.

(** What PostgreSQL itself enforces: primary keys, the unique token and
    the foreign keys to [file]. *)
Record schema_ok (d : DB) : Prop := mk_schema_ok {
  file_pkey : NoDup (map file.id (files d));
  share_pkey : NoDup (map share.id (shares d));
  share_token_unique : NoDup (tokens (shares d));
  share_file_fk :
    forall s, In s (shares d) -> has_file d (share.fileId s) = true;
  activity_log_file_fk :
    forall l, In l (activityLogs d) ->
              has_file d (activityLog.fileId l) = true }.

(** The shape of the rows the two [POST] routes write. *)
Definition grant_shape (d : DB) (s : share.row) : Prop :=
  match share.shareType s with
  | ST_user =>
      share.token s = None
      /\ (share.role s = R_viewer \/ share.role s = R_editor)
      /\ exists u, share.sharedWithUserId s = Some u
           /\ forall f, In f (files d) -> file.id f = share.fileId s ->
                        file.ownerId f <> u
  | ST_link =>
      share.sharedWithUserId s = None
      /\ share.role s = R_viewer
      /\ exists t, share.token s = Some t
  end.

Record grants_ok (d : DB) : Prop := mk_grants_ok {
  grants_shape : forall s, In s (shares d) -> grant_shape d s;
  direct_unique : NoDup (direct_keys (shares d)) }.

Definition Inv (d : DB) : Prop := schema_ok d /\ grants_ok d.

(** ** Definitions used by the statements *)

(** A handler keeps the invariants of the store, whatever it answers. *)
Definition keeps_Inv (h : M Response) : Prop :=
  forall w, Inv (db w) -> Inv (db (snd (run h w))).

(** What [GET /:id] answers to the user [uid] at time [t] when every
    lookup succeeds. *)
Definition GET_id_answer (d : DB) (t : Z) (uid id : string) : Response :=
  match find (fun f => file.id f =? id) (files d) with
  | None => res 404 (Error "File not found")
  | Some f =>
      let isOwner := file.ownerId f =? uid in
      let hasShare := find (files_router.hasShare_where (file.id f) uid t)
                        (shares d) in
      match isOwner, hasShare with
      | false, None => res 403 (Error "Access denied")
      | _, _ =>
          res 200
            (FileInfo (file.id f) isOwner
               (if isOwner then Some R_owner
                else option_map share.role hasShare))
      end
  end.

(** [const { role = "viewer" } = req.body] *)
Definition requested_role (body : share_router.UserShareBody) : string :=
  match share_router.role body with
  | Some r => r
  | None => "viewer"
  end.

(** A request to [POST /:fileId/user] by [o] that is neither malformed nor
    refused as NotFound, NotOwner or SelfGrant; [em] is the e-mail address
    and [target] the account it belongs to. *)
Definition passes_owner_checks (w : World) (o : AuthRequest.user)
  (fid : string) (body : share_router.UserShareBody) (em : string)
  (target : user.row) : Prop :=
  fid <> ""
  /\ share_router.userEmail body = Some em
  /\ em <> ""
  /\ truthy (requested_role body)
     && negb (share_router.includes share_router.allowedRoles
                (requested_role body)) = false
  /\ (exists f, find (fun f => file.id f =? fid) (files (db w)) = Some f
                /\ file.ownerId f = AuthRequest.id o)
  /\ find (fun x => user.email x =? em) (users (db w)) = Some target
  /\ user.id target <> AuthRequest.id o.

(** The rows the duplicate check of [POST /:fileId/user] looks at. *)
Definition existingShare_where (fid uid : string) (s : share.row) : bool :=
  (share.fileId s =? fid)
  && eq_nullable (share.sharedWithUserId s) uid
  && shareType_eqb (share.shareType s) ST_user.

(** What [POST /:fileId/user] still does once the duplicate check has
    found nothing. *)
Definition direct_grant_tail (u : AuthRequest.user)
  (fileId userEmail role : string) (sharedUser : user.row)
  (expiresAt : option JsValue) : M Response :=
  expiresAtDate <- share_router.validateExpiresAt expiresAt ;;
  id <- nanoid ;;
  match share_router.roleEnum_of_string
          (if truthy role then role else "viewer") with
  | None => throw (InvalidEnumValue role)
  | Some roleValue =>
    t <- Date_now ;;
    newShare <- insert_share
      (share.mk id fileId ST_user (Some (user.id sharedUser)) None
         roleValue expiresAtDate t (AuthRequest.id u)) ;;
    share_router.logActivity fileId (AuthRequest.id u) A_share
      (Some ("Shared with " ++ userEmail)) ;;
    reply 201
      (ShareCreated (share.id newShare) (user.id sharedUser)
         (share.role newShare) (share.expiresAt newShare))
  end.

(** What [POST /:fileId/link] still does once the owner check has
    passed. *)
Definition link_grant_tail (u : AuthRequest.user) (fileId : string)
  (expiresAt : option JsValue) : M Response :=
  token <- nanoid ;;
  expiresAtDate <- share_router.validateExpiresAt expiresAt ;;
  id <- nanoid ;;
  t <- Date_now ;;
  newShare <- insert_share
    (share.mk id fileId ST_link None (Some token) R_viewer
       expiresAtDate t (AuthRequest.id u)) ;;
  share_router.logActivity fileId (AuthRequest.id u) A_share
    (Some "Generated share link") ;;
  reply 201
    (LinkCreated (share.id newShare) (share.token newShare)
       (share.expiresAt newShare)).

(** [catch (error) { console.error(label, error); res.status(500)... }] *)
Definition catch_500 (label : string) (error : Err) : M Response :=
  console_error label ;;
  reply 500 (Error (message error)).

(** The fault schedule in which the first [reads_and_writes] storage
    calls of a request succeed and the next one fails. *)
Definition audit_fault (reads_and_writes : nat) : list bool :=
  repeat false reads_and_writes ++ [true].

(** Every table of [d'] is the table of [d] with rows added at the end. *)
Definition extends (d d' : DB) : Prop :=
  (exists us, users d' = (users d ++ us)%list)
  /\ (exists fs, files d' = (files d ++ fs)%list)
  /\ (exists ss, shares d' = (shares d ++ ss)%list)
  /\ (exists ls, activityLogs d' = (activityLogs d ++ ls)%list).

(** A computation whose effect on the store is within [R]. *)
Definition frames {A} (R : DB -> DB -> Prop) (m : M A) : Prop :=
  forall w, R (db w) (db (snd (m w))).

(** Requests whose route contains a [db.delete]. *)
Definition deletes_rows (req : Request) : bool :=
  match req with
  | deleteFile _ _ | revokeShare _ _ => true
  | _ => false
  end.

(** The session a request carries. *)
Definition session_of (req : Request) : option AuthRequest.user :=
  match req with
  | signUp _ => None
  | upload s _ | uploadBulk s _ | getFile s _ | download s _
  | deleteFile s _ | shareWithUser s _ _ | shareLink s _ _
  | accessLink s _ | listShares s _ | revokeShare s _ => s
  end.

(** [d'] is [d] with files owned by [u] and audit entries of [u] added at
    the end; users and grants are the same. *)
Definition appends_for (u : string) (d d' : DB) : Prop :=
  users d' = users d
  /\ shares d' = shares d
  /\ (exists fs, files d' = (files d ++ fs)%list
                 /\ Forall (fun f => file.ownerId f = u) fs)
  /\ (exists ls, activityLogs d' = (activityLogs d ++ ls)%list
                 /\ Forall (fun l => activityLog.userId l = u) ls).

(** Requests that neither create nor remove a grant or remove a file. *)
Definition grants_untouched (req : Request) : bool :=
  match req with
  | upload _ _ | uploadBulk _ _ | getFile _ _ | download _ _
  | accessLink _ _ | listShares _ _ => true
  | _ => false
  end.

(** [u] owns the file [fid]. *)
Definition owned (d : DB) (u fid : string) : Prop :=
  exists f, In f (files d) /\ file.id f = fid /\ file.ownerId f = u.

(** [d'] differs from [d] only in rows about the file [fid]; what is new
    names [u]. *)
Definition edits_file (u fid : string) (d d' : DB) : Prop :=
  users d' = users d
  /\ (forall f, In f (files d') ->
        In f (files d) \/ (file.id f = fid /\ file.ownerId f = u))
  /\ (forall f, In f (files d) -> In f (files d') \/ file.id f = fid)
  /\ (forall s, In s (shares d') ->
        In s (shares d) \/ (share.fileId s = fid /\ share.createdBy s = u))
  /\ (forall s, In s (shares d) -> In s (shares d') \/ share.fileId s = fid)
  /\ (forall l, In l (activityLogs d') ->
        In l (activityLogs d)
        \/ (activityLog.fileId l = fid /\ activityLog.userId l = u))
  /\ (forall l, In l (activityLogs d) ->
        In l (activityLogs d') \/ activityLog.fileId l = fid).

(** What a request of [u] may do to the store: add files and audit
    entries of [u], or edit the rows of one file [u] owns. *)
Definition touches (u : string) (d d' : DB) : Prop :=
  appends_for u d d'
  \/ exists fid, owned d u fid /\ edits_file u fid d d'.

(** The audit entry a download by [u] writes when the request arrives
    with [env]. *)
Definition download_entry (env : Env) (u : AuthRequest.user) (fid : string)
  : activityLog.row :=
  activityLog.mk (hd "" (env_entropy env)) fid (AuthRequest.id u)
    A_download None (env_now env).

(** Newest first. *)
Definition newest_first (l : list activityLog.row) : Prop :=
  StronglySorted
    (fun a b => (activityLog.createdAt b <= activityLog.createdAt a)%Z) l.

(** The uploads multer lets through: [fileFilter] and [limits.fileSize]. *)
Definition multer_accepts (f : multer.File) : bool :=
  existsb (String.eqb (multer.mimetype f)) allowedTypes
  && negb (limits_fileSize <? multer.size f)%Z.

(** A run that was answered 401 and left the store, the blobs and the
    upload directory of [w] alone. *)
Definition refused_401 {A} (out : Outcome A * World) (w : World) : Prop :=
  fst out = Sent (res 401 (Error "Unauthorized"))
  /\ db (snd out) = db w
  /\ blobs (snd out) = blobs w
  /\ tmpFiles (snd out) = tmpFiles w.

(** ** Scenario used to exercise the statements *)

Definition alice : AuthRequest.user := AuthRequest.mk "u1" "a@x.org" "Alice".
Definition bob : AuthRequest.user := AuthRequest.mk "u2" "b@x.org" "Bob".

Definition at_ (t : Z) (ids : list string) : Env :=
  mkEnv t ids [] [mkCloud "blob1" "https://cdn/blob1" "image"].

Definition w_users : World :=
  snd (serve (at_ 2 []) (signUp (user.mk "u2" "Bob" "b@x.org"))
         (snd (serve (at_ 1 []) (signUp (user.mk "u1" "Alice" "a@x.org"))
                 boot))).

Definition w_uploaded : World :=
  snd (serve (at_ 3 ["f1"; "a1"])
         (upload (Some alice)
            (Some (multer.mk "/tmp/up1" "report.png" 10 "image/png")))
         w_users).

(** Alice shares [f1] with Bob as viewer until time 10. *)
Definition w_shared : World :=
  snd (serve (at_ 4 ["s1"; "a2"])
         (shareWithUser (Some alice) "f1"
            (share_router.mkUserShareBody (Some "b@x.org") None
               (Some (json_date 10))))
         w_uploaded).

(** Alice creates a link for [f1] that expires at time 20. *)
Definition w_linked : World :=
  snd (serve (at_ 5 ["tok1"; "s2"; "a3"])
         (shareLink (Some alice) "f1" (Some (json_date 20)))
         w_shared).

Definition grant_s1 : share.row :=
  share.mk "s1" "f1" ST_user (Some "u2") None R_viewer (Some 10%Z) 4
    "u1".

Definition grant_s2 : share.row :=
  share.mk "s2" "f1" ST_link None (Some "tok1") R_viewer (Some 20%Z) 5
    "u1".

(** A store PostgreSQL accepts but no sequence of requests builds: two
    direct grants for the same (file, user), as two [POST /:fileId/user]
    requests leave them when both pass the duplicate check before either
    inserts. *)
Definition grant_first : share.row :=
  share.mk "s1" "f1" ST_user (Some "u2") None R_viewer None 4 "u1".

Definition grant_dup : share.row :=
  share.mk "s9" "f1" ST_user (Some "u2") None R_editor None 6 "u1".

Definition w_duplicates : World :=
  set_db w_uploaded
    (mkDB (users (db w_uploaded)) (files (db w_uploaded))
       [grant_first; grant_dup]
       (activityLogs (db w_uploaded))).

Definition body_for_bob (role : option string) (expiresAt : option JsValue)
  : share_router.UserShareBody :=
  share_router.mkUserShareBody (Some "b@x.org") role expiresAt.

Definition w_revoked : World :=
  snd (serve (at_ 12 ["a4"]) (revokeShare (Some alice) "s1") w_shared).

(** ** Lists and keys *)

Section ListFacts.
Context {A B : Type}.

Lemma NoDup_snoc (l : list A) (x : A) :
  NoDup l -> ~ In x l -> NoDup (l ++ [x]).
Proof.
  intros Hl Hx. apply NoDup_app.
  - exact Hl.
  - constructor; [intros [] | constructor].
  - intros a Ha [<- | []]. contradiction.
Qed.

Lemma in_flat_map_filter (g : A -> list B) (p : A -> bool) l y :
  In y (flat_map g (filter p l)) -> In y (flat_map g l).
Proof.
  rewrite !in_flat_map. intros (x & Hx & Hy).
  apply filter_In in Hx. exists x. tauto.
Qed.

Lemma NoDup_flat_map_filter (g : A -> list B) (p : A -> bool) l :
  NoDup (flat_map g l) -> NoDup (flat_map g (filter p l)).
Proof.
  induction l as [|a l IH]; simpl; intros H; [constructor|].
  pose proof (NoDup_app_remove_l _ _ H) as Hl.
  destruct (p a); simpl; [|auto].
  apply NoDup_app.
  - eapply NoDup_app_remove_r, H.
  - auto.
  - intros y Hy Hy'. apply in_flat_map_filter in Hy'.
    revert y Hy Hy'. clear - H.
    induction (g a) as [|b gb IHg]; simpl in *; [tauto|].
    inversion H as [|? ? Hb Hrest]; subst.
    intros y [<- | Hy] Hy'.
    + apply Hb, in_or_app. now right.
    + eapply IHg; eauto.
Qed.

Lemma NoDup_map_filter (key : A -> B) (p : A -> bool) l :
  NoDup (map key l) -> NoDup (map key (filter p l)).
Proof.
  induction l as [|a l IH]; simpl; intros H; [constructor|].
  inversion H as [|? ? Ha Hl]; subst.
  destruct (p a); simpl; [|auto].
  constructor; [|auto].
  rewrite in_map_iff in *. intros (x & Hx & Hin).
  apply filter_In in Hin. apply Ha. exists x. tauto.
Qed.

Lemma NoDup_map_key_inj (key : A -> B) l a b :
  NoDup (map key l) -> In a l -> In b l -> key a = key b -> a = b.
Proof.
  induction l as [|x l IH]; simpl; [tauto|].
  intros H Ha Hb E. inversion H as [|? ? Hx Hl]; subst.
  destruct Ha as [-> | Ha], Hb as [-> | Hb]; auto.
  - exfalso. apply Hx. rewrite E. now apply in_map.
  - exfalso. apply Hx. rewrite <- E. now apply in_map.
Qed.

Lemma find_app_none (p : A -> bool) l l' :
  find p l = None -> find p (l ++ l') = find p l'.
Proof.
  induction l as [|x l IH]; simpl; [reflexivity|].
  destruct (p x); [discriminate | exact IH].
Qed.

Lemma find_app_some (p : A -> bool) l l' x :
  find p l = Some x -> find p (l ++ l') = Some x.
Proof.
  induction l as [|y l IH]; simpl; [discriminate|].
  destruct (p y); [auto | exact IH].
Qed.

Lemma find_filter_none (p q : A -> bool) l :
  (forall x, In x l -> p x = true -> q x = false) ->
  find p (filter q l) = None.
Proof.
  intros H. destruct (find p (filter q l)) as [x|] eqn:E; [|reflexivity].
  apply find_some in E. destruct E as [Hin Hp].
  apply filter_In in Hin. destruct Hin as [Hin Hq].
  rewrite (H x Hin Hp) in Hq. discriminate.
Qed.

Lemma existsb_false (p : A -> bool) l :
  existsb p l = false -> forall x, In x l -> p x = false.
Proof.
  intros H x Hin. destruct (p x) eqn:E; [|reflexivity].
  rewrite <- H. symmetry. apply existsb_exists. eauto.
Qed.

End ListFacts.

Lemma has_file_spec d fid :
  has_file d fid = true <-> exists f, In f (files d) /\ file.id f = fid.
Proof.
  unfold has_file. rewrite existsb_exists.
  split; intros (f & Hf & E); exists f; split; auto;
    now apply String.eqb_eq.
Qed.

Lemma has_file_false d fid :
  has_file d fid = false -> ~ In fid (map file.id (files d)).
Proof.
  intros H Hin. apply in_map_iff in Hin. destruct Hin as (f & E & Hf).
  assert (has_file d fid = true) by (apply has_file_spec; eauto).
  congruence.
Qed.

Lemma find_file_by_id d fid f :
  find (fun f => file.id f =? fid) (files d) = Some f ->
  In f (files d) /\ file.id f = fid.
Proof.
  intros H. apply find_some in H. now rewrite String.eqb_eq in H.
Qed.

Lemma find_file_In d f :
  NoDup (map file.id (files d)) -> In f (files d) ->
  find (fun x => file.id x =? file.id f) (files d) = Some f.
Proof.
  intros Hnd Hin.
  destruct (find _ (files d)) as [g|] eqn:E.
  - apply find_file_by_id in E. destruct E as [Hg E].
    f_equal. eapply NoDup_map_key_inj; eauto.
  - eapply find_none in E; eauto. now rewrite String.eqb_refl in E.
Qed.

Lemma eq_nullable_spec col v :
  eq_nullable col v = true <-> col = Some v.
Proof.
  destruct col as [x|]; simpl.
  - rewrite String.eqb_eq. split; congruence.
  - split; discriminate.
Qed.

Lemma in_tokens l t :
  In t (tokens l) <-> exists s, In s l /\ share.token s = Some t.
Proof.
  unfold tokens. rewrite in_flat_map.
  split; intros (s & Hs & H); exists s; split; auto.
  - destruct (share.token s); simpl in H; [|tauto].
    destruct H as [-> | []]. reflexivity.
  - rewrite H. now left.
Qed.

Lemma in_direct_keys l fid u :
  In (fid, u) (direct_keys l) <->
  exists s, In s l /\ share.fileId s = fid
            /\ share.sharedWithUserId s = Some u.
Proof.
  unfold direct_keys. rewrite in_flat_map.
  split; intros (s & Hs & H); exists s; split; auto.
  - destruct (share.sharedWithUserId s); simpl in H; [|tauto].
    destruct H as [H | []]. inversion H. auto.
  - destruct H as [<- ->]. now left.
Qed.

(** ** Every statement keeps the invariants *)

Lemma grant_shape_files d d' s :
  (forall f', In f' (files d') ->
     exists f, In f (files d) /\ file.id f = file.id f'
               /\ file.ownerId f = file.ownerId f') ->
  grant_shape d s -> grant_shape d' s.
Proof.
  intros Hsub. unfold grant_shape.
  destruct (share.shareType s); [|auto].
  intros (Ht & Hr & u & Hu & Hown). repeat split; auto.
  exists u. split; [exact Hu|].
  intros f' Hf' E. destruct (Hsub f' Hf') as (f & Hf & Eid & Eown).
  rewrite <- Eown. apply Hown; congruence.
Qed.

Lemma Inv_insert_user r d d' :
  insert_user_db r d = inr d' -> Inv d -> Inv d'.
Proof.
  unfold insert_user_db.
  destruct (has_user d (user.id r)); [discriminate|].
  destruct (existsb _ (users d)); [discriminate|].
  intros H; inversion H; subst; clear H.
  intros [[] []]. repeat split; simpl; auto.
Qed.

Lemma Inv_insert_file r d d' :
  insert_file_db r d = inr d' -> Inv d -> Inv d'.
Proof.
  unfold insert_file_db.
  destruct (has_file d (file.id r)) eqn:Hfresh; [discriminate|].
  destruct (negb (has_user d (file.ownerId r))); [discriminate|].
  intros H; inversion H; subst; clear H.
  intros [[Hf Hs Ht Hfk Hlk] [Hsh Hdu]].
  assert (Hmono : forall x, has_file d x = true ->
            has_file (mkDB (users d) (files d ++ [r]) (shares d)
                        (activityLogs d)) x = true).
  { intros x Hx. apply has_file_spec in Hx. destruct Hx as (f & Hin & E).
    apply has_file_spec. exists f. simpl. split; [|exact E].
    apply in_or_app. now left. }
  repeat split; simpl; auto.
  - rewrite map_app. apply NoDup_snoc; [exact Hf|].
    now apply has_file_false.
  - intros s Hin. specialize (Hsh s Hin). unfold grant_shape in *.
    destruct (share.shareType s); [|exact Hsh].
    destruct Hsh as (Htok & Hr & u & Hu & Hown). repeat split; auto.
    exists u. split; [exact Hu|]. simpl. intros f Hf' E.
    apply in_app_or in Hf'. destruct Hf' as [Hf' | [<- | []]].
    + now apply Hown.
    + specialize (Hfk s Hin). congruence.
Qed.

Lemma Inv_insert_share r d d' :
  insert_share_db r d = inr d' -> Inv d ->
  grant_shape d r ->
  (forall u, share.sharedWithUserId r = Some u ->
             ~ In (share.fileId r, u) (direct_keys (shares d))) ->
  Inv d'.
Proof.
  unfold insert_share_db.
  destruct (existsb _ (shares d)) eqn:Hpk; [discriminate|].
  match goal with |- context [if ?c then _ else _] =>
    destruct c eqn:Htok; [discriminate|] end.
  destruct (negb (has_file d (share.fileId r))) eqn:Hfk'; [discriminate|].
  match goal with |- context [if ?c then _ else _] =>
    destruct c; [discriminate|] end.
  destruct (negb (has_user d (share.createdBy r))); [discriminate|].
  intros H; inversion H; subst; clear H.
  intros [[Hf Hs Ht Hfk Hlk] [Hsh Hdu]] Hshape Hkey.
  apply negb_false_iff in Hfk'.
  repeat split; simpl; auto.
  - rewrite map_app. apply NoDup_snoc; [exact Hs|].
    intros Hin. apply in_map_iff in Hin. destruct Hin as (s & E & Hin).
    apply (existsb_false _ _ Hpk) in Hin.
    rewrite E, String.eqb_refl in Hin. discriminate.
  - unfold tokens. rewrite flat_map_app. simpl. rewrite app_nil_r.
    destruct (share.token r) as [t|] eqn:Et; simpl.
    + apply NoDup_snoc; [exact Ht|].
      intros Hin. apply in_tokens in Hin. destruct Hin as (s & Hin & E).
      apply (existsb_false _ _ Htok) in Hin.
      rewrite E in Hin. simpl in Hin. rewrite String.eqb_refl in Hin.
      discriminate.
    + now rewrite app_nil_r.
  - intros s Hin. apply in_app_or in Hin.
    destruct Hin as [Hin | [<- | []]]; [exact (Hfk _ Hin) | exact Hfk'].
  - intros s Hin. apply in_app_or in Hin.
    destruct Hin as [Hin | [<- | []]]; [|exact Hshape].
    exact (Hsh _ Hin).
  - unfold direct_keys. rewrite flat_map_app. simpl. rewrite app_nil_r.
    destruct (share.sharedWithUserId r) as [u|] eqn:Eu; simpl.
    + apply NoDup_snoc; [exact Hdu|]. now apply Hkey.
    + now rewrite app_nil_r.
Qed.

Lemma Inv_insert_activityLog r d d' :
  insert_activityLog_db r d = inr d' -> Inv d -> Inv d'.
Proof.
  unfold insert_activityLog_db.
  destruct (existsb _ (activityLogs d)); [discriminate|].
  destruct (negb (has_file d (activityLog.fileId r))) eqn:Hfk';
    [discriminate|].
  destruct (negb (has_user d (activityLog.userId r))); [discriminate|].
  intros H; inversion H; subst; clear H.
  intros [[Hf Hs Ht Hfk Hlk] [Hsh Hdu]].
  apply negb_false_iff in Hfk'.
  repeat split; simpl; auto.
  intros l Hin. apply in_app_or in Hin.
  destruct Hin as [Hin | [<- | []]]; [exact (Hlk _ Hin) | exact Hfk'].
Qed.

Lemma Inv_delete_share p d : Inv d -> Inv (delete_share_db p d).
Proof.
  intros [[Hf Hs Ht Hfk Hlk] [Hsh Hdu]].
  repeat split; simpl; auto.
  - now apply NoDup_map_filter.
  - now apply NoDup_flat_map_filter.
  - intros s Hin. apply filter_In in Hin. now apply Hfk.
  - intros s Hin. apply filter_In in Hin. now apply Hsh.
  - now apply NoDup_flat_map_filter.
Qed.

Lemma Inv_delete_file p d : Inv d -> Inv (delete_file_db p d).
Proof.
  intros [[Hf Hs Ht Hfk Hlk] [Hsh Hdu]].
  assert (Hkeep : forall fid,
            has_file d fid = true ->
            existsb (fun f => file.id f =? fid) (filter p (files d))
              = false ->
            has_file (delete_file_db p d) fid = true).
  { intros fid Hhas Hdead. apply has_file_spec in Hhas.
    destruct Hhas as (f & Hin & E). apply has_file_spec.
    exists f. split; [|exact E]. simpl. apply filter_In. split; [exact Hin|].
    destruct (p f) eqn:Hp; [|reflexivity].
    assert (In f (filter p (files d))) as Hg by (apply filter_In; auto).
    apply (existsb_false _ _ Hdead) in Hg.
    rewrite E, String.eqb_refl in Hg. discriminate. }
  repeat split; simpl; auto.
  - now apply NoDup_map_filter.
  - now apply NoDup_map_filter.
  - now apply NoDup_flat_map_filter.
  - intros s Hin. apply filter_In in Hin. destruct Hin as [Hin Hd].
    apply negb_true_iff in Hd. now apply Hkeep; [apply Hfk|].
  - intros l Hin. apply filter_In in Hin. destruct Hin as [Hin Hd].
    apply negb_true_iff in Hd. now apply Hkeep; [apply Hlk|].
  - intros s Hin. apply filter_In in Hin. destruct Hin as [Hin _].
    apply grant_shape_files with (d := d); [|now apply Hsh].
    simpl. intros f' Hf'. apply filter_In in Hf'. exists f'. tauto.
  - now apply NoDup_flat_map_filter.
Qed.

Lemma Inv_update_resourceType rt t p d :
  Inv d -> Inv (update_resourceType_db rt t p d).
Proof.
  intros [[Hf Hs Ht Hfk Hlk] [Hsh Hdu]].
  assert (Hids : map file.id (files (update_resourceType_db rt t p d))
                 = map file.id (files d)).
  { simpl. rewrite map_map. apply map_ext. intros f. now destruct (p f). }
  assert (Hhas : forall fid,
            has_file (update_resourceType_db rt t p d) fid = has_file d fid).
  { intros fid. unfold has_file. simpl. clear.
    induction (files d) as [|f l IH]; simpl; [reflexivity|].
    rewrite IH. f_equal. now destruct (p f). }
  repeat split; auto.
  - now rewrite Hids.
  - intros s Hin. rewrite Hhas. now apply Hfk.
  - intros l Hin. rewrite Hhas. now apply Hlk.
  - intros s Hin. apply grant_shape_files with (d := d); [|now apply Hsh].
    simpl. intros f' Hf'. apply in_map_iff in Hf'.
    destruct Hf' as (f & <- & Hf'). exists f.
    now destruct (p f).
Qed.

(** ** Symbolic execution of a handler *)

Ltac unfold_monad :=
  cbv beta iota zeta delta
    [run tryCatch bind ret reply throw storage write when_
     file_findFirst user_findFirst share_findFirst share_findFirst_with_file
     share_findMany insert_file insert_share insert_activityLog delete_share
     delete_file update_resourceType nanoid Date_now console_error
     cloudinary_uploader_upload cloudinary_uploader_destroy
     cloudinary_api_resource fs_existsSync fs_unlinkSync
     files_router.logActivity share_router.logActivity
     share_router.validateExpiresAt share_router.property
     set_faults set_db set_console set_entropy set_blobs set_tmpFiles
     faults db console entropy now blobs tmpFiles cloudinaryReplies
     set_cloudinaryReplies
     serve arrive route authMiddleware auth_api_getSession upload_single
     multer_file fileFilter diskStorage
     env_now env_entropy env_faults env_cloudinaryReplies].

(** Case split on the innermost scrutinee the computation is stuck on. *)
Ltac exec_step :=
  match goal with
  | |- context [match ?x with _ => _ end] =>
      lazymatch x with
      | context [match _ with _ => _ end] => fail
      | _ => destruct x eqn:?
      end
  end.

Ltac exec :=
  unfold_monad; cbn [fst snd hd tl negb];
  repeat (exec_step; cbv beta iota zeta; cbn [fst snd hd tl negb]).

Ltac inv_solve :=
  repeat match goal with
    | |- Inv _ => assumption
    | H : insert_activityLog_db _ _ = inr ?d |- Inv ?d =>
        apply (Inv_insert_activityLog _ _ _ H)
    | H : insert_file_db _ _ = inr ?d |- Inv ?d =>
        apply (Inv_insert_file _ _ _ H)
    | H : insert_user_db _ _ = inr ?d |- Inv ?d =>
        apply (Inv_insert_user _ _ _ H)
    | |- Inv (delete_share_db _ _) => apply Inv_delete_share
    | |- Inv (delete_file_db _ _) => apply Inv_delete_file
    | |- Inv (update_resourceType_db _ _ _ _) =>
        apply Inv_update_resourceType
    end.

(** Run the handler in [Hr : r = ...] and leave the goal about [r]
    untouched until the run is known. *)
Ltac exec_result r Hr :=
  pattern r;
  match goal with
  | |- ?P r =>
      let Q := fresh "Q" in
      set (Q := P); revert Hr; exec; intros ->; subst Q; cbv beta
  end.

(** ** Every route keeps the invariants *)

Lemma roleEnum_of_string_allowed s r :
  share_router.roleEnum_of_string s = Some r ->
  share_router.includes share_router.allowedRoles s = true ->
  r = R_viewer \/ r = R_editor.
Proof.
  unfold share_router.roleEnum_of_string, share_router.includes,
    share_router.allowedRoles. simpl.
  destruct (s =? "owner") eqn:Eo.
  - apply String.eqb_eq in Eo. subst s. discriminate.
  - destruct (s =? "viewer"); [intros H; inversion H; auto|].
    destruct (s =? "editor"); [intros H; inversion H; auto|].
    discriminate.
Qed.

(** The role [POST /:fileId/user] writes, [role || "viewer"] after the
    validation. *)
Lemma persisted_role_allowed role r :
  truthy role && negb (share_router.includes share_router.allowedRoles role)
    = false ->
  share_router.roleEnum_of_string (if truthy role then role else "viewer")
    = Some r ->
  r = R_viewer \/ r = R_editor.
Proof.
  destruct (truthy role); simpl.
  - rewrite negb_false_iff. intros Hin Hr.
    eapply roleEnum_of_string_allowed; eauto.
  - intros _ H. inversion H. auto.
Qed.

Lemma direct_grant_guard d fid uid target f id role e t creator :
  Inv d ->
  find (fun f => file.id f =? fid) (files d) = Some f ->
  file.ownerId f = uid -> target <> uid ->
  find (fun s => (share.fileId s =? fid)
                 && eq_nullable (share.sharedWithUserId s) target
                 && shareType_eqb (share.shareType s) ST_user) (shares d)
    = None ->
  role = R_viewer \/ role = R_editor ->
  let r := share.mk id fid ST_user (Some target) None role e t creator in
  grant_shape d r
  /\ forall u, share.sharedWithUserId r = Some u ->
               ~ In (share.fileId r, u) (direct_keys (shares d)).
Proof.
  intros [Hsch Hgr] Hfile Hown Hself Hnone Hrole. simpl. split.
  - unfold grant_shape. simpl. repeat split; auto.
    exists target. split; [reflexivity|].
    intros f' Hf' E. apply find_file_by_id in Hfile.
    destruct Hfile as [Hf Eid].
    assert (f' = f) as ->
      by (eapply NoDup_map_key_inj;
          [exact (file_pkey _ Hsch) | | | congruence]; auto).
    congruence.
  - intros u Hu. inversion Hu; subst u. clear Hu.
    rewrite in_direct_keys. intros (s & Hin & Efid & Eu).
    pose proof (find_none _ _ Hnone s Hin) as Hs. simpl in Hs.
    rewrite Efid, Eu, String.eqb_refl in Hs. simpl in Hs.
    rewrite String.eqb_refl in Hs. simpl in Hs.
    pose proof (grants_shape _ Hgr s Hin) as Hshape.
    unfold grant_shape in Hshape.
    destruct (share.shareType s); [discriminate|].
    destruct Hshape as [Hnull _]. congruence.
Qed.

Lemma link_grant_guard d id fid tok e t creator :
  let r := share.mk id fid ST_link None (Some tok) R_viewer e t creator in
  grant_shape d r
  /\ forall u, share.sharedWithUserId r = Some u ->
               ~ In (share.fileId r, u) (direct_keys (shares d)).
Proof.
  simpl. split.
  - unfold grant_shape. simpl. repeat split; eauto.
  - discriminate.
Qed.

Lemma identity_signUp_keeps a : keeps_Inv (identity_signUp a).
Proof.
  intros [d bl tm co t en fa cr]. simpl. intros HI.
  unfold identity_signUp. exec; inv_solve.
Qed.

Lemma POST_upload_keeps u f :
  keeps_Inv (upload_single f ;; files_router.POST_upload u f).
Proof.
  intros [d bl tm co t en fa cr]. simpl. intros HI.
  unfold files_router.POST_upload. exec; inv_solve.
Qed.

(** The same for a computation of any result type. *)
Lemma keeps_run (h : M Response) :
  (forall w, Inv (db w) -> Inv (db (snd (h w)))) -> keeps_Inv h.
Proof.
  intros H w HI. specialize (H w HI). unfold run.
  destruct (h w) as [[r | r | e] w']; exact H.
Qed.

Lemma keeps_bind {A B} (m : M A) (k : A -> M B) :
  (forall w, Inv (db w) -> Inv (db (snd (m w)))) ->
  (forall a w, Inv (db w) -> Inv (db (snd (k a w)))) ->
  forall w, Inv (db w) -> Inv (db (snd (bind m k w))).
Proof.
  intros Hm Hk w HI. specialize (Hm w HI). unfold bind.
  destruct (m w) as [[a | r | e] w']; simpl in *; auto.
Qed.

Lemma keeps_tryCatch {A} (m : M A) (h : Err -> M A) :
  (forall w, Inv (db w) -> Inv (db (snd (m w)))) ->
  (forall e w, Inv (db w) -> Inv (db (snd (h e w)))) ->
  forall w, Inv (db w) -> Inv (db (snd (tryCatch m h w))).
Proof.
  intros Hm Hh w HI. specialize (Hm w HI). unfold tryCatch.
  destruct (m w) as [[a | r | e] w']; simpl in *; auto.
Qed.

Section Keeps.
Context {A B : Type}.

Lemma keeps_forEach (f : A -> M unit) l :
  (forall a w, Inv (db w) -> Inv (db (snd (f a w)))) ->
  forall w, Inv (db w) -> Inv (db (snd (forEach f l w))).
Proof.
  intros Hf. induction l as [|a l IH]; simpl; [auto|].
  apply keeps_bind; auto.
Qed.

Lemma keeps_mapM (f : A -> M B) l :
  (forall a w, Inv (db w) -> Inv (db (snd (f a w)))) ->
  forall w, Inv (db w) -> Inv (db (snd (mapM f l w))).
Proof.
  intros Hf. induction l as [|a l IH]; simpl; [auto|].
  apply keeps_bind; [apply Hf|]. intros b.
  unfold bind. intros w HI. specialize (IH w HI).
  destruct (mapM f l w) as [[bs | r | e] w']; exact IH.
Qed.

End Keeps.

Lemma uploadPromise_keeps u f w :
  Inv (db w) -> Inv (db (snd (files_router.uploadPromise u f w))).
Proof.
  destruct w as [d bl tm co t en fa cr]. simpl. intros HI.
  unfold files_router.uploadPromise. exec; inv_solve.
Qed.

Lemma upload_single_keeps f w :
  Inv (db w) -> Inv (db (snd (upload_single f w))).
Proof.
  destruct w as [d bl tm co t en fa cr]. simpl. intros HI.
  exec; inv_solve.
Qed.

Lemma unlink_if_there_keeps (f : multer.File) w :
  Inv (db w) ->
  Inv (db (snd ((there <- fs_existsSync (multer.path f) ;;
                 when_ there (fs_unlinkSync (multer.path f))) w))).
Proof.
  destruct w as [d bl tm co t en fa cr]. simpl. intros HI.
  exec; inv_solve.
Qed.

(** multer only touches the upload directory. *)
Lemma bind_db {A B} (m : M A) (k : A -> M B) w :
  (forall w, db (snd (m w)) = db w) ->
  (forall a w, db (snd (k a w)) = db w) ->
  db (snd (bind m k w)) = db w.
Proof.
  intros Hm Hk. unfold bind. specialize (Hm w).
  destruct (m w) as [[a | r | e] w']; cbn [snd] in *; [|exact Hm|exact Hm].
  now rewrite Hk.
Qed.

Lemma forEach_db {A} (f : A -> M unit) l :
  (forall a w, db (snd (f a w)) = db w) ->
  forall w, db (snd (forEach f l w)) = db w.
Proof.
  intros Hf. induction l as [|a l IH]; intros w; cbn [forEach].
  - reflexivity.
  - apply bind_db; auto.
Qed.

Lemma multer_file_db f w : db (snd (multer_file f w)) = db w.
Proof. destruct w as [d bl tm co t en fa cr]. exec; reflexivity. Qed.

Lemma multer_files_db n l : forall w, db (snd (multer_files n l w)) = db w.
Proof.
  revert n. induction l as [|f l IH]; intros [|n] w; cbn [multer_files];
    try reflexivity.
  apply bind_db; [apply multer_file_db | auto].
Qed.

Lemma unlink_if_there_db (f : multer.File) w :
  db (snd ((there <- fs_existsSync (multer.path f) ;;
            when_ there (fs_unlinkSync (multer.path f))) w)) = db w.
Proof. destruct w as [d bl tm co t en fa cr]. exec; reflexivity. Qed.

Lemma upload_array_db fs w : db (snd (upload_array fs w)) = db w.
Proof.
  unfold upload_array. destruct fs as [files|]; [|reflexivity].
  unfold tryCatch. pose proof (multer_files_db 10 files w) as H.
  destruct (multer_files 10 files w) as [[a | r | e] w']; cbn [snd] in *;
    try exact H.
  rewrite <- H. apply bind_db; [|reflexivity].
  apply forEach_db. intros f. apply unlink_if_there_db.
Qed.

Lemma POST_upload_bulk_keeps u fs :
  keeps_Inv (upload_array fs ;; files_router.POST_upload_bulk u fs).
Proof.
  apply keeps_run. apply keeps_bind.
  - intros w HI. now rewrite upload_array_db.
  - intros _. unfold files_router.POST_upload_bulk. apply keeps_tryCatch.
    + destruct fs as [[|f files]|]; auto.
      destruct u as [u|]; [|auto].
      apply keeps_bind; [|auto].
      apply keeps_mapM. apply uploadPromise_keeps.
    + intros e. apply keeps_bind; [auto|]. intros _.
      apply keeps_bind; [|auto].
      destruct fs as [files|]; [|auto].
      apply keeps_forEach. apply unlink_if_there_keeps.
Qed.

Lemma authMiddleware_keeps session next :
  (forall u, keeps_Inv (next u)) -> keeps_Inv (authMiddleware session next).
Proof.
  intros Hnext [d bl tm co t en fa cr]. simpl. intros HI.
  unfold run, authMiddleware, auth_api_getSession, bind, tryCatch, storage,
    ret, reply, console_error.
  cbn [faults set_faults db blobs tmpFiles console now entropy
       cloudinaryReplies].
  destruct (hd false fa); [exact HI|].
  destruct session as [u|]; [|exact HI].
  exact (Hnext (Some u) (mkWorld d bl tm co t en (tl fa) cr) HI).
Qed.

Lemma GET_id_keeps u id : keeps_Inv (files_router.GET_id u id).
Proof.
  intros [d bl tm co t en fa cr]. simpl. intros HI.
  unfold files_router.GET_id. exec; inv_solve.
Qed.

Lemma GET_id_download_keeps u id :
  keeps_Inv (files_router.GET_id_download u id).
Proof.
  intros [d bl tm co t en fa cr]. simpl. intros HI.
  unfold files_router.GET_id_download. exec; inv_solve.
Qed.

Lemma DELETE_id_keeps u id : keeps_Inv (files_router.DELETE_id u id).
Proof.
  intros [d bl tm co t en fa cr]. simpl. intros HI.
  unfold files_router.DELETE_id. exec; inv_solve.
Qed.

Lemma GET_link_token_keeps u tok :
  keeps_Inv (share_router.GET_link_token u tok).
Proof.
  intros [d bl tm co t en fa cr]. simpl. intros HI.
  unfold share_router.GET_link_token. exec; inv_solve.
Qed.

Lemma GET_fileId_shares_keeps u fid :
  keeps_Inv (share_router.GET_fileId_shares u fid).
Proof.
  intros [d bl tm co t en fa cr]. simpl. intros HI.
  unfold share_router.GET_fileId_shares. exec; inv_solve.
Qed.

Lemma DELETE_shareId_keeps u sid :
  keeps_Inv (share_router.DELETE_shareId u sid).
Proof.
  intros [d bl tm co t en fa cr]. simpl. intros HI.
  unfold share_router.DELETE_shareId. exec; inv_solve.
Qed.

Lemma POST_fileId_link_keeps u fid e :
  keeps_Inv (share_router.POST_fileId_link u fid e).
Proof.
  intros [d bl tm co t en fa cr]. simpl. intros HI.
  unfold share_router.POST_fileId_link. exec; inv_solve.
  all: match goal with
       | H : insert_share_db _ _ = inr ?d |- Inv ?d =>
           eapply Inv_insert_share;
           [exact H | assumption | apply link_grant_guard
           | apply link_grant_guard]
       end.
Qed.

Lemma POST_fileId_user_keeps u fid b :
  keeps_Inv (share_router.POST_fileId_user u fid b).
Proof.
  intros [d bl tm co t en fa cr]. simpl. intros HI.
  unfold share_router.POST_fileId_user.
  destruct u as [u|]; [|exact HI].
  set (role := match share_router.role b with
               | Some r => r
               | None => "viewer"
               end).
  destruct (truthy role
            && negb (share_router.includes share_router.allowedRoles role))
    eqn:Hvalid.
  { exec; inv_solve. }
  destruct (share_router.roleEnum_of_string
              (if truthy role then role else "viewer")) as [rv|] eqn:Hrole.
  2: { exec; inv_solve. }
  pose proof (persisted_role_allowed _ _ Hvalid Hrole) as Hallowed.
  clearbody role.
  exec; inv_solve.
  all: match goal with
       | H : insert_share_db _ _ = inr ?d |- Inv ?d =>
           eapply Inv_insert_share; [exact H | assumption | | ]
       end.
  all: match goal with
       | Hf : find _ (files _) = Some ?f,
         Ho : negb (file.ownerId ?f =? _) = false,
         Hs : (_ =? _) = false,
         Hn : find _ (shares _) = None |- _ =>
           apply negb_false_iff, String.eqb_eq in Ho;
           apply String.eqb_neq in Hs;
           eapply direct_grant_guard; eauto
       end.
Qed.

Lemma route_keeps req : keeps_Inv (route req).
Proof.
  destruct req; simpl; try apply authMiddleware_keeps; intros;
    auto using identity_signUp_keeps, POST_upload_keeps,
      POST_upload_bulk_keeps, GET_id_keeps,
      GET_id_download_keeps, DELETE_id_keeps, POST_fileId_user_keeps,
      POST_fileId_link_keeps, GET_link_token_keeps, GET_fileId_shares_keeps,
      DELETE_shareId_keeps.
Qed.

Lemma serve_keeps env req w : Inv (db w) -> Inv (db (snd (serve env req w))).
Proof.
  intros HI. unfold serve. apply route_keeps. exact HI.
Qed.

Lemma Inv_empty : Inv empty_db.
Proof.
  repeat split; simpl; try constructor; intros ? [].
Qed.

Lemma reachable_Inv w : reachable w -> Inv (db w).
Proof.
  induction 1 as [|env req w _ IH].
  - exact Inv_empty.
  - now apply serve_keeps.
Qed.

(** ** The access check when the storage layer answers *)

Lemma truthy_neq s : s <> "" -> truthy s = true.
Proof.
  intros H. unfold truthy. apply negb_true_iff. now apply String.eqb_neq.
Qed.

Lemma GET_id_reliable env w u id :
  env_faults env = [] -> id <> "" ->
  serve env (getFile (Some u) id) w
  = (GET_id_answer (db w) (env_now env) (AuthRequest.id u) id,
     arrive env w).
Proof.
  intros Hf Hid. apply truthy_neq in Hid.
  destruct env as [t en fa cr], w as [d bl tm co t' en' fa' cr'].
  simpl in Hf. subst fa.
  unfold serve, arrive, route, files_router.GET_id, GET_id_answer. simpl.
  rewrite Hid. cbn [negb]. exec; reflexivity.
Qed.

Lemma NoDup_opt_key_inj {A K} (key : A -> option K) l a b k :
  NoDup (flat_map (fun x => opt_list (key x)) l) ->
  In a l -> In b l -> key a = Some k -> key b = Some k -> a = b.
Proof.
  induction l as [|x l IH]; simpl; [tauto|].
  intros H Ha Hb Ea Eb.
  assert (Hin : forall y, In y l -> key y = Some k ->
                          In k (flat_map (fun x => opt_list (key x)) l)).
  { intros y Hy Ey. apply in_flat_map. exists y. rewrite Ey. simpl. auto. }
  destruct Ha as [-> | Ha], Hb as [-> | Hb]; auto.
  - rewrite Ea in H. simpl in H. inversion H; subst. exfalso; eauto.
  - rewrite Eb in H. simpl in H. inversion H; subst. exfalso; eauto.
  - apply IH; auto. eapply NoDup_app_remove_l; eauto.
Qed.

Lemma direct_grant_unique d a b u :
  Inv d -> In a (shares d) -> In b (shares d) ->
  share.fileId a = share.fileId b ->
  share.sharedWithUserId a = Some u -> share.sharedWithUserId b = Some u ->
  a = b.
Proof.
  intros [_ [_ Hdu]] Ha Hb Ef Ea Eb. unfold direct_keys in Hdu.
  apply (NoDup_opt_key_inj
           (fun s => option_map (pair (share.fileId s))
                       (share.sharedWithUserId s))
           (shares d) a b (share.fileId a, u)); auto.
  - now rewrite Ea.
  - now rewrite Eb, Ef.
Qed.

Lemma hasShare_where_spec fid uid t s :
  files_router.hasShare_where fid uid t s = true <->
  share.fileId s = fid /\ share.sharedWithUserId s = Some uid /\ active t s.
Proof.
  unfold files_router.hasShare_where, notExpired, active.
  rewrite !andb_true_iff, String.eqb_eq, eq_nullable_spec.
  destruct (share.expiresAt s); [rewrite Z.ltb_lt|]; intuition.
Qed.

Lemma find_filter_keep {A} (p q : A -> bool) l :
  (forall x, In x l -> p x = true -> q x = true) ->
  find p (filter q l) = find p l.
Proof.
  induction l as [|x l IH]; simpl; intros H; [reflexivity|].
  destruct (p x) eqn:Hp.
  - rewrite (H x (or_introl eq_refl) Hp). simpl. now rewrite Hp.
  - destruct (q x); simpl; rewrite ?Hp; apply IH; auto.
Qed.

Lemma find_hd_filter {A} (p : A -> bool) l x rest :
  filter p l = x :: rest -> find p l = Some x.
Proof.
  induction l as [|y l IH]; simpl; [discriminate|].
  destruct (p y); [intros H; inversion H; reflexivity | exact IH].
Qed.

Lemma GET_id_empty env w u :
  env_faults env = [] ->
  fst (serve env (getFile (Some u) "") w)
  = res 400 (Error "File ID is required").
Proof.
  destruct env as [t en fa cr]. simpl. intros ->. reflexivity.
Qed.

(** ** The scenario is reachable *)

Lemma w_shared_reachable : reachable w_shared.
Proof. repeat apply reachable_serve. apply reachable_boot. Qed.

Lemma w_linked_reachable : reachable w_linked.
Proof. apply reachable_serve, w_shared_reachable. Qed.

(** ** C2: the owner is always allowed *)

(** C2. For every file [f] and the user who owns it, [resolveByUser]
    answers Allowed(owner), whatever rows the share table holds. *)
Theorem owner_always_allowed env w f u :
  env_faults env = [] ->
  NoDup (map file.id (files (db w))) ->
  In f (files (db w)) ->
  AuthRequest.id u = file.ownerId f ->
  file.id f <> "" ->
  resolveByUser env w u (file.id f) = Some (Allowed R_owner).
Proof.
  intros Hrel Hpk Hin Hown Hid. unfold resolveByUser.
  rewrite GET_id_reliable by assumption. simpl.
  unfold GET_id_answer. rewrite (find_file_In _ _ Hpk Hin).
  rewrite Hown, String.eqb_refl. reflexivity.
Qed.

Lemma owner_always_allowed_witness :
  resolveByUser (at_ 12 []) w_shared alice "f1" = Some (Allowed R_owner).
Proof.
  apply (owner_always_allowed (at_ 12 []) w_shared
           (file.mk "f1" "report.png" "blob1" "https://cdn/blob1" 10
              "image/png" (Some "image") "u1" 3 3) alice).
  - reflexivity.
  - vm_compute. repeat constructor. intros [].
  - vm_compute. left. reflexivity.
  - reflexivity.
  - discriminate.
Defined.

(** ** C5: duplicate direct grants *)

(** C5, as the code has it.  When several active direct grants exist for
    (file, user), the access check takes the first one in storage order:
    a non-owner is Allowed with that grant's role, and nothing is written
    to the console. *)
Theorem duplicate_grants_first_wins env w u fid f g g' rest :
  env_faults env = [] ->
  fid <> "" ->
  find (fun x => file.id x =? fid) (files (db w)) = Some f ->
  file.ownerId f <> AuthRequest.id u ->
  filter (files_router.hasShare_where fid (AuthRequest.id u) (env_now env))
    (shares (db w)) = g :: g' :: rest ->
  resolveByUser env w u fid = Some (Allowed (share.role g))
  /\ console (snd (serve env (getFile (Some u) fid) w)) = console w.
Proof.
  intros Hrel Hid Hfile Hown Hdup. unfold resolveByUser.
  rewrite GET_id_reliable by assumption. simpl. split; [|reflexivity].
  unfold GET_id_answer. rewrite Hfile. cbv zeta.
  apply String.eqb_neq in Hown. rewrite Hown.
  destruct (find_file_by_id _ _ _ Hfile) as [_ ->].
  rewrite (find_hd_filter _ _ _ _ Hdup). reflexivity.
Qed.

Lemma duplicate_grants_first_wins_witness :
  resolveByUser (at_ 12 []) w_duplicates bob "f1" = Some (Allowed R_viewer)
  /\ console (snd (serve (at_ 12 []) (getFile (Some bob) "f1") w_duplicates))
     = console w_duplicates.
Proof.
  apply (duplicate_grants_first_wins (at_ 12 []) w_duplicates bob "f1"
           (file.mk "f1" "report.png" "blob1" "https://cdn/blob1" 10
              "image/png" (Some "image") "u1" 3 3)
           grant_first grant_dup []).
  - reflexivity.
  - discriminate.
  - reflexivity.
  - discriminate.
  - reflexivity.
Defined.

(** C5 as stated fails: with two active direct grants for (f1, u2) in a
    store that satisfies every database constraint (the database accepts
    both inserts), the check does not answer Denied; it picks the first
    grant and logs nothing. *)
Lemma duplicate_grants_not_denied :
  schema_ok (db w_duplicates)
  /\ (exists d1, insert_share_db grant_first (db w_uploaded) = inr d1
                 /\ insert_share_db grant_dup d1 = inr (db w_duplicates))
  /\ length
       (filter (files_router.hasShare_where "f1" "u2" 12)
          (shares (db w_duplicates))) = 2
  /\ resolveByUser (at_ 12 []) w_duplicates bob "f1"
     = Some (Allowed R_viewer)
  /\ resolveByUser (at_ 12 []) w_duplicates bob "f1" <> Some Denied
  /\ console (snd (serve (at_ 12 []) (getFile (Some bob) "f1") w_duplicates))
     = [].
Proof.
  split; [|split].
  - repeat split.
    + vm_compute. repeat constructor. intros [].
    + vm_compute. repeat constructor; vm_compute; intuition discriminate.
    + vm_compute. constructor.
    + vm_compute. intros s [<- | [<- | []]]; reflexivity.
    + vm_compute. intros l [<- | []]. reflexivity.
  - eexists. split; vm_compute; reflexivity.
  - repeat split; try (vm_compute; reflexivity); discriminate.
Qed.

(** ** C9: link grants and the user access check *)

(** C9. A non-owner is Allowed by [resolveByUser] only through a direct
    grant naming that user: link grants carry no [sharedWithUserId], so
    the lookup never matches them, and removing every link grant from the
    store leaves the decision unchanged. *)
Theorem link_grants_do_not_resolve env w u fid r :
  reachable w ->
  env_faults env = [] ->
  (forall f, In f (files (db w)) -> file.id f = fid ->
             file.ownerId f <> AuthRequest.id u) ->
  (forall s, In s (shares (db w)) -> share.shareType s = ST_link ->
             share.sharedWithUserId s = None)
  /\ (resolveByUser env w u fid = Some (Allowed r) ->
      exists g, In g (shares (db w))
                /\ share.shareType g = ST_user
                /\ share.sharedWithUserId g = Some (AuthRequest.id u)
                /\ share.fileId g = fid
                /\ active (env_now env) g
                /\ share.role g = r)
  /\ resolveByUser env
       (set_db w
          (delete_share_db
             (fun s => shareType_eqb (share.shareType s) ST_link) (db w)))
       u fid
     = resolveByUser env w u fid.
Proof.
  intros Hreach Hrel Hnot.
  pose proof (reachable_Inv _ Hreach) as [Hsch Hgr].
  assert (Hlink : forall s, In s (shares (db w)) ->
                    share.shareType s = ST_link ->
                    share.sharedWithUserId s = None).
  { intros s Hin Ht. pose proof (grants_shape _ Hgr s Hin) as Hs.
    unfold grant_shape in Hs. rewrite Ht in Hs. tauto. }
  split; [exact Hlink|].
  unfold resolveByUser.
  destruct (String.eqb_spec fid "") as [-> | Hid].
  { rewrite !GET_id_empty by assumption.
    split; [discriminate | reflexivity]. }
  rewrite !GET_id_reliable by assumption. simpl.
  unfold GET_id_answer. simpl. split.
  - destruct (find _ (files (db w))) as [f|] eqn:Hfile; [|discriminate].
    destruct (find_file_by_id _ _ _ Hfile) as [Hf Eid].
    specialize (Hnot f Hf Eid). apply String.eqb_neq in Hnot.
    cbv zeta. rewrite Hnot, Eid.
    destruct (find _ (shares (db w))) as [g|] eqn:Hg; [|discriminate].
    simpl. intros H. inversion H; subst r. clear H.
    apply find_some in Hg. destruct Hg as [Hin Hp].
    apply hasShare_where_spec in Hp. destruct Hp as (Ef & Eu & Hact).
    exists g. repeat split; auto.
    destruct (share.shareType g) eqn:Ht; [reflexivity|].
    rewrite (Hlink g Hin Ht) in Eu. discriminate.
  - destruct (find _ (files (db w))) as [f|]; [|reflexivity].
    cbv zeta. rewrite find_filter_keep; [reflexivity|].
    intros s Hin Hp. apply hasShare_where_spec in Hp.
    destruct Hp as (_ & Eu & _).
    destruct (share.shareType s) eqn:Ht; [reflexivity|].
    rewrite (Hlink s Hin Ht) in Eu. discriminate.
Qed.

Lemma link_grants_do_not_resolve_witness :
  (forall s, In s (shares (db w_linked)) -> share.shareType s = ST_link ->
             share.sharedWithUserId s = None)
  /\ (resolveByUser (at_ 6 []) w_linked bob "f1" = Some (Allowed R_viewer) ->
      exists g, In g (shares (db w_linked))
                /\ share.shareType g = ST_user
                /\ share.sharedWithUserId g = Some (AuthRequest.id bob)
                /\ share.fileId g = "f1"
                /\ active (env_now (at_ 6 [])) g
                /\ share.role g = R_viewer)
  /\ resolveByUser (at_ 6 [])
       (set_db w_linked
          (delete_share_db
             (fun s => shareType_eqb (share.shareType s) ST_link)
             (db w_linked)))
       bob "f1"
     = resolveByUser (at_ 6 []) w_linked bob "f1".
Proof.
  apply (link_grants_do_not_resolve (at_ 6 []) w_linked bob "f1" R_viewer).
  - exact w_linked_reachable.
  - reflexivity.
  - vm_compute. intros f [<- | []] _ H. discriminate H.
Defined.

(** ** What a successful insert leaves behind *)

Lemma insert_activityLog_db_inr r d d' :
  insert_activityLog_db r d = inr d' ->
  d' = mkDB (users d) (files d) (shares d) (activityLogs d ++ [r]).
Proof.
  unfold insert_activityLog_db.
  repeat match goal with
         | |- context [if ?c then _ else _] => destruct c; [discriminate|]
         end.
  intros H. now inversion H.
Qed.

Lemma insert_share_db_inr r d d' :
  insert_share_db r d = inr d' ->
  d' = mkDB (users d) (files d) (shares d ++ [r]) (activityLogs d).
Proof.
  unfold insert_share_db.
  repeat match goal with
         | |- context [if ?c then _ else _] => destruct c; [discriminate|]
         end.
  intros H. now inversion H.
Qed.

Lemma insert_file_db_inr r d d' :
  insert_file_db r d = inr d' ->
  d' = mkDB (users d) (files d ++ [r]) (shares d) (activityLogs d).
Proof.
  unfold insert_file_db.
  repeat match goal with
         | |- context [if ?c then _ else _] => destruct c; [discriminate|]
         end.
  intros H. now inversion H.
Qed.

Lemma find_unique {A} (p : A -> bool) l x :
  In x l -> p x = true -> (forall y, In y l -> p y = true -> y = x) ->
  find p l = Some x.
Proof.
  intros Hin Hp Huniq. destruct (find p l) as [y|] eqn:E.
  - apply find_some in E. f_equal. now apply Huniq.
  - eapply find_none in E; eauto. congruence.
Qed.

(** A revocation that answers 200 has deleted the rows with that id and
    touched no file. *)
Lemma revoke_success env owner sid w r w' :
  serve env (revokeShare (Some owner) sid) w = (r, w') ->
  status r = 200 ->
  files (db w') = files (db w)
  /\ users (db w') = users (db w)
  /\ shares (db w')
     = filter (fun s => negb (share.id s =? sid)) (shares (db w))
  /\ exists g f,
       find (fun s => share.id s =? sid) (shares (db w)) = Some g
       /\ find (fun x => file.id x =? share.fileId g) (files (db w)) = Some f
       /\ file.ownerId f = AuthRequest.id owner.
Proof.
  destruct env as [t en fa cr], w as [d bl tm co t' en' fa' cr'].
  unfold serve, arrive, route, share_router.DELETE_shareId. simpl.
  intros Hrun Hst. revert Hrun. exec.
  all: intros Hrun; inversion Hrun; subst; clear Hrun.
  all: try discriminate Hst.
  match goal with
  | H : insert_activityLog_db _ _ = inr _ |- _ =>
      apply insert_activityLog_db_inr in H; subst
  end.
  simpl. repeat split.
  match goal with
  | H : option_map _ (find ?p (shares d)) = Some (?g, Some ?f),
    Ho : negb (file.ownerId ?f =? _) = false |- _ =>
      destruct (find p (shares d)) as [g'|] eqn:Hg; [|discriminate H];
      simpl in H; injection H as Hgg Hff; subst g';
      apply negb_false_iff, String.eqb_eq in Ho;
      exists g, f; repeat split; assumption
  end.
Qed.

(** ** C1: a direct grant resolves to its role until it is revoked *)

(** C1. For every active direct-user grant [g] of a reachable store,
    [resolveByUser] answers Allowed with [g]'s role for the grantee; and
    once a revocation of [g] has succeeded, the same question is answered
    Denied, at any later time. *)
Theorem direct_grant_resolves_until_revoked env w g u :
  reachable w ->
  env_faults env = [] ->
  In g (shares (db w)) ->
  share.shareType g = ST_user ->
  share.sharedWithUserId g = Some (AuthRequest.id u) ->
  active (env_now env) g ->
  share.fileId g <> "" ->
  resolveByUser env w u (share.fileId g) = Some (Allowed (share.role g))
  /\ forall env1 owner r w',
       serve env1 (revokeShare (Some owner) (share.id g)) w = (r, w') ->
       status r = 200 ->
       forall env2, env_faults env2 = [] ->
         resolveByUser env2 w' u (share.fileId g) = Some Denied.
Proof.
  intros Hreach Hrel Hin Hty Hu Hact Hid.
  pose proof (reachable_Inv _ Hreach) as HI.
  pose proof HI as [Hsch Hgr].
  (* the file of the grant, which the grantee does not own *)
  pose proof (share_file_fk _ Hsch g Hin) as Hfk.
  apply has_file_spec in Hfk. destruct Hfk as (f & Hf & Ef).
  assert (Hfile : find (fun x => file.id x =? share.fileId g)
                    (files (db w)) = Some f).
  { rewrite <- Ef. apply find_file_In; [apply (file_pkey _ Hsch) | exact Hf]. }
  pose proof (grants_shape _ Hgr g Hin) as Hshape.
  unfold grant_shape in Hshape. rewrite Hty in Hshape.
  destruct Hshape as (_ & _ & u' & Hu' & Hown).
  rewrite Hu in Hu'. inversion Hu'; subst u'. clear Hu'.
  specialize (Hown f Hf Ef). apply String.eqb_neq in Hown.
  (* any row the lookup can return is [g] *)
  assert (Huniq : forall t y, In y (shares (db w)) ->
            files_router.hasShare_where (share.fileId g) (AuthRequest.id u)
              t y = true -> y = g).
  { intros t y Hy Hp. apply hasShare_where_spec in Hp.
    destruct Hp as (Efy & Euy & _).
    eapply direct_grant_unique; eauto. }
  split.
  - unfold resolveByUser. rewrite GET_id_reliable by assumption. simpl.
    unfold GET_id_answer. rewrite Hfile. cbv zeta. rewrite Hown, Ef.
    rewrite (find_unique _ _ g Hin); [reflexivity | | now apply Huniq].
    apply hasShare_where_spec. auto.
  - intros env1 owner r w' Hrun Hst env2 Hrel2.
    destruct (revoke_success _ _ _ _ _ _ Hrun Hst) as (Hfiles & _ & Hsh & _).
    unfold resolveByUser. rewrite GET_id_reliable by assumption. simpl.
    unfold GET_id_answer. rewrite Hfiles, Hfile. cbv zeta.
    rewrite Hown, Ef, Hsh.
    rewrite find_filter_none; [reflexivity|].
    intros y Hy Hp. rewrite (Huniq _ y Hy Hp), String.eqb_refl. reflexivity.
Qed.

Lemma direct_grant_resolves_until_revoked_witness :
  resolveByUser (at_ 6 []) w_shared bob "f1" = Some (Allowed R_viewer)
  /\ resolveByUser (at_ 8 [])
       (snd (serve (at_ 7 ["a4"]) (revokeShare (Some alice) "s1") w_shared))
       bob "f1"
     = Some Denied.
Proof.
  destruct (direct_grant_resolves_until_revoked (at_ 6 []) w_shared
              grant_s1 bob) as [Hallowed Hrevoked].
  - exact w_shared_reachable.
  - reflexivity.
  - vm_compute. left. reflexivity.
  - reflexivity.
  - reflexivity.
  - vm_compute. reflexivity.
  - discriminate.
  - split; [exact Hallowed|].
    eapply (Hrevoked (at_ 7 ["a4"]) alice).
    + apply surjective_pairing.
    + vm_compute. reflexivity.
    + reflexivity.
Defined.

(** ** C3: expired links *)

Lemma link_token_unique d a b t :
  Inv d -> In a (shares d) -> In b (shares d) ->
  share.token a = Some t -> share.token b = Some t -> a = b.
Proof.
  intros [Hsch _]. apply NoDup_opt_key_inj. exact (share_token_unique _ Hsch).
Qed.

(** C3. The token of a link grant whose [expiresAt] lies in the past
    resolves to Denied, with the "expired" answer (403), while a token that
    no link grant carries resolves to NotFound (404); these are two
    different decisions. *)
Theorem expired_link_is_denied env w g tok e u :
  reachable w ->
  env_faults env = [] ->
  In g (shares (db w)) ->
  share.shareType g = ST_link ->
  share.token g = Some tok ->
  tok <> "" ->
  share.expiresAt g = Some e ->
  (e < env_now env)%Z ->
  fst (serve env (accessLink (Some u) tok) w)
  = res 403 (Error "Share link has expired")
  /\ resolveByToken env w u tok = Some Denied
  /\ (forall tok',
        tok' <> "" ->
        (forall s, In s (shares (db w)) -> share.shareType s = ST_link ->
                   share.token s <> Some tok') ->
        resolveByToken env w u tok' = Some NotFound)
  /\ Some Denied <> Some NotFound.
Proof.
  intros Hreach Hrel Hin Hty Htok Hne Hexp Hpast.
  pose proof (reachable_Inv _ Hreach) as HI.
  assert (Hfind : find (fun s => eq_nullable (share.token s) tok
                                 && shareType_eqb (share.shareType s) ST_link)
                    (shares (db w)) = Some g).
  { apply find_unique; [exact Hin | |].
    - rewrite Htok, Hty. simpl. now rewrite String.eqb_refl.
    - intros y Hy Hp. apply andb_true_iff in Hp. destruct Hp as [Hp _].
      apply eq_nullable_spec in Hp. eapply link_token_unique; eauto. }
  assert (Hanswer : fst (serve env (accessLink (Some u) tok) w)
                    = res 403 (Error "Share link has expired")).
  { apply truthy_neq in Hne. apply Z.ltb_lt in Hpast.
    destruct env as [t en fa cr], w as [d bl tm co t' en' fa' cr'].
    simpl in *. subst fa.
    unfold serve, arrive, route, share_router.GET_link_token.
    rewrite Hne. unfold_monad. cbn [fst snd hd tl negb].
    rewrite Hfind. cbn [option_map]. cbv beta iota zeta.
    rewrite Hexp, Hpast. reflexivity. }
  split; [exact Hanswer|]. split.
  { unfold resolveByToken. now rewrite Hanswer. }
  split; [|discriminate].
  intros tok' Hne' Hnone.
  assert (Hfind' : find (fun s => eq_nullable (share.token s) tok'
                                  && shareType_eqb (share.shareType s)
                                       ST_link)
                     (shares (db w)) = None).
  { match goal with |- ?x = None => destruct x as [s|] eqn:E end;
      [|reflexivity].
    apply find_some in E. destruct E as [Hs Hp].
    apply andb_true_iff in Hp. destruct Hp as [Hp Hl].
    apply eq_nullable_spec in Hp. exfalso. apply (Hnone s Hs); [|exact Hp].
    now destruct (share.shareType s). }
  apply truthy_neq in Hne'.
  destruct env as [t en fa cr], w as [d bl tm co t' en' fa' cr'].
  simpl in *. subst fa.
  unfold resolveByToken, serve, arrive, route, share_router.GET_link_token.
  rewrite Hne'. unfold_monad. cbn [fst snd hd tl negb].
  rewrite Hfind'. reflexivity.
Qed.

Lemma expired_link_is_denied_witness :
  fst (serve (at_ 21 ["a4"]) (accessLink (Some bob) "tok1") w_linked)
  = res 403 (Error "Share link has expired")
  /\ resolveByToken (at_ 21 ["a4"]) w_linked bob "tok1" = Some Denied
  /\ (forall tok',
        tok' <> "" ->
        (forall s, In s (shares (db w_linked)) ->
                   share.shareType s = ST_link ->
                   share.token s <> Some tok') ->
        resolveByToken (at_ 21 ["a4"]) w_linked bob tok' = Some NotFound)
  /\ Some Denied <> Some NotFound.
Proof.
  apply (expired_link_is_denied (at_ 21 ["a4"]) w_linked grant_s2 "tok1" 20
           bob).
  - exact w_linked_reachable.
  - reflexivity.
  - vm_compute. right. left. reflexivity.
  - reflexivity.
  - reflexivity.
  - discriminate.
  - reflexivity.
  - reflexivity.
Defined.

(** ** C10: the audit trail of a deleted file *)

Lemma cascade_dead d id fid :
  has_file d id = true ->
  existsb (fun f => file.id f =? fid)
    (filter (fun f => file.id f =? id) (files d))
  = (fid =? id).
Proof.
  intros Hhas. apply has_file_spec in Hhas. destruct Hhas as (f & Hf & Ef).
  destruct (String.eqb_spec fid id) as [-> | Hne].
  - apply existsb_exists. exists f. rewrite Ef, String.eqb_refl.
    split; [|reflexivity]. apply filter_In. now rewrite Ef, String.eqb_refl.
  - destruct (existsb _ _) eqn:E; [|reflexivity].
    apply existsb_exists in E. destruct E as (x & Hx & Ex).
    apply filter_In in Hx. destruct Hx as [_ Hx].
    apply String.eqb_eq in Hx, Ex. congruence.
Qed.

Lemma filter_ext_eq {A} (p q : A -> bool) l :
  (forall x, p x = q x) -> filter p l = filter q l.
Proof. intros H. apply filter_ext_in. auto. Qed.

(** The audit entries that survive a cascade from [d1], when [d1] holds
    the file. *)
Lemma cascade_activityLogs d1 id :
  has_file d1 id = true ->
  activityLogs (delete_file_db (fun f => file.id f =? id) d1)
  = filter (fun l => negb (activityLog.fileId l =? id)) (activityLogs d1).
Proof.
  intros Hhas. simpl. apply filter_ext_eq. intros l.
  now rewrite cascade_dead.
Qed.

Lemma insert_activityLog_db_fk r d d' :
  insert_activityLog_db r d = inr d' ->
  has_file d (activityLog.fileId r) = true.
Proof.
  unfold insert_activityLog_db.
  destruct (existsb _ (activityLogs d)); [discriminate|].
  destruct (has_file d (activityLog.fileId r)); [reflexivity|discriminate].
Qed.

Lemma delete_after_audit d0 d1 id entry :
  insert_activityLog_db entry d0 = inr d1 ->
  activityLog.fileId entry = id ->
  In entry (activityLogs d1)
  /\ activityLogs (delete_file_db (fun f => file.id f =? id) d1)
     = filter (fun l => negb (activityLog.fileId l =? id)) (activityLogs d0)
  /\ ~ In entry (activityLogs (delete_file_db (fun f => file.id f =? id) d1)).
Proof.
  intros Hins Hid.
  pose proof (insert_activityLog_db_fk _ _ _ Hins) as Hfk.
  apply insert_activityLog_db_inr in Hins. subst d1. rewrite Hid in Hfk.
  assert (Hlogs :
    activityLogs
      (delete_file_db (fun f => file.id f =? id)
         (mkDB (users d0) (files d0) (shares d0)
            (activityLogs d0 ++ [entry])))
    = filter (fun l => negb (activityLog.fileId l =? id))
        (activityLogs d0)).
  { rewrite cascade_activityLogs by exact Hfk. simpl.
    rewrite filter_app. simpl. rewrite Hid, String.eqb_refl. simpl.
    apply app_nil_r. }
  split; [simpl; apply in_or_app; right; now left|].
  split; [exact Hlogs|].
  rewrite Hlogs. intros Hin. apply filter_In in Hin.
  rewrite Hid, String.eqb_refl in Hin. destruct Hin. discriminate.
Qed.

(** C10. When [DELETE /api/files/:id] answers 200, the audit log is the
    old log without the entries of that file: the route appended a
    "delete" entry for the file, and the cascade of the file-row deletion
    that followed destroyed it with the others. *)
Theorem deleted_file_leaves_no_audit env u id w r w' :
  serve env (deleteFile u id) w = (r, w') ->
  status r = 200 ->
  activityLogs (db w')
  = filter (fun l => negb (activityLog.fileId l =? id))
      (activityLogs (db w))
  /\ (forall l, In l (activityLogs (db w')) -> activityLog.fileId l <> id)
  /\ exists entry d0 d1,
       activityLogs d0 = activityLogs (db w)
       /\ insert_activityLog_db entry d0 = inr d1
       /\ activityLog.activityType entry = A_delete
       /\ activityLog.fileId entry = id
       /\ In entry (activityLogs d1)
       /\ db w' = delete_file_db (fun f => file.id f =? id) d1
       /\ ~ In entry (activityLogs (db w')).
Proof.
  intros Hrun Hst.
  assert (Hmain :
    exists entry d0 d1,
      activityLogs d0 = activityLogs (db w)
      /\ insert_activityLog_db entry d0 = inr d1
      /\ activityLog.activityType entry = A_delete
      /\ activityLog.fileId entry = id
      /\ db w' = delete_file_db (fun f => file.id f =? id) d1).
  { destruct env as [t en fa cr], w as [d bl tm co t' en' fa' cr'].
    revert Hrun. unfold serve, route, files_router.DELETE_id. exec.
    all: intros Hrun; inversion Hrun; subst; clear Hrun.
    all: try discriminate Hst.
    all: match goal with
         | Hf : find _ (files _) = Some ?f,
           H : insert_activityLog_db ?entry ?d0 = inr ?d1 |- _ =>
             apply find_file_by_id in Hf; destruct Hf as [_ Hf];
             exists entry, d0, d1; repeat split;
             solve [assumption | reflexivity]
         end. }
  destruct Hmain as (entry & d0 & d1 & Hlogs & Hins & Hty & Hfid & Hdb).
  destruct (delete_after_audit _ _ _ _ Hins Hfid) as (Hin & Heq & Hnot).
  rewrite <- Hlogs, Hdb. split; [exact Heq|]. split.
  - intros l Hl. rewrite Heq in Hl. apply filter_In in Hl.
    destruct Hl as [_ Hl]. apply negb_true_iff in Hl.
    now apply String.eqb_neq.
  - exists entry, d0, d1. repeat split; auto.
Qed.

Lemma deleted_file_leaves_no_audit_witness :
  let w' := snd (serve (at_ 9 ["a9"]) (deleteFile (Some alice) "f1")
                   w_linked) in
  activityLogs (db w')
  = filter (fun l => negb (activityLog.fileId l =? "f1"))
      (activityLogs (db w_linked))
  /\ (forall l, In l (activityLogs (db w')) -> activityLog.fileId l <> "f1")
  /\ exists entry d0 d1,
       activityLogs d0 = activityLogs (db w_linked)
       /\ insert_activityLog_db entry d0 = inr d1
       /\ activityLog.activityType entry = A_delete
       /\ activityLog.fileId entry = "f1"
       /\ In entry (activityLogs d1)
       /\ db w' = delete_file_db (fun f => file.id f =? "f1") d1
       /\ ~ In entry (activityLogs (db w')).
Proof.
  apply (deleted_file_leaves_no_audit (at_ 9 ["a9"]) (Some alice) "f1"
           w_linked
           (fst (serve (at_ 9 ["a9"]) (deleteFile (Some alice) "f1")
                   w_linked))).
  - apply surjective_pairing.
  - vm_compute. reflexivity.
Defined.

(** ** C8: no grant carries the owner role *)

(** C8. Every grant of a reachable store has role viewer or editor, never
    owner: [POST /:fileId/user] rejects a role outside
    [allowedRoles] before it writes anything, and every row
    [POST /:fileId/link] adds is a viewer link. *)
Theorem granted_role_never_owner :
  (forall w s, reachable w -> In s (shares (db w)) ->
     (share.role s = R_viewer \/ share.role s = R_editor)
     /\ share.role s <> R_owner)
  /\ (forall env w u fid body role em,
        env_faults env = [] ->
        share_router.role body = Some role ->
        role <> "" ->
        share_router.includes share_router.allowedRoles role = false ->
        fid <> "" ->
        share_router.userEmail body = Some em ->
        em <> "" ->
        serve env (shareWithUser (Some u) fid body) w
        = (res 400 (Error "Invalid role. Must be 'viewer' or 'editor'"),
           arrive env w))
  /\ (forall env w u fid e s,
        In s (shares (db (snd (serve env (shareLink u fid e) w)))) ->
        In s (shares (db w))
        \/ (share.shareType s = ST_link /\ share.role s = R_viewer)).
Proof.
  split; [|split].
  - intros w s Hreach Hin.
    destruct (reachable_Inv _ Hreach) as [_ Hgr].
    pose proof (grants_shape _ Hgr s Hin) as Hs. unfold grant_shape in Hs.
    assert (share.role s = R_viewer \/ share.role s = R_editor) as Hr
      by (destruct (share.shareType s); tauto).
    split; [exact Hr|]. destruct Hr as [-> | ->]; discriminate.
  - intros [t en fa cr] w u fid body role em Hrel Hrole Hne Hbad Hfid Hem
      Hemne.
    simpl in Hrel. subst fa. apply truthy_neq in Hne, Hfid, Hemne.
    unfold serve, route, share_router.POST_fileId_user, run, tryCatch.
    rewrite Hfid, Hrole, Hem, Hemne, Hne, Hbad. reflexivity.
  - intros [t en fa cr] [d bl tm co t' en' fa' cr'] u fid e s.
    unfold serve, route, share_router.POST_fileId_link. exec.
    all: repeat match goal with
           | H : insert_activityLog_db _ _ = inr _ |- _ =>
               apply insert_activityLog_db_inr in H; subst
           | H : insert_share_db _ _ = inr _ |- _ =>
               apply insert_share_db_inr in H; subst
           end.
    all: simpl; auto.
    all: intros Hin; apply in_app_or in Hin;
      destruct Hin as [Hin | [<- | []]]; auto.
Qed.

Lemma granted_role_never_owner_witness :
  ((share.role grant_s1 = R_viewer \/ share.role grant_s1 = R_editor)
   /\ share.role grant_s1 <> R_owner)
  /\ serve (at_ 6 ["s3"; "a4"])
       (shareWithUser (Some alice) "f1"
          (share_router.mkUserShareBody (Some "b@x.org") (Some "owner")
             None))
       w_uploaded
     = (res 400 (Error "Invalid role. Must be 'viewer' or 'editor'"),
        arrive (at_ 6 ["s3"; "a4"]) w_uploaded).
Proof.
  destruct granted_role_never_owner as (Hinv & Hreject & _).
  split.
  - apply (Hinv w_shared grant_s1 w_shared_reachable).
    vm_compute. left. reflexivity.
  - apply (Hreject (at_ 6 ["s3"; "a4"]) w_uploaded alice "f1" _ "owner"
             "b@x.org"); try reflexivity; discriminate.
Defined.

(** ** Control flow of a request that passes the owner checks *)

Lemma POST_fileId_user_checked t en fa cr w o fid body em target :
  hd false fa = false ->
  hd false (tl fa) = false ->
  hd false (tl (tl fa)) = false ->
  hd false (tl (tl (tl fa))) = false ->
  passes_owner_checks w o fid body em target ->
  serve (mkEnv t en fa cr) (shareWithUser (Some o) fid body) w
  = match find (existingShare_where fid (user.id target))
            (shares (db w)) with
    | Some _ =>
        (res 400 (Error "File already shared with this user"),
         arrive (mkEnv t en (tl (tl (tl (tl fa)))) cr) w)
    | None =>
        run (tryCatch
               (direct_grant_tail o fid em (requested_role body) target
                  (share_router.expiresAt body))
               (catch_500 "Share with user error:"))
          (arrive (mkEnv t en (tl (tl (tl (tl fa)))) cr) w)
    end.
Proof.
  intros H0 H1 H2 H3 (Hfid & Hem & Hne & Hrole & (f & Hfile & Hown) & Huser
                      & Hself).
  apply truthy_neq in Hfid, Hne.
  apply String.eqb_neq in Hself.
  unfold requested_role in *.
  destruct w as [d bl tm co t' en' fa' cr']. simpl in Hfile, Huser.
  unfold serve, route, share_router.POST_fileId_user, direct_grant_tail,
    catch_500, existingShare_where.
  rewrite Hfid, Hem, Hne, Hrole. unfold_monad. cbn [fst snd hd tl negb].
  rewrite H0, H1, Hfile, Hown, String.eqb_refl. cbn [negb].
  rewrite H2, Huser, Hself, H3.
  destruct (find _ (shares d)); reflexivity.
Qed.

Lemma POST_fileId_link_checked t en fa cr w o fid e f :
  hd false fa = false ->
  hd false (tl fa) = false ->
  fid <> "" ->
  find (fun f => file.id f =? fid) (files (db w)) = Some f ->
  file.ownerId f = AuthRequest.id o ->
  serve (mkEnv t en fa cr) (shareLink (Some o) fid e) w
  = run (tryCatch (link_grant_tail o fid e)
           (catch_500 "Generate share link error:"))
      (arrive (mkEnv t en (tl (tl fa)) cr) w).
Proof.
  intros H0 H1 Hfid Hfile Hown. apply truthy_neq in Hfid.
  destruct w as [d bl tm co t' en' fa' cr']. simpl in Hfile.
  unfold serve, route, share_router.POST_fileId_link, link_grant_tail,
    catch_500.
  rewrite Hfid. unfold_monad. cbn [fst snd hd tl negb].
  rewrite H0, H1, Hfile, Hown, String.eqb_refl. reflexivity.
Qed.

(** ** C7: the expiry check of the two [POST] routes *)

Ltac expiry_leaf :=
  let H := fresh "H" in
  let v0 := fresh "v0" in
  let Hd := fresh "Hd" in
  let Htr := fresh "Htr" in
  let Hnf := fresh "Hnf" in
  cbn [fst snd db];
  split; [split|];
  [ intros [H | H];
    first
      [ discriminate H
      | eexists; split; [first [eassumption | reflexivity]|];
        split; [assumption|];
        match goal with
        | E : new_Date _ = _ |- _ => rewrite E
        end;
        simpl; try tauto;
        match goal with
        | L : (_ <=? _)%Z = true |- _ => apply Z.leb_le in L; lia
        end ]
  | intros (v0 & Hd & Htr & Hnf);
    first
      [ left; reflexivity
      | right; reflexivity
      | exfalso;
        first
          [ discriminate Hd
          | inversion Hd; subst;
            first
              [ congruence
              | apply Hnf;
                match goal with
                | E : new_Date _ = _ |- _ => rewrite E
                end;
                simpl;
                match goal with
                | L : (_ <=? _)%Z = false |- _ => apply Z.leb_gt in L; lia
                end ] ] ]
  | intros H; first [reflexivity | destruct H as [H | H]; discriminate H] ].

(** C7 as stated fails: the JSON number 0 is a present [expiresAt], and
    [new Date(0)] is not after the time of the request, yet neither
    [POST] route answers InvalidExpiry: [if (expiresAt)] skips the check
    for a falsy value and the grant is stored without an expiry. *)
Lemma present_falsy_expiry_is_accepted :
  let body := body_for_bob None (Some json_zero) in
  share_router.expiresAt body = Some json_zero
  /\ ~ strictlyFuture 6 (new_Date json_zero)
  /\ fst (serve (at_ 6 ["s3"; "a4"]) (shareWithUser (Some alice) "f1" body)
            w_uploaded)
     = res 201 (ShareCreated "s3" "u2" R_viewer None)
  /\ ~ InvalidExpiry
         (fst (serve (at_ 6 ["s3"; "a4"])
                 (shareWithUser (Some alice) "f1" body) w_uploaded))
  /\ fst (serve (at_ 6 ["tok3"; "s3"; "a4"])
            (shareLink (Some alice) "f1" (Some json_zero)) w_uploaded)
     = res 201 (LinkCreated "s3" (Some "tok3") None)
  /\ ~ InvalidExpiry
         (fst (serve (at_ 6 ["tok3"; "s3"; "a4"])
                 (shareLink (Some alice) "f1" (Some json_zero)) w_uploaded)).
Proof.
  assert (E1 : fst (serve (at_ 6 ["s3"; "a4"])
                      (shareWithUser (Some alice) "f1"
                         (body_for_bob None (Some json_zero))) w_uploaded)
               = res 201 (ShareCreated "s3" "u2" R_viewer None))
    by (vm_compute; reflexivity).
  assert (E2 : fst (serve (at_ 6 ["tok3"; "s3"; "a4"])
                      (shareLink (Some alice) "f1" (Some json_zero))
                      w_uploaded)
               = res 201 (LinkCreated "s3" (Some "tok3") None))
    by (vm_compute; reflexivity).
  cbv zeta. rewrite E1, E2.
  split; [reflexivity|]. split; [simpl; lia|]. split; [reflexivity|].
  split; [intros [H | H]; discriminate H|]. split; [reflexivity|].
  intros [H | H]; discriminate H.
Qed.

(** C7. For a request that reaches the expiry check (it passed the owner,
    self-grant and duplicate checks), both [POST] routes answer
    InvalidExpiry exactly when [expiresAt] is truthy and
    [new Date(expiresAt)] is not strictly in the future, and then nothing
    is written; with an absent, a falsy or a strictly future [expiresAt]
    the check passes. *)
Theorem invalid_expiry_iff_not_future :
  (forall env w o fid body em target,
     env_faults env = [] ->
     passes_owner_checks w o fid body em target ->
     find (existingShare_where fid (user.id target)) (shares (db w)) = None ->
     let r := serve env (shareWithUser (Some o) fid body) w in
     (InvalidExpiry (fst r) <->
      exists v, share_router.expiresAt body = Some v
                /\ js_truthy v = true
                /\ ~ strictlyFuture (env_now env) (new_Date v))
     /\ (InvalidExpiry (fst r) -> db (snd r) = db w))
  /\ (forall env w o fid e f,
        env_faults env = [] ->
        fid <> "" ->
        find (fun f => file.id f =? fid) (files (db w)) = Some f ->
        file.ownerId f = AuthRequest.id o ->
        let r := serve env (shareLink (Some o) fid e) w in
        (InvalidExpiry (fst r) <->
         exists v, e = Some v
                   /\ js_truthy v = true
                   /\ ~ strictlyFuture (env_now env) (new_Date v))
        /\ (InvalidExpiry (fst r) -> db (snd r) = db w)).
Proof.
  split.
  - intros [t en fa cr] w o fid body em target Hrel Hok Hnone r.
    simpl in Hrel. subst fa.
    assert (Hr : r = serve (mkEnv t en [] cr)
                       (shareWithUser (Some o) fid body) w) by reflexivity.
    clearbody r.
    rewrite POST_fileId_user_checked with (em := em) (target := target)
      in Hr by (reflexivity || assumption).
    rewrite Hnone in Hr.
    destruct w as [d bl tm co t' en' fa' cr'].
    unfold direct_grant_tail, catch_500 in Hr. exec_result r Hr.
    all: expiry_leaf.
  - intros [t en fa cr] w o fid e f Hrel Hfid Hfile Hown r.
    simpl in Hrel. subst fa.
    assert (Hr : r = serve (mkEnv t en [] cr) (shareLink (Some o) fid e) w)
      by reflexivity.
    clearbody r.
    rewrite POST_fileId_link_checked with (f := f) in Hr
      by (reflexivity || assumption).
    destruct w as [d bl tm co t' en' fa' cr'].
    unfold link_grant_tail, catch_500 in Hr. exec_result r Hr.
    all: expiry_leaf.
Qed.

Lemma alice_may_share_with_bob w body :
  users (db w) = users (db w_uploaded) ->
  files (db w) = files (db w_uploaded) ->
  share_router.userEmail body = Some "b@x.org" ->
  share_router.role body = None ->
  passes_owner_checks w alice "f1" body "b@x.org"
    (user.mk "u2" "Bob" "b@x.org").
Proof.
  intros Hu Hf Hem Hrole. unfold passes_owner_checks, requested_role.
  rewrite Hu, Hf, Hem, Hrole.
  repeat split; try discriminate; try reflexivity.
  eexists. split; reflexivity.
Qed.

Lemma invalid_expiry_iff_not_future_witness :
  let r := serve (at_ 6 ["s3"; "a4"])
             (shareWithUser (Some alice) "f1"
                (body_for_bob None (Some (json_date 6))))
             w_uploaded in
  (InvalidExpiry (fst r) <->
   exists v, Some (json_date 6) = Some v
             /\ js_truthy v = true
             /\ ~ strictlyFuture 6 (new_Date v))
  /\ (InvalidExpiry (fst r) -> db (snd r) = db w_uploaded).
Proof.
  apply (proj1 invalid_expiry_iff_not_future (at_ 6 ["s3"; "a4"]) w_uploaded
           alice "f1" (body_for_bob None (Some (json_date 6))) "b@x.org"
           (user.mk "u2" "Bob" "b@x.org")).
  - reflexivity.
  - apply alice_may_share_with_bob; reflexivity.
  - reflexivity.
Defined.

(** ** C4: the duplicate check *)

(** C4 as stated fails: Bob's grant on [f1] expired at time 10, so at time
    12 no active direct grant exists for (f1, u2), and still a new direct
    grant for the pair is refused with DuplicateGrant. *)
Lemma expired_grant_blocks_new_grant :
  fst (serve (at_ 12 ["s3"; "a4"])
         (shareWithUser (Some alice) "f1" (body_for_bob None None))
         w_shared)
  = DuplicateGrant
  /\ ~ exists g, In g (shares (db w_shared))
                 /\ share.shareType g = ST_user
                 /\ share.fileId g = "f1"
                 /\ share.sharedWithUserId g = Some "u2"
                 /\ active 12 g.
Proof.
  split; [vm_compute; reflexivity|].
  assert (E : shares (db w_shared) = [grant_s1])
    by (vm_compute; reflexivity).
  rewrite E. intros (g & [<- | []] & _ & _ & _ & Hact).
  cbv in Hact. discriminate Hact.
Qed.

Lemma existingShare_where_spec fid uid s :
  existingShare_where fid uid s = true <->
  share.shareType s = ST_user /\ share.fileId s = fid
  /\ share.sharedWithUserId s = Some uid.
Proof.
  unfold existingShare_where.
  rewrite !andb_true_iff, String.eqb_eq, eq_nullable_spec.
  destruct (share.shareType s); simpl; intuition discriminate.
Qed.

Lemma persisted_role_exists role :
  truthy role && negb (share_router.includes share_router.allowedRoles role)
    = false ->
  exists rv, share_router.roleEnum_of_string
               (if truthy role then role else "viewer") = Some rv.
Proof.
  destruct (truthy role); simpl; [|intros _; eexists; reflexivity].
  rewrite negb_false_iff. unfold share_router.includes. simpl.
  rewrite !orb_true_iff, !String.eqb_eq.
  intros [-> | [-> | H]]; [eexists; reflexivity .. | discriminate H].
Qed.

Lemma has_user_find d p u :
  find p (users d) = Some u -> has_user d (user.id u) = true.
Proof.
  intros H. apply find_some in H. destruct H as [Hin _].
  unfold has_user. apply existsb_exists. exists u.
  now rewrite String.eqb_refl.
Qed.

Lemma has_file_find d fid f :
  find (fun f => file.id f =? fid) (files d) = Some f ->
  has_file d fid = true.
Proof.
  intros H. apply find_file_by_id in H. apply has_file_spec. eauto.
Qed.

(** A valid request for a pair without a grant row is answered 201 when
    the generated ids are fresh and the storage layer answers. *)
Lemma direct_grant_succeeds t sid lid rest cr w o fid body em target :
  passes_owner_checks w o fid body em target ->
  find (existingShare_where fid (user.id target)) (shares (db w)) = None ->
  (forall v, share_router.expiresAt body = Some v -> js_truthy v = true ->
             strictlyFuture t (new_Date v)) ->
  existsb (fun s => share.id s =? sid) (shares (db w)) = false ->
  existsb (fun l => activityLog.id l =? lid) (activityLogs (db w)) = false ->
  has_user (db w) (AuthRequest.id o) = true ->
  status (fst (serve (mkEnv t (sid :: lid :: rest) [] cr)
                 (shareWithUser (Some o) fid body) w)) = 201.
Proof.
  intros Hok Hnone Hexp Hsid Hlid Ho.
  rewrite POST_fileId_user_checked with (em := em) (target := target)
    by (reflexivity || assumption).
  rewrite Hnone.
  destruct Hok as (_ & _ & _ & Hrole & (f & Hfile & _) & Huser & _).
  apply persisted_role_exists in Hrole. destruct Hrole as [rv Hrv].
  apply has_file_find in Hfile. apply has_user_find in Huser.
  assert (Hv : exists v,
            forall w0, share_router.validateExpiresAt
                         (share_router.expiresAt body) w0 = (Val v, w0)
                       \/ now w0 <> t).
  { destruct (share_router.expiresAt body) as [v|] eqn:E;
      [|exists None; intros w0; now left].
    unfold share_router.validateExpiresAt.
    destruct (js_truthy v) eqn:Etr; [|exists None; intros w0; now left].
    specialize (Hexp _ eq_refl Etr).
    destruct (new_Date v) as [|ms] eqn:Ed; [destruct Hexp|].
    exists (Some ms). intros w0.
    destruct (Z.eq_dec (now w0) t) as [Ht | Ht]; [left | now right].
    simpl in Hexp. unfold bind, Date_now, ret.
    rewrite Ht. replace (ms <=? t)%Z with false; [reflexivity|].
    symmetry. apply Z.leb_gt. lia. }
  destruct Hv as [v Hv].
  destruct w as [d bl tm co t' en' fa' cr'].
  simpl in Hsid, Hlid, Ho, Hfile, Huser.
  unfold direct_grant_tail, catch_500, run, tryCatch, bind at 1.
  match goal with
  | |- context [share_router.validateExpiresAt ?e ?w0] =>
      destruct (Hv w0) as [-> | Hbad]; [|exfalso; apply Hbad; reflexivity]
  end.
  rewrite Hrv. unfold_monad. cbn [fst snd hd tl negb].
  unfold insert_share_db. cbn [share.id share.token share.fileId
    share.sharedWithUserId share.createdBy].
  rewrite Hsid, Hfile, Huser, Ho. cbn [negb].
  unfold insert_activityLog_db, has_file, has_user in *.
  cbn [activityLog.id activityLog.fileId activityLog.userId activityLogs
       files users].
  cbn [hd tl]. rewrite Hlid, Hfile, Ho. reflexivity.
Qed.

(** C4, as the code has it.  For a request that passes the owner checks,
    [POST /:fileId/user] answers DuplicateGrant exactly when a direct-user
    row exists for (file, user), whether or not it has expired; after that
    row has been revoked, a valid request for the same pair succeeds. *)
Theorem duplicate_grant_iff_row_exists :
  (forall env w o fid body em target,
     env_faults env = [] ->
     passes_owner_checks w o fid body em target ->
     (fst (serve env (shareWithUser (Some o) fid body) w) = DuplicateGrant
      <-> exists g, In g (shares (db w))
                    /\ share.shareType g = ST_user
                    /\ share.fileId g = fid
                    /\ share.sharedWithUserId g = Some (user.id target)))
  /\ (forall w g env1 o r1 w1 t sid lid rest cr body em target,
        reachable w ->
        In g (shares (db w)) ->
        share.shareType g = ST_user ->
        share.sharedWithUserId g = Some (user.id target) ->
        serve env1 (revokeShare (Some o) (share.id g)) w = (r1, w1) ->
        status r1 = 200 ->
        passes_owner_checks w1 o (share.fileId g) body em target ->
        (forall v, share_router.expiresAt body = Some v ->
                   js_truthy v = true -> strictlyFuture t (new_Date v)) ->
        existsb (fun s => share.id s =? sid) (shares (db w1)) = false ->
        existsb (fun l => activityLog.id l =? lid) (activityLogs (db w1))
          = false ->
        has_user (db w1) (AuthRequest.id o) = true ->
        status (fst (serve (mkEnv t (sid :: lid :: rest) [] cr)
                       (shareWithUser (Some o) (share.fileId g) body) w1))
        = 201).
Proof.
  split.
  - intros [t en fa cr] w o fid body em target Hrel Hok.
    simpl in Hrel. subst fa.
    rewrite POST_fileId_user_checked with (em := em) (target := target)
      by (reflexivity || assumption).
    destruct (find _ (shares (db w))) as [g|] eqn:Hfind.
    + split; [|reflexivity]. intros _.
      apply find_some in Hfind. destruct Hfind as [Hin Hp].
      apply existingShare_where_spec in Hp. exists g. tauto.
    + split.
      * intros Hdup. exfalso. revert Hdup.
        match goal with
        | |- fst ?X = _ -> _ => remember X as r eqn:Hr
        end.
        destruct w as [d bl tm co t' en' fa' cr'].
        unfold direct_grant_tail, catch_500 in Hr. exec_result r Hr.
        all: intros Hdup; discriminate Hdup.
      * intros (g & Hin & Hty & Hf & Hu). exfalso.
        apply (find_none _ _ Hfind) in Hin.
        assert (existingShare_where fid (user.id target) g = true)
          by (apply existingShare_where_spec; tauto).
        congruence.
  - intros w g env1 o r1 w1 t sid lid rest cr body em target
      Hreach Hin Hty Hu Hrun Hst Hok Hexp Hsid Hlid Ho.
    pose proof (reachable_Inv _ Hreach) as HI.
    destruct (revoke_success _ _ _ _ _ _ Hrun Hst) as (_ & _ & Hsh & _).
    eapply direct_grant_succeeds; eauto.
    rewrite Hsh. apply find_filter_none.
    intros x Hx Hp. apply existingShare_where_spec in Hp.
    destruct Hp as (_ & Hf & Hux).
    rewrite (direct_grant_unique _ x g _ HI Hx Hin Hf Hux Hu).
    now rewrite String.eqb_refl.
Qed.

Lemma duplicate_grant_iff_row_exists_witness :
  (fst (serve (at_ 12 ["s3"; "a5"])
          (shareWithUser (Some alice) "f1" (body_for_bob None None))
          w_shared) = DuplicateGrant
   <-> exists g, In g (shares (db w_shared))
                 /\ share.shareType g = ST_user
                 /\ share.fileId g = "f1"
                 /\ share.sharedWithUserId g = Some "u2")
  /\ status (fst (serve (at_ 13 ["s3"; "a5"])
                    (shareWithUser (Some alice) "f1"
                       (body_for_bob None None))
                    w_revoked)) = 201.
Proof.
  destruct duplicate_grant_iff_row_exists as [Hiff Hagain]. split.
  - apply (Hiff (at_ 12 ["s3"; "a5"]) w_shared alice "f1"
             (body_for_bob None None) "b@x.org"
             (user.mk "u2" "Bob" "b@x.org")).
    + reflexivity.
    + apply alice_may_share_with_bob; vm_compute; reflexivity.
  - apply (Hagain w_shared grant_s1 (at_ 12 ["a4"]) alice
             (fst (serve (at_ 12 ["a4"]) (revokeShare (Some alice) "s1")
                     w_shared))
             w_revoked 13%Z "s3" "a5" []
             [mkCloud "blob1" "https://cdn/blob1" "image"]
             (body_for_bob None None) "b@x.org"
             (user.mk "u2" "Bob" "b@x.org")).
    + exact w_shared_reachable.
    + vm_compute. left. reflexivity.
    + reflexivity.
    + reflexivity.
    + apply surjective_pairing.
    + vm_compute. reflexivity.
    + apply alice_may_share_with_bob; vm_compute; reflexivity.
    + intros v H. discriminate H.
    + vm_compute. reflexivity.
    + vm_compute. reflexivity.
    + vm_compute. reflexivity.
Defined.

(** ** C6: a failed audit write *)

(** Run a handler along a path that is already known: every scrutinee the
    computation meets has an equation in the context. *)
Ltac replay :=
  unfold_monad; cbn [fst snd hd tl negb];
  repeat (match goal with
          | H : ?x = _ |- context [match ?x with _ => _ end] => rewrite H
          end;
          cbv beta iota zeta; cbn [fst snd hd tl negb]).

(** C6 as stated fails: the upload's file row is written, the audit insert
    hits a storage failure, and the caller is told 500, not success; the
    file row stays while the uploaded blob is destroyed. *)
Lemma failed_audit_fails_upload :
  let r := serve (mkEnv 3 ["f1"; "a1"] (audit_fault 3)
                    [mkCloud "blob1" "https://cdn/blob1" "image"])
             (upload (Some alice)
                (Some (multer.mk "/tmp/up1" "report.png" 10 "image/png")))
             w_users in
  fst r = res 500 (Error "storage failure")
  /\ has_file (db (snd r)) "f1" = true
  /\ activityLogs (db (snd r)) = []
  /\ blobs (snd r) = []
  /\ console (snd r) = ["Upload error:"].
Proof. vm_compute. repeat split. Qed.

Ltac audit_leaf :=
  repeat match goal with
    | H : insert_activityLog_db _ _ = inr _ |- _ =>
        apply insert_activityLog_db_inr in H; subst
    | H : insert_share_db _ _ = inr _ |- _ =>
        apply insert_share_db_inr in H; subst
    | H : insert_file_db _ _ = inr _ |- _ =>
        apply insert_file_db_inr in H; subst
    end;
  cbn [db files shares activityLogs users console blobs];
  repeat split; eauto.

Lemma destroyed_blob_gone pid rtype (l : list (string * string)) :
  ~ In (pid, rtype)
      (filter (fun b => negb ((fst b =? pid) && (snd b =? rtype))) l).
Proof.
  intros Hin. apply filter_In in Hin. destruct Hin as [_ H].
  simpl in H. rewrite !String.eqb_refl in H. discriminate.
Qed.

(** C6, as the code has it.  Take a request that succeeds when the storage
    layer answers, and let the audit insert fail instead.  In the upload,
    share and revoke routes the row written before the audit entry is not
    rolled back and no audit entry exists, but the caller is answered 500
    with the error's message and the route's label is written to the
    server console; the upload route also destroys the uploaded blob. *)
Theorem failed_audit_is_reported_as_failure :
  (forall t en cr w u f,
     let req := upload u f in
     let ok := serve (mkEnv t en [] cr) req w in
     let bad := serve (mkEnv t en (audit_fault 3) cr) req w in
     status (fst ok) = 201 ->
     fst bad = res 500 (Error (message StorageFailure))
     /\ files (db (snd bad)) = files (db (snd ok))
     /\ (exists row, files (db (snd bad)) = (files (db w) ++ [row])%list)
     /\ activityLogs (db (snd bad)) = activityLogs (db w)
     /\ console (snd bad) = (console w ++ ["Upload error:"])%list
     /\ ~ In (public_id (hd no_reply cr), resource_type (hd no_reply cr))
           (blobs (snd bad)))
  /\ (forall t en cr w u fid body,
        let req := shareWithUser u fid body in
        let ok := serve (mkEnv t en [] cr) req w in
        let bad := serve (mkEnv t en (audit_fault 5) cr) req w in
        status (fst ok) = 201 ->
        fst bad = res 500 (Error (message StorageFailure))
        /\ shares (db (snd bad)) = shares (db (snd ok))
        /\ (exists row,
              shares (db (snd bad)) = (shares (db w) ++ [row])%list)
        /\ activityLogs (db (snd bad)) = activityLogs (db w)
        /\ console (snd bad)
           = (console w ++ ["Share with user error:"])%list)
  /\ (forall t en cr w u fid e,
        let req := shareLink u fid e in
        let ok := serve (mkEnv t en [] cr) req w in
        let bad := serve (mkEnv t en (audit_fault 3) cr) req w in
        status (fst ok) = 201 ->
        fst bad = res 500 (Error (message StorageFailure))
        /\ shares (db (snd bad)) = shares (db (snd ok))
        /\ (exists row,
              shares (db (snd bad)) = (shares (db w) ++ [row])%list)
        /\ activityLogs (db (snd bad)) = activityLogs (db w)
        /\ console (snd bad)
           = (console w ++ ["Generate share link error:"])%list)
  /\ (forall t en cr w u sid,
        let req := revokeShare u sid in
        let ok := serve (mkEnv t en [] cr) req w in
        let bad := serve (mkEnv t en (audit_fault 3) cr) req w in
        status (fst ok) = 200 ->
        fst bad = res 500 (Error (message StorageFailure))
        /\ shares (db (snd bad)) = shares (db (snd ok))
        /\ shares (db (snd bad))
           = filter (fun s => negb (share.id s =? sid)) (shares (db w))
        /\ activityLogs (db (snd bad)) = activityLogs (db w)
        /\ console (snd bad)
           = (console w ++ ["Revoke share error:"])%list).
Proof.
  split; [|split; [|split]].
  - intros t en cr w u f req ok bad.
    assert (Hok : ok = serve (mkEnv t en [] cr) req w) by reflexivity.
    clearbody ok. subst req.
    destruct w as [d bl tm co t' en' fa' cr'].
    unfold serve, route, files_router.POST_upload in Hok.
    exec_result ok Hok.
    all: intros Hst; try discriminate Hst.
    all: subst bad;
      unfold serve, route, files_router.POST_upload, audit_fault;
      cbn [repeat app]; replay.
    all: audit_leaf; apply destroyed_blob_gone.
  - intros t en cr w u fid body req ok bad.
    assert (Hok : ok = serve (mkEnv t en [] cr) req w) by reflexivity.
    clearbody ok. subst req.
    destruct w as [d bl tm co t' en' fa' cr'].
    unfold serve, route, share_router.POST_fileId_user in Hok.
    exec_result ok Hok.
    all: intros Hst; try discriminate Hst.
    all: subst bad;
      unfold serve, route, share_router.POST_fileId_user, audit_fault;
      cbn [repeat app]; replay.
    all: audit_leaf.
  - intros t en cr w u fid e req ok bad.
    assert (Hok : ok = serve (mkEnv t en [] cr) req w) by reflexivity.
    clearbody ok. subst req.
    destruct w as [d bl tm co t' en' fa' cr'].
    unfold serve, route, share_router.POST_fileId_link in Hok.
    exec_result ok Hok.
    all: intros Hst; try discriminate Hst.
    all: subst bad;
      unfold serve, route, share_router.POST_fileId_link, audit_fault;
      cbn [repeat app]; replay.
    all: audit_leaf.
  - intros t en cr w u sid req ok bad.
    assert (Hok : ok = serve (mkEnv t en [] cr) req w) by reflexivity.
    clearbody ok. subst req.
    destruct w as [d bl tm co t' en' fa' cr'].
    unfold serve, route, share_router.DELETE_shareId in Hok.
    exec_result ok Hok.
    all: intros Hst; try discriminate Hst.
    all: subst bad;
      unfold serve, route, share_router.DELETE_shareId, audit_fault;
      cbn [repeat app]; replay.
    all: audit_leaf.
Qed.

Lemma failed_audit_is_reported_as_failure_witness :
  let cloud := [mkCloud "blob1" "https://cdn/blob1" "image"] in
  let req := upload (Some alice)
               (Some (multer.mk "/tmp/up1" "report.png" 10 "image/png")) in
  let ok := serve (mkEnv 3 ["f1"; "a1"] [] cloud) req w_users in
  let bad := serve (mkEnv 3 ["f1"; "a1"] (audit_fault 3) cloud) req w_users in
  status (fst ok) = 201
  /\ fst bad = res 500 (Error (message StorageFailure))
  /\ files (db (snd bad)) = files (db (snd ok))
  /\ (exists row, files (db (snd bad)) = (files (db w_users) ++ [row])%list)
  /\ activityLogs (db (snd bad)) = activityLogs (db w_users)
  /\ console (snd bad) = (console w_users ++ ["Upload error:"])%list
  /\ ~ In (public_id (hd no_reply cloud), resource_type (hd no_reply cloud))
        (blobs (snd bad)).
Proof.
  intros cloud req ok bad.
  assert (Hok : status (fst ok) = 201) by (vm_compute; reflexivity).
  split; [exact Hok|].
  exact (proj1 failed_audit_is_reported_as_failure 3%Z ["f1"; "a1"] cloud
           w_users (Some alice)
           (Some (multer.mk "/tmp/up1" "report.png" 10 "image/png")) Hok).
Defined.

(** * Further properties of the routes *)

(** ** Rows are only ever appended, except by delete and revoke *)

Lemma extends_refl d : extends d d.
Proof. repeat split; exists []; symmetry; apply app_nil_r. Qed.

Lemma extends_trans d1 d2 d3 :
  extends d1 d2 -> extends d2 d3 -> extends d1 d3.
Proof.
  intros ([a1 A1] & [b1 B1] & [c1 C1] & [e1 E1])
         ([a2 A2] & [b2 B2] & [c2 C2] & [e2 E2]).
  repeat split.
  - exists (a1 ++ a2)%list. now rewrite A2, A1, app_assoc.
  - exists (b1 ++ b2)%list. now rewrite B2, B1, app_assoc.
  - exists (c1 ++ c2)%list. now rewrite C2, C1, app_assoc.
  - exists (e1 ++ e2)%list. now rewrite E2, E1, app_assoc.
Qed.

Section Frames.
Variable R : DB -> DB -> Prop.
Hypothesis R_refl : forall d, R d d.
Hypothesis R_trans : forall d1 d2 d3, R d1 d2 -> R d2 d3 -> R d1 d3.

Lemma frames_bind {A B} (m : M A) (k : A -> M B) :
  frames R m -> (forall a, frames R (k a)) -> frames R (bind m k).
Proof.
  intros Hm Hk w. specialize (Hm w). unfold bind.
  destruct (m w) as [[a | r | e] w']; simpl in *; auto.
  eapply R_trans; [exact Hm | apply Hk].
Qed.

Lemma frames_tryCatch {A} (m : M A) (h : Err -> M A) :
  frames R m -> (forall e, frames R (h e)) -> frames R (tryCatch m h).
Proof.
  intros Hm Hh w. specialize (Hm w). unfold tryCatch.
  destruct (m w) as [[a | r | e] w']; simpl in *; auto.
  eapply R_trans; [exact Hm | apply Hh].
Qed.

Lemma frames_ret {A} (a : A) : frames R (ret a).
Proof. intros w. apply R_refl. Qed.

Lemma frames_reply {A} s b : frames R (@reply A s b).
Proof. intros w. apply R_refl. Qed.

Lemma frames_throw {A} e : frames R (@throw A e).
Proof. intros w. apply R_refl. Qed.

Lemma frames_forEach {A} (f : A -> M unit) l :
  (forall a, frames R (f a)) -> frames R (forEach f l).
Proof.
  intros Hf. induction l as [|a l IH]; simpl.
  - apply frames_ret.
  - apply frames_bind; auto.
Qed.

Lemma frames_mapM {A B} (f : A -> M B) l :
  (forall a, frames R (f a)) -> frames R (mapM f l).
Proof.
  intros Hf. induction l as [|a l IH]; simpl.
  - apply frames_ret.
  - apply frames_bind; [apply Hf|]. intros b.
    apply frames_bind; [exact IH|]. intros bs. apply frames_ret.
Qed.

Lemma frames_authMiddleware {A} session
  (next : option AuthRequest.user -> M A) :
  (forall u, frames R (next u)) -> frames R (authMiddleware session next).
Proof.
  intros Hnext [d bl tm co t en fa cr].
  unfold authMiddleware, auth_api_getSession, bind, tryCatch, storage,
    ret, reply, console_error.
  cbn [faults set_faults set_console db blobs tmpFiles console now entropy
       cloudinaryReplies snd].
  destruct (hd false fa); [apply R_refl|].
  destruct session as [u|]; [|apply R_refl].
  exact (Hnext (Some u) (mkWorld d bl tm co t en (tl fa) cr)).
Qed.

Lemma frames_run (h : M Response) w : frames R h -> R (db w) (db (snd (run h w))).
Proof.
  intros H. specialize (H w). unfold run.
  destruct (h w) as [[r | r | e] w']; exact H.
Qed.

End Frames.

Ltac extends_leaf :=
  repeat match goal with
    | H : insert_activityLog_db _ _ = inr _ |- _ =>
        apply insert_activityLog_db_inr in H; subst
    | H : insert_share_db _ _ = inr _ |- _ =>
        apply insert_share_db_inr in H; subst
    | H : insert_file_db _ _ = inr _ |- _ =>
        apply insert_file_db_inr in H; subst
    end;
  unfold extends; cbn [users files shares activityLogs];
  repeat split;
  first [ exists []; symmetry; apply app_nil_r
        | eexists; reflexivity
        | rewrite <- app_assoc; eexists; reflexivity ].

Ltac frames_by_exec :=
  let d := fresh "d" in
  intros [d ? ? ? ? ? ? ?]; cbn [db]; exec; extends_leaf.

Lemma identity_signUp_extends a : frames extends (identity_signUp a).
Proof.
  unfold identity_signUp, insert_user_db.
  intros [d ? ? ? ? ? ? ?]; cbn [db]; exec.
  all: try extends_leaf.
  all: match goal with
       | H : (if ?c then _ else _) = inr _ |- _ =>
           destruct c; [discriminate H|];
           match type of H with
           | (if ?c' then _ else _) = inr _ =>
               destruct c'; [discriminate H|]; inversion H; subst
           end
       end.
  all: extends_leaf.
Qed.

Lemma upload_single_extends f : frames extends (upload_single f).
Proof. frames_by_exec. Qed.

Lemma POST_upload_extends u f : frames extends (files_router.POST_upload u f).
Proof. unfold files_router.POST_upload. frames_by_exec. Qed.

Lemma uploadPromise_extends u f :
  frames extends (files_router.uploadPromise u f).
Proof. unfold files_router.uploadPromise. frames_by_exec. Qed.

Lemma unlink_if_there_extends (f : multer.File) :
  frames extends (there <- fs_existsSync (multer.path f) ;;
                  when_ there (fs_unlinkSync (multer.path f))).
Proof. frames_by_exec. Qed.

Lemma extends_bind {A B} (m : M A) (k : A -> M B) :
  frames extends m -> (forall a, frames extends (k a)) ->
  frames extends (bind m k).
Proof.
  intros. apply (frames_bind extends extends_trans); assumption.
Qed.

Lemma extends_tryCatch {A} (m : M A) (h : Err -> M A) :
  frames extends m -> (forall e, frames extends (h e)) ->
  frames extends (tryCatch m h).
Proof.
  intros. apply (frames_tryCatch extends extends_trans); assumption.
Qed.

Lemma extends_forEach {A} (f : A -> M unit) l :
  (forall a, frames extends (f a)) -> frames extends (forEach f l).
Proof.
  intros. apply (frames_forEach extends extends_refl extends_trans); assumption.
Qed.

Lemma extends_mapM {A B} (f : A -> M B) l :
  (forall a, frames extends (f a)) -> frames extends (mapM f l).
Proof.
  intros. apply (frames_mapM extends extends_refl extends_trans); assumption.
Qed.

Lemma extends_pure {A} (m : M A) :
  (forall w, db (snd (m w)) = db w) -> frames extends m.
Proof. intros H w. rewrite H. apply extends_refl. Qed.

Lemma upload_array_extends fs : frames extends (upload_array fs).
Proof. apply extends_pure. intros w. apply upload_array_db. Qed.

Lemma console_error_extends label : frames extends (console_error label).
Proof. now apply extends_pure. Qed.

Lemma POST_upload_bulk_extends u fs :
  frames extends (files_router.POST_upload_bulk u fs).
Proof.
  unfold files_router.POST_upload_bulk. apply extends_tryCatch.
  - destruct fs as [[|f files]|]; try now apply extends_pure.
    destruct u as [u|]; [|now apply extends_pure].
    apply extends_bind.
    + apply extends_mapM. intros f'. apply uploadPromise_extends.
    + intros results. now apply extends_pure.
  - intros e. apply extends_bind; [apply console_error_extends|].
    intros _. apply extends_bind.
    + destruct fs as [files|]; [|now apply extends_pure].
      apply extends_forEach. intros f. apply unlink_if_there_extends.
    + intros _. now apply extends_pure.
Qed.

Lemma GET_id_extends u id : frames extends (files_router.GET_id u id).
Proof. unfold files_router.GET_id. frames_by_exec. Qed.

Lemma GET_id_download_extends u id :
  frames extends (files_router.GET_id_download u id).
Proof. unfold files_router.GET_id_download. frames_by_exec. Qed.

Lemma POST_fileId_user_extends u fid b :
  frames extends (share_router.POST_fileId_user u fid b).
Proof. unfold share_router.POST_fileId_user. frames_by_exec. Qed.

Lemma POST_fileId_link_extends u fid e :
  frames extends (share_router.POST_fileId_link u fid e).
Proof. unfold share_router.POST_fileId_link. frames_by_exec. Qed.

Lemma GET_link_token_extends u t :
  frames extends (share_router.GET_link_token u t).
Proof. unfold share_router.GET_link_token. frames_by_exec. Qed.

Lemma GET_fileId_shares_extends u fid :
  frames extends (share_router.GET_fileId_shares u fid).
Proof. unfold share_router.GET_fileId_shares. frames_by_exec. Qed.

Lemma route_extends req :
  deletes_rows req = false -> frames extends (route req).
Proof.
  destruct req; simpl; try discriminate; intros _;
    try (apply frames_authMiddleware;
         [exact extends_refl | intros req_user]).
  - apply identity_signUp_extends.
  - apply extends_bind; [apply upload_single_extends|].
    intros _. apply POST_upload_extends.
  - apply extends_bind; [apply upload_array_extends|].
    intros _. apply POST_upload_bulk_extends.
  - apply GET_id_extends.
  - apply GET_id_download_extends.
  - apply POST_fileId_user_extends.
  - apply POST_fileId_link_extends.
  - apply GET_link_token_extends.
  - apply GET_fileId_shares_extends.
Qed.

(** X1. A request that is neither a file deletion nor a revocation only
    appends: in each of the four tables, the rows that were there stay
    where they are, unchanged, and new rows come after them.  This holds
    whatever the request answers and whichever storage call fails. *)
Theorem only_delete_and_revoke_remove_rows env req w :
  deletes_rows req = false ->
  extends (db w) (db (snd (serve env req w))).
Proof.
  intros H. unfold serve.
  exact (frames_run extends (route req) (arrive env w) (route_extends req H)).
Qed.

Lemma only_delete_and_revoke_remove_rows_witness :
  extends (db w_shared)
    (db (snd (serve (at_ 5 ["tok1"; "s2"; "a3"])
                (shareLink (Some alice) "f1" (Some (json_date 20)))
                w_shared))).
Proof.
  apply (only_delete_and_revoke_remove_rows (at_ 5 ["tok1"; "s2"; "a3"])
           (shareLink (Some alice) "f1" (Some (json_date 20))) w_shared).
  reflexivity.
Defined.

(** ** The session check *)

(** X2. The session check fails closed.  The handler behind
    [authMiddleware] runs only when the session lookup has answered and
    found a session, and then with that session's user as [req.user];
    in every other case, a failing lookup included, the answer is 401
    and the database, the blob store and the upload directory are
    untouched. *)
Theorem authMiddleware_fails_closed session next w :
  (exists u, session = Some u
             /\ hd false (faults w) = false
             /\ run (authMiddleware session next) w
                = run (next (Some u)) (set_faults w (tl (faults w))))
  \/ (fst (run (authMiddleware session next) w)
        = res 401 (Error "Unauthorized")
      /\ db (snd (run (authMiddleware session next) w)) = db w
      /\ blobs (snd (run (authMiddleware session next) w)) = blobs w
      /\ tmpFiles (snd (run (authMiddleware session next) w)) = tmpFiles w
      /\ (session = None \/ hd false (faults w) = true)).
Proof.
  destruct w as [d bl tm co t en fa cr].
  unfold run, authMiddleware, auth_api_getSession, bind, tryCatch, storage,
    ret, reply, console_error.
  cbn [faults set_faults set_console db blobs tmpFiles console now entropy
       cloudinaryReplies fst snd].
  destruct (hd false fa) eqn:Hf.
  - right. cbn. repeat split; auto.
  - destruct session as [u|].
    + left. exists u. auto.
    + right. cbn. repeat split; auto.
Qed.

(** ** Who a request writes for *)

Lemma appends_for_refl u d : appends_for u d d.
Proof.
  repeat split; exists []; (split; [symmetry; apply app_nil_r | constructor]).
Qed.

Lemma appends_for_trans u d1 d2 d3 :
  appends_for u d1 d2 -> appends_for u d2 d3 -> appends_for u d1 d3.
Proof.
  intros (U1 & S1 & (f1 & F1 & O1) & (l1 & L1 & A1))
         (U2 & S2 & (f2 & F2 & O2) & (l2 & L2 & A2)).
  repeat split; try congruence.
  - exists (f1 ++ f2)%list. split.
    + now rewrite F2, F1, app_assoc.
    + apply Forall_app; auto.
  - exists (l1 ++ l2)%list. split.
    + now rewrite L2, L1, app_assoc.
    + apply Forall_app; auto.
Qed.

Lemma frames_authMiddleware_session {A} (R : DB -> DB -> Prop) session
  (next : option AuthRequest.user -> M A) :
  (forall d, R d d) ->
  (forall u, session = Some u -> frames R (next (Some u))) ->
  frames R (authMiddleware session next).
Proof.
  intros R_refl Hnext [d bl tm co t en fa cr].
  unfold authMiddleware, auth_api_getSession, bind, tryCatch, storage,
    ret, reply, console_error.
  cbn [faults set_faults set_console db blobs tmpFiles console now entropy
       cloudinaryReplies snd].
  destruct (hd false fa); [apply R_refl|].
  destruct session as [u|]; [|apply R_refl].
  exact (Hnext u eq_refl (mkWorld d bl tm co t en (tl fa) cr)).
Qed.

Ltac inserted :=
  repeat match goal with
    | H : insert_activityLog_db _ _ = inr _ |- _ =>
        apply insert_activityLog_db_inr in H; subst
    | H : insert_share_db _ _ = inr _ |- _ =>
        apply insert_share_db_inr in H; subst
    | H : insert_file_db _ _ = inr _ |- _ =>
        apply insert_file_db_inr in H; subst
    end.

Ltac appends_leaf :=
  inserted;
  unfold appends_for; cbn [users files shares activityLogs];
  repeat split;
  first [ exists []; split; [symmetry; apply app_nil_r | constructor]
        | eexists; split; [reflexivity | repeat constructor] ].

Ltac appends_by_exec :=
  let d := fresh "d" in
  intros [d ? ? ? ? ? ? ?]; cbn [db]; exec; appends_leaf.

Lemma upload_single_appends u f : frames (appends_for u) (upload_single f).
Proof. appends_by_exec. Qed.

Lemma POST_upload_appends u f :
  frames (appends_for (AuthRequest.id u))
    (files_router.POST_upload (Some u) f).
Proof. unfold files_router.POST_upload. appends_by_exec. Qed.

Lemma uploadPromise_appends u f :
  frames (appends_for (AuthRequest.id u)) (files_router.uploadPromise u f).
Proof. unfold files_router.uploadPromise. appends_by_exec. Qed.

Lemma unlink_if_there_appends u (f : multer.File) :
  frames (appends_for u)
    (there <- fs_existsSync (multer.path f) ;;
     when_ there (fs_unlinkSync (multer.path f))).
Proof. appends_by_exec. Qed.

Lemma appends_pure {A} u (m : M A) :
  (forall w, db (snd (m w)) = db w) -> frames (appends_for u) m.
Proof. intros H w. rewrite H. apply appends_for_refl. Qed.

Lemma appends_bind {A B} u (m : M A) (k : A -> M B) :
  frames (appends_for u) m -> (forall a, frames (appends_for u) (k a)) ->
  frames (appends_for u) (bind m k).
Proof.
  intros. apply (frames_bind _ (appends_for_trans u)); assumption.
Qed.

Lemma upload_array_appends u fs : frames (appends_for u) (upload_array fs).
Proof. apply appends_pure. intros w. apply upload_array_db. Qed.

Lemma POST_upload_bulk_appends u fs :
  frames (appends_for (AuthRequest.id u))
    (files_router.POST_upload_bulk (Some u) fs).
Proof.
  unfold files_router.POST_upload_bulk.
  apply (frames_tryCatch _ (appends_for_trans _)).
  - destruct fs as [[|f files]|]; try now apply appends_pure.
    apply appends_bind.
    + apply (frames_mapM _ (appends_for_refl _) (appends_for_trans _)).
      intros f'. apply uploadPromise_appends.
    + intros results. now apply appends_pure.
  - intros e. apply appends_bind; [now apply appends_pure|].
    intros _. apply appends_bind.
    + destruct fs as [files|]; [|now apply appends_pure].
      apply (frames_forEach _ (appends_for_refl _) (appends_for_trans _)).
      intros f. apply unlink_if_there_appends.
    + intros _. now apply appends_pure.
Qed.

Lemma GET_id_appends u id :
  frames (appends_for (AuthRequest.id u)) (files_router.GET_id (Some u) id).
Proof. unfold files_router.GET_id. appends_by_exec. Qed.

Lemma GET_id_download_appends u id :
  frames (appends_for (AuthRequest.id u))
    (files_router.GET_id_download (Some u) id).
Proof. unfold files_router.GET_id_download. appends_by_exec. Qed.

Lemma GET_link_token_appends u t :
  frames (appends_for (AuthRequest.id u))
    (share_router.GET_link_token (Some u) t).
Proof. unfold share_router.GET_link_token. appends_by_exec. Qed.

Lemma GET_fileId_shares_appends u fid :
  frames (appends_for (AuthRequest.id u))
    (share_router.GET_fileId_shares (Some u) fid).
Proof. unfold share_router.GET_fileId_shares. appends_by_exec. Qed.

Lemma route_appends req u :
  grants_untouched req = true -> session_of req = Some u ->
  frames (appends_for (AuthRequest.id u)) (route req).
Proof.
  destruct req; simpl; try discriminate; intros _ ->;
    (apply frames_authMiddleware_session;
     [apply appends_for_refl | intros u' E; injection E as <-]).
  - apply appends_bind; [apply upload_single_appends|].
    intros _. apply POST_upload_appends.
  - apply appends_bind; [apply upload_array_appends|].
    intros _. apply POST_upload_bulk_appends.
  - apply GET_id_appends.
  - apply GET_id_download_appends.
  - apply GET_link_token_appends.
  - apply GET_fileId_shares_appends.
Qed.

(** ** What the owner's routes touch *)

Lemma edits_file_refl u fid d : edits_file u fid d d.
Proof. unfold edits_file. repeat split; auto. Qed.

Lemma edits_file_trans u fid d1 d2 d3 :
  edits_file u fid d1 d2 -> edits_file u fid d2 d3 -> edits_file u fid d1 d3.
Proof.
  intros (U1 & A1 & B1 & C1 & D1 & E1 & F1) (U2 & A2 & B2 & C2 & D2 & E2 & F2).
  unfold edits_file. repeat split; [congruence|..]; intros x Hx.
  - destruct (A2 x Hx); auto.
  - destruct (B1 x Hx); auto.
  - destruct (C2 x Hx); auto.
  - destruct (D1 x Hx); auto.
  - destruct (E2 x Hx); auto.
  - destruct (F1 x Hx); auto.
Qed.

Lemma edits_insert_activityLog u fid r d d' :
  insert_activityLog_db r d = inr d' ->
  activityLog.fileId r = fid -> activityLog.userId r = u ->
  edits_file u fid d d'.
Proof.
  intros H Hf Hu. apply insert_activityLog_db_inr in H. subst d'.
  unfold edits_file. cbn. repeat split; auto.
  - intros l Hl. apply in_app_or in Hl. destruct Hl as [Hl|[<-|[]]]; auto.
  - intros l Hl. left. apply in_or_app. auto.
Qed.

Lemma edits_insert_share u fid r d d' :
  insert_share_db r d = inr d' ->
  share.fileId r = fid -> share.createdBy r = u ->
  edits_file u fid d d'.
Proof.
  intros H Hf Hu. apply insert_share_db_inr in H. subst d'.
  unfold edits_file. cbn. repeat split; auto.
  - intros l Hl. apply in_app_or in Hl. destruct Hl as [Hl|[<-|[]]]; auto.
  - intros l Hl. left. apply in_or_app. auto.
Qed.

Lemma edits_delete_file u fid d :
  edits_file u fid d (delete_file_db (fun f => file.id f =? fid) d).
Proof.
  unfold edits_file, delete_file_db. cbn. repeat split.
  - intros f Hf. apply filter_In in Hf. tauto.
  - intros f Hf. destruct (file.id f =? fid) eqn:E.
    + right. now apply String.eqb_eq.
    + left. apply filter_In. now rewrite E.
  - intros s Hs. apply filter_In in Hs. tauto.
  - intros s Hs.
    destruct (existsb (fun f => file.id f =? share.fileId s)
                (filter (fun f => file.id f =? fid) (files d))) eqn:E.
    + right. apply existsb_exists in E. destruct E as (f & Hf & E).
      apply filter_In in Hf. destruct Hf as [_ Hf].
      apply String.eqb_eq in E, Hf. congruence.
    + left. apply filter_In. now rewrite E.
  - intros l Hl. apply filter_In in Hl. tauto.
  - intros l Hl.
    destruct (existsb (fun f => file.id f =? activityLog.fileId l)
                (filter (fun f => file.id f =? fid) (files d))) eqn:E.
    + right. apply existsb_exists in E. destruct E as (f & Hf & E).
      apply filter_In in Hf. destruct Hf as [_ Hf].
      apply String.eqb_eq in E, Hf. congruence.
    + left. apply filter_In. now rewrite E.
Qed.

Lemma edits_update_resourceType u fid rt t d :
  (forall f, In f (files d) -> file.id f = fid -> file.ownerId f = u) ->
  edits_file u fid d
    (update_resourceType_db rt t (fun f => file.id f =? fid) d).
Proof.
  intros Hown. unfold edits_file, update_resourceType_db. cbn.
  repeat split; auto.
  - intros f Hf. apply in_map_iff in Hf. destruct Hf as (f0 & E & Hf0).
    destruct (file.id f0 =? fid) eqn:Eid.
    + apply String.eqb_eq in Eid. right. subst f. cbn. auto.
    + left. now subst f.
  - intros f Hf. destruct (file.id f =? fid) eqn:E.
    + right. now apply String.eqb_eq.
    + left. apply in_map_iff. exists f. now rewrite E.
Qed.

Lemma edits_delete_share u fid sid d :
  (forall s, In s (shares d) -> share.id s = sid -> share.fileId s = fid) ->
  edits_file u fid d (delete_share_db (fun s => share.id s =? sid) d).
Proof.
  intros Hg. unfold edits_file, delete_share_db. cbn. repeat split; auto.
  - intros s Hs. apply filter_In in Hs. tauto.
  - intros s Hs. destruct (share.id s =? sid) eqn:E.
    + right. apply String.eqb_eq in E. auto.
    + left. apply filter_In. now rewrite E.
Qed.

Lemma owned_by_find d u fid f :
  find (fun f => file.id f =? fid) (files d) = Some f ->
  negb (file.ownerId f =? u) = false ->
  owned d u fid.
Proof.
  intros Hf Ho. apply find_file_by_id in Hf. destruct Hf as [Hin Hid].
  apply negb_false_iff, String.eqb_eq in Ho. now exists f.
Qed.

Lemma owner_by_pkey d u fid f :
  NoDup (map file.id (files d)) ->
  find (fun f => file.id f =? fid) (files d) = Some f ->
  negb (file.ownerId f =? u) = false ->
  forall f', In f' (files d) -> file.id f' = fid -> file.ownerId f' = u.
Proof.
  intros Hnd Hf Ho f' Hin' Hid'.
  apply find_file_by_id in Hf. destruct Hf as [Hin Hid].
  apply negb_false_iff, String.eqb_eq in Ho.
  assert (f' = f) by (eapply NoDup_map_key_inj; eauto; congruence).
  now subst.
Qed.

Ltac edits_chain :=
  repeat first
    [ apply edits_file_refl
    | match goal with
      | |- edits_file _ _ _ (delete_file_db _ _) =>
          eapply edits_file_trans; [|apply edits_delete_file]
      | H : insert_activityLog_db _ ?d = inr ?d' |- edits_file _ _ _ ?d' =>
          eapply edits_file_trans;
          [|apply (edits_insert_activityLog _ _ _ _ _ H); cbn; auto]
      | H : insert_share_db _ ?d = inr ?d' |- edits_file _ _ _ ?d' =>
          eapply edits_file_trans;
          [|apply (edits_insert_share _ _ _ _ _ H); cbn; auto]
      end ].

Lemma POST_fileId_link_edits u fid e w :
  let w' := snd (share_router.POST_fileId_link (Some u) fid e w) in
  db w' = db w
  \/ (owned (db w) (AuthRequest.id u) fid
      /\ edits_file (AuthRequest.id u) fid (db w) (db w')).
Proof.
  destruct w as [d bl tm co t en fa cr].
  unfold share_router.POST_fileId_link. cbn [db]. exec.
  all: first [ left; reflexivity
             | right; split; [eapply owned_by_find; eassumption|];
               edits_chain ].
Qed.

Lemma POST_fileId_user_edits u fid b w :
  let w' := snd (share_router.POST_fileId_user (Some u) fid b w) in
  db w' = db w
  \/ (owned (db w) (AuthRequest.id u) fid
      /\ edits_file (AuthRequest.id u) fid (db w) (db w')).
Proof.
  destruct w as [d bl tm co t en fa cr].
  unfold share_router.POST_fileId_user. cbn [db]. exec.
  all: first [ left; reflexivity
             | right; split; [eapply owned_by_find; eassumption|];
               edits_chain ].
Qed.

Lemma share_by_pkey d sid g :
  NoDup (map share.id (shares d)) ->
  find (fun s => share.id s =? sid) (shares d) = Some g ->
  forall s, In s (shares d) -> share.id s = sid ->
            share.fileId s = share.fileId g.
Proof.
  intros Hnd Hg s Hin Hid. apply find_some in Hg. destruct Hg as [Hing Hidg].
  apply String.eqb_eq in Hidg.
  assert (s = g) by (eapply NoDup_map_key_inj; eauto; congruence).
  now subst.
Qed.

Lemma DELETE_shareId_edits u sid w :
  NoDup (map share.id (shares (db w))) ->
  let w' := snd (share_router.DELETE_shareId (Some u) sid w) in
  db w' = db w
  \/ exists fid,
       owned (db w) (AuthRequest.id u) fid
       /\ edits_file (AuthRequest.id u) fid (db w) (db w').
Proof.
  destruct w as [d bl tm co t en fa cr]. cbn [db]. intros Hnd.
  unfold share_router.DELETE_shareId. exec.
  all: try (left; reflexivity).
  all: right.
  all: match goal with
       | H : option_map _ (find ?p ?l) = Some (?g, Some ?f),
         Ho : negb (file.ownerId ?f =? _) = false |- _ =>
           destruct (find p l) as [g'|] eqn:Hg; [|discriminate H];
           simpl in H; injection H as Hgg Hff; subst g';
           exists (share.fileId g); split;
           [ eapply owned_by_find; eassumption |]
       end.
  all: edits_chain.
  all: apply edits_delete_share; eapply share_by_pkey; eassumption.
Qed.

Lemma DELETE_id_edits u id w :
  NoDup (map file.id (files (db w))) ->
  let w' := snd (files_router.DELETE_id (Some u) id w) in
  db w' = db w
  \/ (owned (db w) (AuthRequest.id u) id
      /\ edits_file (AuthRequest.id u) id (db w) (db w')).
Proof.
  destruct w as [d bl tm co t en fa cr]. cbn [db]. intros Hnd.
  unfold files_router.DELETE_id. exec.
  all: try (left; reflexivity).
  all: right; (split; [eapply owned_by_find; eassumption|]).
  all: match goal with
       | H : find _ _ = Some ?f |- _ =>
           assert (Hid : file.id f = id)
             by (eapply find_file_by_id; exact H)
       end.
  all: edits_chain.
  all: try rewrite Hid; edits_chain.
  all: apply edits_update_resourceType; eapply owner_by_pkey; eassumption.
Qed.

Lemma snd_run (h : M Response) w : snd (run h w) = snd (h w).
Proof. unfold run. now destruct (h w) as [[r | r | e] w']. Qed.

Lemma authMiddleware_db session next w :
  db (snd (run (authMiddleware session next) w)) = db w
  \/ exists u w0, session = Some u /\ db w0 = db w
       /\ snd (run (authMiddleware session next) w)
          = snd (next (Some u) w0).
Proof.
  rewrite snd_run. destruct w as [d bl tm co t en fa cr].
  unfold authMiddleware, auth_api_getSession, bind, tryCatch, storage,
    ret, reply, console_error.
  cbn [faults set_faults set_console db blobs tmpFiles console now entropy
       cloudinaryReplies snd].
  destruct (hd false fa); [now left|].
  destruct session as [u|]; [|now left].
  right. exists u, (mkWorld d bl tm co t en (tl fa) cr). auto.
Qed.

Lemma serve_touches env req w u :
  NoDup (map file.id (files (db w))) ->
  NoDup (map share.id (shares (db w))) ->
  session_of req = Some u ->
  touches (AuthRequest.id u) (db w) (db (snd (serve env req w))).
Proof.
  intros Hf Hs Hu. unfold touches.
  destruct (grants_untouched req) eqn:G.
  - left. unfold serve.
    exact (frames_run _ (route req) (arrive env w) (route_appends req u G Hu)).
  - destruct req; try discriminate G; simpl in Hu; try discriminate Hu;
      subst;
      unfold serve, route;
      (match goal with
       | |- context [authMiddleware ?s ?next] =>
           destruct (authMiddleware_db s next (arrive env w))
             as [E | (u' & w0 & Eu & Ew & E)]
       end;
       [ left; rewrite E; apply appends_for_refl
       | injection Eu as <-; rewrite E;
         change (db w) with (db (arrive env w)) in *; rewrite <- Ew in * ]).
    + destruct (DELETE_id_edits u id w0 Hf) as [E' | E'].
      * left. rewrite E'. apply appends_for_refl.
      * right. eauto.
    + destruct (POST_fileId_user_edits u fileId req_body w0) as [E' | E'].
      * left. rewrite E'. apply appends_for_refl.
      * right. eauto.
    + destruct (POST_fileId_link_edits u fileId expiresAt w0) as [E' | E'].
      * left. rewrite E'. apply appends_for_refl.
      * right. eauto.
    + destruct (DELETE_shareId_edits u shareId w0 Hs) as [E' | E'].
      * left. rewrite E'. apply appends_for_refl.
      * right. exact E'.
Qed.

Lemma identity_signUp_users_only a w :
  let d' := db (snd (identity_signUp a w)) in
  files d' = files (db w) /\ shares d' = shares (db w)
  /\ activityLogs d' = activityLogs (db w).
Proof.
  destruct w as [d bl tm co t en fa cr].
  unfold identity_signUp, insert_user_db. cbn [db]. exec; auto.
  all: match goal with
       | H : (if ?c then _ else _) = inr _ |- _ =>
           destruct c; [discriminate H|];
           match type of H with
           | (if ?c' then _ else _) = inr _ =>
               destruct c'; [discriminate H|]; inversion H; subst
           end
       end.
  all: cbn; auto.
Qed.

Lemma serve_no_session env req w :
  session_of req = None ->
  let d' := db (snd (serve env req w)) in
  files d' = files (db w) /\ shares d' = shares (db w)
  /\ activityLogs d' = activityLogs (db w).
Proof.
  intros Hs. destruct req; simpl in Hs; subst; unfold serve, route.
  1: { rewrite snd_run.
       exact (identity_signUp_users_only account (arrive env w)). }
  all: match goal with
       | |- context [authMiddleware ?s ?next] =>
           destruct (authMiddleware_db s next (arrive env w))
             as [E | (u' & w0 & Eu & Ew & E)]
       end;
       [ cbv zeta; rewrite E; auto | discriminate Eu ].
Qed.

(** X3. Every row a request adds or rewrites names the user of its
    session: a new file row has that user as owner, a new grant as
    creator, a new audit entry as acting user; the [user] table is left
    alone.  The primary keys are all that is assumed of the store. *)
Theorem new_rows_name_the_session_user env req w u :
  NoDup (map file.id (files (db w))) ->
  NoDup (map share.id (shares (db w))) ->
  session_of req = Some u ->
  let d' := db (snd (serve env req w)) in
  users d' = users (db w)
  /\ (forall f, In f (files d') ->
        In f (files (db w)) \/ file.ownerId f = AuthRequest.id u)
  /\ (forall s, In s (shares d') ->
        In s (shares (db w)) \/ share.createdBy s = AuthRequest.id u)
  /\ (forall l, In l (activityLogs d') ->
        In l (activityLogs (db w))
        \/ activityLog.userId l = AuthRequest.id u).
Proof.
  intros Hf Hs Hu. cbv zeta.
  destruct (serve_touches env req w u Hf Hs Hu)
    as [(U & S & (fs & F & Fo) & (ls & L & Lo))
       | (fid & _ & U & A & _ & C & _ & E & _)].
  - repeat split; auto.
    + intros f Hin. rewrite F in Hin. apply in_app_or in Hin.
      destruct Hin as [Hin|Hin]; [now left|right].
      rewrite Forall_forall in Fo. auto.
    + intros s Hin. left. now rewrite S in Hin.
    + intros l Hin. rewrite L in Hin. apply in_app_or in Hin.
      destruct Hin as [Hin|Hin]; [now left|right].
      rewrite Forall_forall in Lo. auto.
  - repeat split; auto.
    + intros f Hin. destruct (A f Hin) as [|[_ ?]]; auto.
    + intros s Hin. destruct (C s Hin) as [|[_ ?]]; auto.
    + intros l Hin. destruct (E l Hin) as [|[_ ?]]; auto.
Qed.

Lemma new_rows_name_the_session_user_witness :
  let d' := db (snd (serve (at_ 5 ["tok1"; "s2"; "a3"])
                       (shareLink (Some alice) "f1" (Some (json_date 20)))
                       w_shared)) in
  users d' = users (db w_shared)
  /\ (forall f, In f (files d') ->
        In f (files (db w_shared)) \/ file.ownerId f = AuthRequest.id alice)
  /\ (forall s, In s (shares d') ->
        In s (shares (db w_shared))
        \/ share.createdBy s = AuthRequest.id alice)
  /\ (forall l, In l (activityLogs d') ->
        In l (activityLogs (db w_shared))
        \/ activityLog.userId l = AuthRequest.id alice).
Proof.
  apply (new_rows_name_the_session_user (at_ 5 ["tok1"; "s2"; "a3"])
           (shareLink (Some alice) "f1" (Some (json_date 20))) w_shared alice).
  - vm_compute. repeat constructor. intros [].
  - vm_compute. repeat constructor. intros [].
  - reflexivity.
Defined.

(** X4. A grant appears only at the request of the owner of its file:
    whatever the request and its outcome, a share row that was not there
    before belongs to a file that the session's user owned when the
    request arrived. *)
Theorem only_the_owner_adds_grants env req w s :
  NoDup (map file.id (files (db w))) ->
  NoDup (map share.id (shares (db w))) ->
  In s (shares (db (snd (serve env req w)))) ->
  In s (shares (db w))
  \/ exists u, session_of req = Some u
       /\ owned (db w) (AuthRequest.id u) (share.fileId s).
Proof.
  intros Hf Hs Hin. destruct (session_of req) as [u|] eqn:Hu.
  - destruct (serve_touches env req w u Hf Hs Hu)
      as [(_ & S & _) | (fid & Ho & _ & _ & _ & C & _)].
    + left. now rewrite S in Hin.
    + destruct (C s Hin) as [|[E _]]; [now left|right].
      exists u. split; [reflexivity|]. now rewrite E.
  - left. destruct (serve_no_session env req w Hu) as (_ & S & _).
    now rewrite S in Hin.
Qed.

Lemma only_the_owner_adds_grants_witness :
  In grant_s2 (shares (db w_shared))
  \/ exists u,
       session_of (shareLink (Some alice) "f1" (Some (json_date 20))) = Some u
       /\ owned (db w_shared) (AuthRequest.id u) (share.fileId grant_s2).
Proof.
  apply (only_the_owner_adds_grants (at_ 5 ["tok1"; "s2"; "a3"])
           (shareLink (Some alice) "f1" (Some (json_date 20))) w_shared
           grant_s2).
  - vm_compute. repeat constructor. intros [].
  - vm_compute. repeat constructor. intros [].
  - vm_compute. right. left. reflexivity.
Defined.

(** X5. Rows about a file disappear only at the request of its owner:
    a file row, a grant or an audit entry that a request removes (or, for
    a file row, rewrites) belongs to a file owned by the session's
    user. *)
Theorem only_the_owner_removes_rows env req w :
  NoDup (map file.id (files (db w))) ->
  NoDup (map share.id (shares (db w))) ->
  let d' := db (snd (serve env req w)) in
  (forall f, In f (files (db w)) ->
     In f (files d')
     \/ exists u, session_of req = Some u
          /\ file.ownerId f = AuthRequest.id u)
  /\ (forall s, In s (shares (db w)) ->
        In s (shares d')
        \/ exists u, session_of req = Some u
             /\ owned (db w) (AuthRequest.id u) (share.fileId s))
  /\ (forall l, In l (activityLogs (db w)) ->
        In l (activityLogs d')
        \/ exists u, session_of req = Some u
             /\ owned (db w) (AuthRequest.id u) (activityLog.fileId l)).
Proof.
  intros Hf Hs. cbv zeta. destruct (session_of req) as [u|] eqn:Hu.
  - destruct (serve_touches env req w u Hf Hs Hu)
      as [(_ & S & (fs & F & _) & (ls & L & _))
         | (fid & Ho & _ & _ & B & _ & D & _ & G)].
    + repeat split.
      * intros f Hin. left. rewrite F. apply in_or_app. now left.
      * intros s Hin. left. now rewrite S.
      * intros l Hin. left. rewrite L. apply in_or_app. now left.
    + repeat split.
      * intros f Hin. destruct (B f Hin) as [|E]; [now left|right].
        exists u. split; [reflexivity|].
        destruct Ho as (f0 & Hin0 & Hid0 & Hown0).
        assert (f = f0)
          by (eapply NoDup_map_key_inj; eauto; congruence).
        now subst.
      * intros s Hin. destruct (D s Hin) as [|E]; [now left|right].
        exists u. split; [reflexivity|]. now rewrite E.
      * intros l Hin. destruct (G l Hin) as [|E]; [now left|right].
        exists u. split; [reflexivity|]. now rewrite E.
  - destruct (serve_no_session env req w Hu) as (F & S & L).
    rewrite F, S, L. auto.
Qed.

Lemma only_the_owner_removes_rows_witness :
  let w := w_linked in
  let req := deleteFile (Some bob) "f1" in
  let d' := db (snd (serve (at_ 9 ["a9"]) req w)) in
  (forall f, In f (files (db w)) ->
     In f (files d')
     \/ exists u, session_of req = Some u
          /\ file.ownerId f = AuthRequest.id u)
  /\ (forall s, In s (shares (db w)) ->
        In s (shares d')
        \/ exists u, session_of req = Some u
             /\ owned (db w) (AuthRequest.id u) (share.fileId s))
  /\ (forall l, In l (activityLogs (db w)) ->
        In l (activityLogs d')
        \/ exists u, session_of req = Some u
             /\ owned (db w) (AuthRequest.id u) (activityLog.fileId l)).
Proof.
  apply (only_the_owner_removes_rows (at_ 9 ["a9"])
           (deleteFile (Some bob) "f1") w_linked).
  - vm_compute. repeat constructor. intros [].
  - vm_compute. repeat constructor; simpl; intuition discriminate.
Defined.

(** ** Deleting a file *)

Lemma filter_update_resourceType rt t id l :
  filter (fun f => negb (file.id f =? id))
    (map (fun f =>
            if file.id f =? id
            then file.mk (file.id f) (file.filename f) (file.cloudinaryId f)
                   (file.fileUrl f) (file.size f) (file.type f) (Some rt)
                   (file.ownerId f) (file.createdAt f) t
            else f) l)
  = filter (fun f => negb (file.id f =? id)) l.
Proof.
  induction l as [|f l IH]; [reflexivity|]. cbn [map filter].
  destruct (file.id f =? id) eqn:E; cbn [file.id]; rewrite E; cbn [negb].
  - exact IH.
  - now rewrite IH.
Qed.

Lemma find_filter_negb {A} (p : A -> bool) l :
  find p (filter (fun x => negb (p x)) l) = None.
Proof.
  apply find_filter_none. intros x _ Hp. now rewrite Hp.
Qed.

Lemma accessLink_unknown env w u tok :
  env_faults env = [] -> tok <> "" ->
  find (fun s => eq_nullable (share.token s) tok
                 && shareType_eqb (share.shareType s) ST_link)
    (shares (db w)) = None ->
  serve env (accessLink (Some u) tok) w
  = (res 404 (Error "Share link not found"), arrive env w).
Proof.
  intros Hrel Hne Hfind. apply truthy_neq in Hne.
  destruct env as [t en fa cr], w as [d bl tm co t' en' fa' cr'].
  simpl in *. subst fa.
  unfold serve, arrive, route, share_router.GET_link_token.
  rewrite Hne. unfold_monad. cbn [fst snd hd tl negb].
  rewrite Hfind. reflexivity.
Qed.

(** What a [DELETE /:id] that answered 200 did to the store. *)
Lemma delete_success env u id w r w' :
  serve env (deleteFile u id) w = (r, w') ->
  status r = 200 ->
  id <> ""
  /\ files (db w')
     = filter (fun f => negb (file.id f =? id)) (files (db w))
  /\ shares (db w')
     = filter (fun s => negb (share.fileId s =? id)) (shares (db w))
  /\ users (db w') = users (db w)
  /\ exists o f,
       u = Some o
       /\ find (fun f => file.id f =? id) (files (db w)) = Some f
       /\ file.ownerId f = AuthRequest.id o.
Proof.
  intros Hrun Hst.
  assert (Hmain :
    exists entry d0 d1 o f,
      insert_activityLog_db entry d0 = inr d1
      /\ activityLog.fileId entry = id
      /\ db w' = delete_file_db (fun f => file.id f =? id) d1
      /\ shares d0 = shares (db w)
      /\ users d0 = users (db w)
      /\ filter (fun f => negb (file.id f =? id)) (files d0)
         = filter (fun f => negb (file.id f =? id)) (files (db w))
      /\ negb (truthy id) = false
      /\ u = Some o
      /\ find (fun f => file.id f =? id) (files (db w)) = Some f
      /\ negb (file.ownerId f =? AuthRequest.id o) = false).
  { destruct env as [t en fa cr], w as [d bl tm co t' en' fa' cr'].
    revert Hrun. unfold serve, route, files_router.DELETE_id. exec.
    all: intros Hrun; inversion Hrun; subst; clear Hrun.
    all: try discriminate Hst.
    all: match goal with
         | Hf : find _ (files _) = Some ?f,
           H : insert_activityLog_db ?entry ?d0 = inr ?d1 |- _ =>
             pose proof (find_file_by_id _ _ _ Hf) as [_ Hid];
             exists entry, d0, d1; do 2 eexists; repeat split;
             try solve [eassumption | reflexivity
                       | apply filter_update_resourceType]
         end. }
  destruct Hmain
    as (entry & d0 & d1 & o & f & Hins & Hfid & Hdb & Hsh & Hus & Hfi & Hne
        & Hu & Hf & Hown).
  pose proof (insert_activityLog_db_fk _ _ _ Hins) as Hfk.
  rewrite Hfid in Hfk.
  apply insert_activityLog_db_inr in Hins. subst d1.
  split.
  { intros ->. discriminate Hne. }
  rewrite Hdb. unfold delete_file_db. cbn [files shares users activityLogs].
  split; [exact Hfi|]. split; [|split; [exact Hus|]].
  - rewrite <- Hsh. apply filter_ext_eq. intros s.
    change (filter (fun f0 => file.id f0 =? id) (files d0))
      with (filter (fun f0 => file.id f0 =? id)
              (files (mkDB (users d0) (files d0) (shares d0)
                        (activityLogs d0)))).
    f_equal. apply (cascade_dead d0 id (share.fileId s) Hfk).
  - exists o, f. repeat split; auto.
    now apply negb_false_iff, String.eqb_eq in Hown.
Qed.

(** X6. When [DELETE /api/files/:id] answers 200 the requester owned the
    file, and afterwards the file row and every grant of the file are
    gone while all other files and grants are as before: the file
    resolves to NotFound for every user, and so does every link token that
    pointed to it. *)
Theorem deleted_file_is_gone env u id w r w' :
  NoDup (tokens (shares (db w))) ->
  serve env (deleteFile u id) w = (r, w') ->
  status r = 200 ->
  (exists o, u = Some o /\ owned (db w) (AuthRequest.id o) id)
  /\ files (db w')
     = filter (fun f => negb (file.id f =? id)) (files (db w))
  /\ shares (db w')
     = filter (fun s => negb (share.fileId s =? id)) (shares (db w))
  /\ (forall env2 u2, env_faults env2 = [] ->
        resolveByUser env2 w' u2 id = Some NotFound)
  /\ (forall env2 u2 g tok,
        env_faults env2 = [] ->
        In g (shares (db w)) -> share.fileId g = id ->
        share.token g = Some tok -> tok <> "" ->
        resolveByToken env2 w' u2 tok = Some NotFound).
Proof.
  intros Htok Hrun Hst.
  destruct (delete_success env u id w r w' Hrun Hst)
    as (Hne & Hfiles & Hshares & _ & o & f & Hu & Hf & Hown).
  split.
  { exists o. split; [exact Hu|]. apply find_file_by_id in Hf.
    exists f. tauto. }
  split; [exact Hfiles|]. split; [exact Hshares|]. split.
  - intros env2 u2 Hrel. unfold resolveByUser.
    rewrite GET_id_reliable by assumption. cbn [fst].
    unfold GET_id_answer. rewrite Hfiles, find_filter_negb. reflexivity.
  - intros env2 u2 g tok Hrel Hin Hfid Hg Htne. unfold resolveByToken.
    rewrite accessLink_unknown; [reflexivity | assumption | assumption |].
    rewrite Hshares. apply find_filter_none.
    intros s Hs Hp. apply andb_true_iff in Hp. destruct Hp as [Hp _].
    apply eq_nullable_spec in Hp.
    assert (s = g)
      by (eapply (NoDup_opt_key_inj share.token); eauto).
    subst s. now rewrite Hfid, String.eqb_refl.
Qed.

Lemma deleted_file_is_gone_witness :
  let w' := snd (serve (at_ 9 ["a9"]) (deleteFile (Some alice) "f1")
                   w_linked) in
  (exists o, Some alice = Some o
             /\ owned (db w_linked) (AuthRequest.id o) "f1")
  /\ files (db w')
     = filter (fun f => negb (file.id f =? "f1")) (files (db w_linked))
  /\ shares (db w')
     = filter (fun s => negb (share.fileId s =? "f1"))
         (shares (db w_linked))
  /\ (forall env2 u2, env_faults env2 = [] ->
        resolveByUser env2 w' u2 "f1" = Some NotFound)
  /\ (forall env2 u2 g tok,
        env_faults env2 = [] ->
        In g (shares (db w_linked)) -> share.fileId g = "f1" ->
        share.token g = Some tok -> tok <> "" ->
        resolveByToken env2 w' u2 tok = Some NotFound).
Proof.
  apply (deleted_file_is_gone (at_ 9 ["a9"]) (Some alice) "f1" w_linked
           (fst (serve (at_ 9 ["a9"]) (deleteFile (Some alice) "f1")
                   w_linked))).
  - vm_compute. repeat constructor. intros [].
  - apply surjective_pairing.
  - vm_compute. reflexivity.
Defined.

(** ** Every route is behind the session check *)

Lemma authMiddleware_refuses session next w :
  session = None \/ hd false (faults w) = true ->
  fst (run (authMiddleware session next) w) = res 401 (Error "Unauthorized")
  /\ db (snd (run (authMiddleware session next) w)) = db w
  /\ blobs (snd (run (authMiddleware session next) w)) = blobs w
  /\ tmpFiles (snd (run (authMiddleware session next) w)) = tmpFiles w.
Proof.
  destruct w as [d bl tm co t en fa cr].
  unfold run, authMiddleware, auth_api_getSession, bind, tryCatch, storage,
    ret, reply, console_error.
  cbn [faults set_faults set_console db blobs tmpFiles console now entropy
       cloudinaryReplies fst snd].
  intros [-> | ->]; [destruct (hd false fa)|]; cbn; auto.
Qed.

Lemma authMiddleware_refuses_read {A} session
  (next : option AuthRequest.user -> M A) w :
  session = None \/ hd false (faults w) = true ->
  refused_401 (authMiddleware session next w) w.
Proof.
  destruct w as [d bl tm co t en fa cr].
  unfold refused_401, authMiddleware, auth_api_getSession, bind, tryCatch,
    storage, ret, reply, console_error.
  cbn [faults set_faults set_console db blobs tmpFiles console now entropy
       cloudinaryReplies fst snd].
  intros [-> | ->]; [destruct (hd false fa)|]; cbn; auto.
Qed.

(** X7. No route of the three routers runs without a session.  A request
    to a route of the files or the share router that writes or reads one
    file or grant, when it carries no session or its session lookup
    fails, is answered 401 and leaves the database, the blob store and
    the upload directory as they were (multer has not even stored the
    upload); and so are [GET /api/files] and the three routes of the
    activity router. *)
Theorem request_without_session_is_refused env w :
  (forall req,
     (forall account, req <> signUp account) ->
     session_of req = None \/ hd false (env_faults env) = true ->
     fst (serve env req w) = res 401 (Error "Unauthorized")
     /\ db (snd (serve env req w)) = db w
     /\ blobs (snd (serve env req w)) = blobs w
     /\ tmpFiles (snd (serve env req w)) = tmpFiles w)
  /\ (forall session fileId,
        session = None \/ hd false (env_faults env) = true ->
        refused_401 (files_listing.router_get_ session (arrive env w)) w
        /\ refused_401
             (activity_router.router_get_files_fileId session fileId
                (arrive env w)) w
        /\ refused_401
             (activity_router.router_get_user session (arrive env w)) w
        /\ refused_401 (activity_router.router_get_ session (arrive env w))
             w).
Proof.
  split.
  - intros req Hreq Hs. unfold serve.
    destruct req; try (exfalso; eapply Hreq; reflexivity);
      cbn [session_of] in Hs; cbn [route];
      apply (authMiddleware_refuses _ _ (arrive env w)); exact Hs.
  - intros session fileId Hs.
    unfold files_listing.router_get_,
      activity_router.router_get_files_fileId,
      activity_router.router_get_user, activity_router.router_get_.
    repeat split;
      apply (authMiddleware_refuses_read _ _ (arrive env w)); exact Hs.
Qed.

Lemma request_without_session_is_refused_witness :
  let req := upload None
               (Some (multer.mk "/tmp/up2" "notes.pdf" 3 "application/pdf")) in
  (fst (serve (at_ 6 ["f2"; "a4"]) req w_shared)
   = res 401 (Error "Unauthorized")
   /\ db (snd (serve (at_ 6 ["f2"; "a4"]) req w_shared)) = db w_shared
   /\ blobs (snd (serve (at_ 6 ["f2"; "a4"]) req w_shared)) = blobs w_shared
   /\ tmpFiles (snd (serve (at_ 6 ["f2"; "a4"]) req w_shared))
      = tmpFiles w_shared)
  /\ refused_401
       (files_listing.router_get_ None (arrive (at_ 6 []) w_shared))
       w_shared.
Proof.
  split.
  - apply (proj1 (request_without_session_is_refused (at_ 6 ["f2"; "a4"])
                    w_shared)
             (upload None
                (Some (multer.mk "/tmp/up2" "notes.pdf" 3
                         "application/pdf")))).
    + intros account. discriminate.
    + left. reflexivity.
  - apply (proj2 (request_without_session_is_refused (at_ 6 []) w_shared)
             None "f1").
    left. reflexivity.
Defined.

(** ** Downloads *)

(** X8. [GET /:id/download] decides like [GET /:id]: when the access
    check refuses (404 or 403) the download is refused with the same
    answer and neither an audit entry nor anything else is written; when
    it allows, the answer is the file's URL and name and exactly one
    "download" entry naming the requester is appended, unless the audit
    insert is rejected, in which case the answer is 500 and the store is
    unchanged. *)
Theorem download_follows_access_check env w u id :
  env_faults env = [] -> id <> "" ->
  let answer := GET_id_answer (db w) (env_now env) (AuthRequest.id u) id in
  let r := fst (serve env (download (Some u) id) w) in
  let w' := snd (serve env (download (Some u) id) w) in
  (status answer <> 200 /\ r = answer /\ w' = arrive env w)
  \/ (status answer = 200
      /\ exists f,
           find (fun f => file.id f =? id) (files (db w)) = Some f
           /\ ((r = res 200 (Download (file.fileUrl f) (file.filename f))
                /\ insert_activityLog_db (download_entry env u id) (db w)
                   = inr (db w')
                /\ activityLogs (db w')
                   = (activityLogs (db w) ++ [download_entry env u id])%list)
               \/ (status r = 500 /\ db w' = db w))).
Proof.
  intros Hrel Hne. cbv zeta. apply truthy_neq in Hne.
  destruct (serve env (download (Some u) id) w) as [r w'] eqn:Hrun.
  cbn [fst snd]. revert Hrun.
  destruct env as [t en fa cr], w as [d bl tm co t' en' fa' cr'].
  simpl in Hrel. subst fa.
  unfold serve, arrive, route, files_router.GET_id_download, GET_id_answer,
    download_entry.
  cbn [db env_now env_entropy]. rewrite Hne.
  unfold_monad. cbn [fst snd hd tl negb].
  destruct (find (fun f => file.id f =? id) (files d)) as [f|] eqn:Hf;
    cbv beta iota zeta; cbn [fst snd hd tl negb].
  2: { intros [= <- <-]. left. repeat split. discriminate. }
  pose proof (find_file_by_id _ _ _ Hf) as [_ Hid]. rewrite Hid.
  destruct (file.ownerId f =? AuthRequest.id u) eqn:Ho;
    destruct (find (files_router.hasShare_where id (AuthRequest.id u) t)
                (shares d)) as [g|] eqn:Hg;
    cbv beta iota zeta; cbn [fst snd hd tl negb].
  4: { intros [= <- <-]. left. repeat split. discriminate. }
  all: destruct (insert_activityLog_db _ d) as [e|d'] eqn:Hins;
    cbv beta iota zeta; cbn [fst snd hd tl negb];
    intros [= <- <-]; right; (split; [reflexivity|]); exists f;
    (split; [reflexivity|]);
    [ right; split; reflexivity
    | left; repeat split;
      apply insert_activityLog_db_inr in Hins; subst d'; reflexivity ].
Qed.

Lemma download_follows_access_check_witness :
  let env := at_ 6 ["a4"] in
  let answer := GET_id_answer (db w_shared) (env_now env)
                  (AuthRequest.id bob) "f1" in
  let r := fst (serve env (download (Some bob) "f1") w_shared) in
  let w' := snd (serve env (download (Some bob) "f1") w_shared) in
  (status answer <> 200 /\ r = answer /\ w' = arrive env w_shared)
  \/ (status answer = 200
      /\ exists f,
           find (fun f => file.id f =? "f1") (files (db w_shared)) = Some f
           /\ ((r = res 200 (Download (file.fileUrl f) (file.filename f))
                /\ insert_activityLog_db (download_entry env bob "f1")
                     (db w_shared)
                   = inr (db w')
                /\ activityLogs (db w')
                   = (activityLogs (db w_shared)
                      ++ [download_entry env bob "f1"])%list)
               \/ (status r = 500 /\ db w' = db w_shared))).
Proof.
  apply (download_follows_access_check (at_ 6 ["a4"]) w_shared bob "f1").
  - reflexivity.
  - discriminate.
Defined.

(** ** Expiry at the boundary *)

(** X9. A direct grant whose expiry is not in the future is inert: the
    grantee is denied from the expiry instant on ([expiresAt <= now]),
    in every reachable store. *)
Theorem expired_direct_grant_is_denied env w g u e :
  reachable w ->
  env_faults env = [] ->
  In g (shares (db w)) ->
  share.sharedWithUserId g = Some (AuthRequest.id u) ->
  share.expiresAt g = Some e ->
  (e <= env_now env)%Z ->
  share.fileId g <> "" ->
  resolveByUser env w u (share.fileId g) = Some Denied.
Proof.
  intros Hreach Hrel Hin Hu He Hpast Hne.
  pose proof (reachable_Inv _ Hreach) as HI.
  destruct HI as [Hschema Hgrants].
  pose proof (share_file_fk _ Hschema g Hin) as Hfk.
  apply has_file_spec in Hfk. destruct Hfk as (f & Hf & Hid).
  pose proof (grants_shape _ Hgrants g Hin) as Hshape.
  unfold grant_shape in Hshape.
  destruct (share.shareType g) eqn:Hty;
    [|destruct Hshape as (Hnone & _); congruence].
  destruct Hshape as (_ & _ & u' & Hu' & Hown).
  assert (u' = AuthRequest.id u) by congruence. subst u'.
  unfold resolveByUser. rewrite GET_id_reliable by assumption.
  cbn [fst]. unfold GET_id_answer.
  rewrite <- Hid. rewrite (find_file_In _ _ (file_pkey _ Hschema) Hf).
  cbv zeta.
  assert (Hnot : (file.ownerId f =? AuthRequest.id u) = false).
  { apply String.eqb_neq. apply Hown; assumption. }
  rewrite Hnot.
  assert (Hnone : find (files_router.hasShare_where (file.id f)
                          (AuthRequest.id u) (env_now env))
                    (shares (db w)) = None).
  { match goal with |- ?x = None => destruct x as [s|] eqn:E end;
      [|reflexivity].
    apply find_some in E. destruct E as [Hs Hp].
    apply hasShare_where_spec in Hp. destruct Hp as (Hsf & Hsu & Hact).
    assert (s = g).
    { eapply direct_grant_unique; eauto; [split; assumption | congruence]. }
    subst s. unfold active in Hact. rewrite He in Hact. lia. }
  rewrite Hnone. reflexivity.
Qed.

Lemma expired_direct_grant_is_denied_witness :
  resolveByUser (at_ 10 []) w_shared bob (share.fileId grant_s1)
  = Some Denied.
Proof.
  apply (expired_direct_grant_is_denied (at_ 10 []) w_shared grant_s1 bob
           10%Z).
  - exact w_shared_reachable.
  - reflexivity.
  - vm_compute. left. reflexivity.
  - reflexivity.
  - reflexivity.
  - vm_compute. discriminate.
  - discriminate.
Defined.

(** What [GET /link/:token] answers for a link that has not expired. *)
Lemma accessLink_honoured env w g tok u d' :
  reachable w ->
  env_faults env = [] ->
  In g (shares (db w)) ->
  share.shareType g = ST_link ->
  share.token g = Some tok ->
  tok <> "" ->
  match share.expiresAt g with
  | Some e => (env_now env <= e)%Z
  | None => True
  end ->
  insert_activityLog_db (download_entry env u (share.fileId g)) (db w)
    = inr d' ->
  exists f,
    find (fun f => file.id f =? share.fileId g) (files (db w)) = Some f
    /\ fst (serve env (accessLink (Some u) tok) w)
       = res 200 (SharedFile (file.id f) (file.fileUrl f) R_viewer)
    /\ resolveByToken env w u tok = Some (Allowed R_viewer)
    /\ db (snd (serve env (accessLink (Some u) tok) w)) = d'.
Proof.
  intros Hreach Hrel Hin Hty Htok Hne Hexp Hins.
  pose proof (reachable_Inv _ Hreach) as HI.
  assert (Hfind : find (fun s => eq_nullable (share.token s) tok
                                 && shareType_eqb (share.shareType s) ST_link)
                    (shares (db w)) = Some g).
  { apply find_unique; [exact Hin | |].
    - rewrite Htok, Hty. simpl. now rewrite String.eqb_refl.
    - intros y Hy Hp. apply andb_true_iff in Hp. destruct Hp as [Hp _].
      apply eq_nullable_spec in Hp. eapply link_token_unique; eauto. }
  destruct HI as [Hschema Hgrants].
  pose proof (share_file_fk _ Hschema g Hin) as Hfk.
  apply has_file_spec in Hfk. destruct Hfk as (f & Hf & Hid).
  assert (Hfile : find (fun x => file.id x =? share.fileId g) (files (db w))
                  = Some f).
  { rewrite <- Hid. apply find_file_In; [apply Hschema | exact Hf]. }
  pose proof (grants_shape _ Hgrants g Hin) as Hshape.
  unfold grant_shape in Hshape. rewrite Hty in Hshape.
  destruct Hshape as (_ & Hrole & _).
  assert (Hnot : match share.expiresAt g with
                 | Some e => (e <? env_now env)%Z
                 | None => false
                 end = false).
  { destruct (share.expiresAt g); [apply Z.ltb_ge; exact Hexp|reflexivity]. }
  exists f. split; [exact Hfile|].
  assert (Hrun : serve env (accessLink (Some u) tok) w
                 = (res 200 (SharedFile (file.id f) (file.fileUrl f) R_viewer),
                    set_db (set_entropy (arrive env w) (tl (env_entropy env)))
                      d')).
  { apply truthy_neq in Hne.
    destruct env as [t en fa cr], w as [d bl tm co t' en' fa' cr'].
    unfold download_entry in Hins. simpl in *. subst fa.
    unfold serve, arrive, route, share_router.GET_link_token.
    rewrite Hne. unfold_monad. cbn [fst snd hd tl negb].
    rewrite Hfind. cbn [option_map]. cbv beta iota zeta.
    rewrite Hfile, Hnot. cbv beta iota zeta. cbn [fst snd hd tl negb].
    rewrite Hins, Hrole. reflexivity. }
  unfold resolveByToken. rewrite Hrun. repeat split.
Qed.

(** X10. A share link is honoured up to and including its expiry instant:
    in a reachable store, any signed-in user who presents the token of a
    link grant that has no expiry or whose [expiresAt] is not before now
    gets the file with role viewer, and the "download" entry written for
    it names that user.  (A direct grant, by contrast, is already inert at
    [expiresAt = now].) *)
Theorem link_is_honoured_until_expiry env w g tok u d' :
  reachable w ->
  env_faults env = [] ->
  In g (shares (db w)) ->
  share.shareType g = ST_link ->
  share.token g = Some tok ->
  tok <> "" ->
  match share.expiresAt g with
  | Some e => (env_now env <= e)%Z
  | None => True
  end ->
  insert_activityLog_db (download_entry env u (share.fileId g)) (db w)
    = inr d' ->
  exists f,
    find (fun f => file.id f =? share.fileId g) (files (db w)) = Some f
    /\ fst (serve env (accessLink (Some u) tok) w)
       = res 200 (SharedFile (file.id f) (file.fileUrl f) R_viewer)
    /\ resolveByToken env w u tok = Some (Allowed R_viewer)
    /\ db (snd (serve env (accessLink (Some u) tok) w)) = d'.
Proof.
  intros Hreach Hrel Hin Hty Htok Hne Hexp Hins.
  exact (accessLink_honoured env w g tok u d' Hreach Hrel Hin Hty Htok Hne
           Hexp Hins).
Qed.

Lemma link_is_honoured_until_expiry_witness :
  exists f,
    find (fun f => file.id f =? share.fileId grant_s2) (files (db w_linked))
    = Some f
    /\ fst (serve (at_ 20 ["a4"]) (accessLink (Some bob) "tok1") w_linked)
       = res 200 (SharedFile (file.id f) (file.fileUrl f) R_viewer)
    /\ resolveByToken (at_ 20 ["a4"]) w_linked bob "tok1"
       = Some (Allowed R_viewer)
    /\ db (snd (serve (at_ 20 ["a4"]) (accessLink (Some bob) "tok1")
                  w_linked))
       = mkDB (users (db w_linked)) (files (db w_linked))
           (shares (db w_linked))
           (activityLogs (db w_linked)
            ++ [download_entry (at_ 20 ["a4"]) bob "f1"])%list.
Proof.
  apply (link_is_honoured_until_expiry (at_ 20 ["a4"]) w_linked grant_s2
           "tok1" bob).
  - exact w_linked_reachable.
  - reflexivity.
  - vm_compute. right. left. reflexivity.
  - reflexivity.
  - reflexivity.
  - discriminate.
  - vm_compute. discriminate.
  - vm_compute. reflexivity.
Defined.

(** ** Uploads *)

Lemma authMiddleware_passes {A} u (next : option AuthRequest.user -> M A)
  w :
  hd false (faults w) = false ->
  authMiddleware (Some u) next w
  = next (Some u) (set_faults w (tl (faults w))).
Proof.
  destruct w as [d bl tm co t en fa cr].
  unfold authMiddleware, auth_api_getSession, bind, tryCatch, storage,
    ret, reply, console_error.
  cbn [faults set_faults set_console db blobs tmpFiles console now entropy
       cloudinaryReplies snd].
  now intros ->.
Qed.

(** X11. One item of a bulk upload never rejects: it resolves either to
    a success, and then its file row (owned by the uploader, named as the
    upload) is in the table and its temporary file is removed, or to an
    error carrying the upload's name, and then its temporary file is left
    in the upload directory. *)
Theorem bulk_item_outcome u f w :
  In (multer.path f) (tmpFiles w) ->
  exists r w',
    files_router.uploadPromise u f w = (Val r, w')
    /\ match r with
       | files_router.bulk_success newFile =>
           In newFile (files (db w'))
           /\ file.ownerId newFile = AuthRequest.id u
           /\ file.filename newFile = multer.originalname f
           /\ ~ In (multer.path f) (tmpFiles w')
       | files_router.bulk_error name _ =>
           name = multer.originalname f
           /\ tmpFiles w' = tmpFiles w
       end.
Proof.
  destruct w as [d bl tm co t en fa cr]. cbn [tmpFiles]. intros Hin.
  assert (Hex : existsb (String.eqb (multer.path f)) tm = true).
  { apply existsb_exists. exists (multer.path f).
    split; [exact Hin | apply String.eqb_refl]. }
  unfold files_router.uploadPromise.
  unfold_monad. cbn [fst snd hd tl negb]. rewrite Hex.
  repeat (exec_step; cbv beta iota zeta; cbn [fst snd hd tl negb]).
  all: do 2 eexists; (split; [reflexivity|]); cbn; auto.
  all: inserted; cbn [files db tmpFiles]; repeat split.
  all: try (apply in_or_app; right; now left).
  all: intros Hin'; apply filter_In in Hin'; destruct Hin' as [_ Hin'];
    now rewrite String.eqb_refl in Hin'.
Qed.

Lemma bulk_item_outcome_witness :
  exists r w',
    files_router.uploadPromise alice
      (multer.mk "/tmp/up2" "notes.pdf" 3 "application/pdf")
      (set_tmpFiles (arrive (at_ 6 ["f2"; "a4"]) w_shared) ["/tmp/up2"])
    = (Val r, w')
    /\ match r with
       | files_router.bulk_success newFile =>
           In newFile (files (db w'))
           /\ file.ownerId newFile = AuthRequest.id alice
           /\ file.filename newFile = "notes.pdf"
           /\ ~ In "/tmp/up2" (tmpFiles w')
       | files_router.bulk_error name _ =>
           name = "notes.pdf"
           /\ tmpFiles w' = ["/tmp/up2"]
       end.
Proof.
  apply (bulk_item_outcome alice
           (multer.mk "/tmp/up2" "notes.pdf" 3 "application/pdf")
           (set_tmpFiles (arrive (at_ 6 ["f2"; "a4"]) w_shared)
              ["/tmp/up2"])).
  vm_compute. left. reflexivity.
Defined.

Lemma uploadPromise_total u f w :
  exists r w',
    files_router.uploadPromise u f w = (Val r, w')
    /\ forall newFile,
         r = files_router.bulk_success newFile ->
         In newFile (files (db w'))
         /\ file.ownerId newFile = AuthRequest.id u.
Proof.
  destruct w as [d bl tm co t en fa cr].
  unfold files_router.uploadPromise. exec.
  all: do 2 eexists; (split; [reflexivity|]); intros nf [=]; subst.
  all: inserted; cbn [files db]; split; [|reflexivity].
  all: apply in_or_app; right; now left.
Qed.

Lemma extends_files_In d d' f :
  extends d d' -> In f (files d) -> In f (files d').
Proof.
  intros (_ & [fs E] & _) Hin. rewrite E. apply in_or_app. now left.
Qed.

Lemma mapM_uploadPromise u l w :
  exists rs w',
    mapM (files_router.uploadPromise u) l w = (Val rs, w')
    /\ length rs = length l
    /\ forall newFile,
         In (files_router.bulk_success newFile) rs ->
         In newFile (files (db w'))
         /\ file.ownerId newFile = AuthRequest.id u.
Proof.
  revert w. induction l as [|f l IH]; intros w.
  - exists [], w. split; [reflexivity|]. split; [reflexivity|].
    intros nf [].
  - destruct (uploadPromise_total u f w) as (r & w1 & E1 & H1).
    destruct (IH w1) as (rs & w2 & E2 & Hlen & H2).
    exists (r :: rs), w2. cbn [mapM]. unfold bind at 1. rewrite E1.
    unfold bind at 1. rewrite E2. unfold ret.
    split; [reflexivity|]. split; [cbn; now rewrite Hlen|].
    intros nf [-> | Hin]; [|now apply H2].
    destruct (H1 nf eq_refl) as [Hin Hown]. split; [|exact Hown].
    apply (extends_files_In (db w1)); [|exact Hin].
    pose proof (frames_mapM extends extends_refl extends_trans
                  (files_router.uploadPromise u) l
                  (fun a => uploadPromise_extends u a) w1) as Hext.
    now rewrite E2 in Hext.
Qed.

Lemma bulk_lengths rs :
  length (files_router.successfulUploads rs)
  + length (files_router.failedUploads rs) = length rs.
Proof.
  unfold files_router.successfulUploads, files_router.failedUploads.
  induction rs as [|[nf | n e] rs IH]; simpl; lia.
Qed.

Lemma in_successfulUploads rs id name :
  In (id, name) (files_router.successfulUploads rs) ->
  exists newFile,
    In (files_router.bulk_success newFile) rs
    /\ file.id newFile = id /\ file.filename newFile = name.
Proof.
  unfold files_router.successfulUploads. intros Hin.
  apply in_flat_map in Hin. destruct Hin as ([nf | n e] & Hr & Hin).
  - destruct Hin as [[= <- <-]|[]]. now exists nf.
  - destruct Hin.
Qed.

Lemma multer_file_accepted f w :
  multer_accepts f = true ->
  exists w', multer_file f w = (Val tt, w') /\ db w' = db w
             /\ faults w' = faults w.
Proof.
  unfold multer_accepts. intros H. apply andb_true_iff in H.
  destruct H as [Hty Hsz]. apply negb_true_iff in Hsz.
  destruct w as [d bl tm co t en fa cr].
  unfold multer_file, fileFilter, diskStorage, bind, ret.
  rewrite Hty, Hsz. cbn [tmpFiles].
  destruct (existsb _ tm); eexists; repeat split.
Qed.

Lemma multer_file_refused f w :
  multer_accepts f = false ->
  exists e, multer_file f w = (Thrown e, w).
Proof.
  unfold multer_accepts, multer_file, fileFilter, bind, ret, throw.
  intros H. destruct (existsb _ allowedTypes); [|eexists; reflexivity].
  cbn [andb] in H. apply negb_false_iff in H. rewrite H.
  eexists; reflexivity.
Qed.

Lemma multer_files_accepted n l :
  (length l <= n)%nat -> forallb multer_accepts l = true ->
  forall w, exists w', multer_files n l w = (Val tt, w') /\ db w' = db w
                       /\ faults w' = faults w.
Proof.
  revert n. induction l as [|f l IH]; intros n Hlen Hall w.
  - exists w. destruct n; auto.
  - destruct n as [|n]; [cbn in Hlen; lia|]. cbn [multer_files].
    cbn [forallb] in Hall. apply andb_true_iff in Hall.
    destruct Hall as [Hf Hall].
    destruct (multer_file_accepted f w Hf) as (w1 & E1 & D1 & F1).
    unfold bind at 1. rewrite E1.
    destruct (IH n ltac:(cbn in Hlen; lia) Hall w1) as (w2 & E2 & D2 & F2).
    exists w2. repeat split; congruence.
Qed.

Lemma multer_files_refused n l :
  (length l <=? n)%nat && forallb multer_accepts l = false ->
  forall w, exists e w', multer_files n l w = (Thrown e, w').
Proof.
  revert n. induction l as [|f l IH]; intros n H w.
  - destruct n; discriminate H.
  - destruct n as [|n]; cbn [multer_files].
    + unfold throw. eauto.
    + unfold bind at 1. destruct (multer_accepts f) eqn:Hf.
      * destruct (multer_file_accepted f w Hf) as (w1 & E1 & _).
        rewrite E1. apply IH. cbn [forallb length] in H.
        rewrite Hf in H. exact H.
      * destruct (multer_file_refused f w Hf) as (e & E). rewrite E. eauto.
Qed.

Lemma filter_absent (p : string) l :
  existsb (String.eqb p) l = false ->
  filter (fun q => negb (q =? p)) l = l.
Proof.
  induction l as [|q l IH]; [reflexivity|]. cbn [existsb filter].
  intros H. apply orb_false_iff in H. destruct H as [Hq Hl].
  rewrite String.eqb_sym, Hq. cbn [negb]. now rewrite IH.
Qed.

(** What the clean-up loop of multer and of the bulk route leaves in the
    upload directory. *)
Lemma unlink_all l :
  forall w, exists w',
    forEach
      (fun f : multer.File =>
         there <- fs_existsSync (multer.path f) ;;
         when_ there (fs_unlinkSync (multer.path f))) l w = (Val tt, w')
    /\ (forall p, In p (tmpFiles w') -> In p (tmpFiles w))
    /\ (forall f, In f l -> ~ In (multer.path f) (tmpFiles w'))
    /\ db w' = db w.
Proof.
  induction l as [|f l IH]; intros w.
  - exists w. repeat split; auto.
  - cbn [forEach]. unfold bind at 1.
    assert (H1 : exists w1,
              (there <- fs_existsSync (multer.path f) ;;
               when_ there (fs_unlinkSync (multer.path f))) w = (Val tt, w1)
              /\ tmpFiles w1
                 = filter (fun q => negb (q =? multer.path f)) (tmpFiles w)
              /\ db w1 = db w).
    { destruct w as [d bl tm co t en fa cr].
      unfold bind, fs_existsSync, when_, fs_unlinkSync, ret.
      cbn [tmpFiles].
      destruct (existsb (String.eqb (multer.path f)) tm) eqn:E.
      - cbn [tmpFiles]. rewrite E. eexists. repeat split.
      - eexists. split; [reflexivity|]. cbn [tmpFiles]. split; [|reflexivity].
        symmetry. now apply filter_absent. }
    destruct H1 as (w1 & E1 & T1 & D1). rewrite E1.
    destruct (IH w1) as (w2 & E2 & Hsub & Hgone & D2). exists w2.
    split; [exact E2|]. split; [|split; [|congruence]].
    + intros p Hp. apply Hsub in Hp. rewrite T1 in Hp.
      apply filter_In in Hp. tauto.
    + intros g [<- | Hg]; [|now apply Hgone].
      intros Hin. apply Hsub in Hin. rewrite T1 in Hin.
      apply filter_In in Hin. destruct Hin as [_ Hin].
      now rewrite String.eqb_refl in Hin.
Qed.

(** X12. A bulk upload accounts for every file.  With a session and
    between one and ten files that multer accepts (an allowed MIME type,
    at most 50MB each), [POST /upload-bulk] answers 201 whatever fails
    along the way, every file is reported either in [files] or in
    [errors], and each entry of [files] is the id and name of a row now in
    the table and owned by the uploader.  When multer refuses a file, or
    more than ten are sent, the handler does not run: the answer is 500,
    the database is unchanged and no file of the request stays in the
    upload directory.  (The route starts the items together with
    [Promise.all]; here they run one after the other, in the order of
    the request.) *)
Theorem bulk_upload_accounts_for_every_file env u l w :
  hd false (env_faults env) = false ->
  l <> [] ->
  let r := fst (serve env (uploadBulk (Some u) (Some l)) w) in
  let w' := snd (serve env (uploadBulk (Some u) (Some l)) w) in
  if (length l <=? 10)%nat && forallb multer_accepts l
  then
    exists ok errs,
      r = res 201 (BulkUploaded ok errs)
      /\ length ok + length errs = length l
      /\ forall id name,
           In (id, name) ok ->
           exists newFile,
             In newFile (files (db w'))
             /\ file.id newFile = id
             /\ file.filename newFile = name
             /\ file.ownerId newFile = AuthRequest.id u
  else
    status r = 500
    /\ db w' = db w
    /\ forall f, In f l -> ~ In (multer.path f) (tmpFiles w').
Proof.
  intros Hsess Hne. cbv zeta.
  destruct (serve env (uploadBulk (Some u) (Some l)) w) as [r w'] eqn:Hrun.
  cbn [fst snd]. revert Hrun. unfold serve. cbn [route].
  unfold run. rewrite authMiddleware_passes by exact Hsess.
  set (w0 := set_faults (arrive env w) (tl (faults (arrive env w)))).
  assert (Hdb0 : db w0 = db w) by reflexivity. clearbody w0.
  unfold bind at 1. unfold upload_array, tryCatch.
  destruct ((length l <=? 10)%nat && forallb multer_accepts l) eqn:Hacc.
  - apply andb_true_iff in Hacc. destruct Hacc as [Hlen Hall].
    apply Nat.leb_le in Hlen.
    destruct (multer_files_accepted 10 l Hlen Hall w0) as (w1 & E1 & _).
    rewrite E1. unfold files_router.POST_upload_bulk.
    destruct l as [|f l']; [congruence|].
    destruct (mapM_uploadPromise u (f :: l') w1)
      as (rs & w2 & E2 & Hrs & Hok).
    unfold tryCatch, bind. rewrite E2. unfold reply. intros [= <- <-].
    exists (files_router.successfulUploads rs),
      (files_router.failedUploads rs).
    split; [reflexivity|]. split.
    + rewrite bulk_lengths. exact Hrs.
    + intros id name Hin.
      destruct (in_successfulUploads rs id name Hin)
        as (nf & Hnf & Hid & Hnm).
      destruct (Hok nf Hnf) as [Hin' Hown]. exists nf. auto.
  - destruct (multer_files_refused 10 l Hacc w0) as (e & w1 & E1).
    pose proof (multer_files_db 10 l w0) as Hdb1. rewrite E1 in Hdb1.
    cbn [snd] in Hdb1. rewrite E1.
    destruct (unlink_all l w1) as (w2 & E2 & _ & Hgone & Hdb2).
    unfold bind at 1. rewrite E2. unfold throw. intros [= <- <-].
    cbn [status]. repeat split; [congruence | exact Hgone].
Qed.

Lemma bulk_upload_accounts_for_every_file_witness :
  let l := [multer.mk "/tmp/up2" "notes.pdf" 3 "application/pdf";
            multer.mk "/tmp/up3" "plan.pdf" 4 "application/pdf"] in
  let env := mkEnv 6 ["f2"; "a4"; "f3"; "a5"] [false; false; true]
               [mkCloud "blob2" "https://cdn/blob2" "image";
                mkCloud "blob3" "https://cdn/blob3" "image"] in
  let r := fst (serve env (uploadBulk (Some alice) (Some l)) w_shared) in
  let w' := snd (serve env (uploadBulk (Some alice) (Some l)) w_shared) in
  exists ok errs,
    r = res 201 (BulkUploaded ok errs)
    /\ length ok + length errs = length l
    /\ forall id name,
         In (id, name) ok ->
         exists newFile,
           In newFile (files (db w'))
           /\ file.id newFile = id
           /\ file.filename newFile = name
           /\ file.ownerId newFile = AuthRequest.id alice.
Proof.
  apply (bulk_upload_accounts_for_every_file
           (mkEnv 6 ["f2"; "a4"; "f3"; "a5"] [false; false; true]
              [mkCloud "blob2" "https://cdn/blob2" "image";
               mkCloud "blob3" "https://cdn/blob3" "image"])
           alice
           [multer.mk "/tmp/up2" "notes.pdf" 3 "application/pdf";
            multer.mk "/tmp/up3" "plan.pdf" 4 "application/pdf"]
           w_shared).
  - reflexivity.
  - discriminate.
Defined.

Lemma not_in_unlinked (p : string) l :
  ~ In p (filter (fun q => negb (q =? p)) l).
Proof.
  intros Hin. apply filter_In in Hin. destruct Hin as [_ Hin].
  now rewrite String.eqb_refl in Hin.
Qed.

Lemma not_in_absent (p : string) l :
  existsb (String.eqb p) l = false -> ~ In p l.
Proof.
  intros H Hin. apply (existsb_false _ _ H) in Hin.
  now rewrite String.eqb_refl in Hin.
Qed.

(** X13. [POST /upload] never leaves its temporary file behind: once the
    session check has passed, the file multer stored for the request is
    gone from the upload directory when the route has answered, whether
    with 201 or, after any failure of Cloudinary or of the database,
    with 500.  An upload that multer refuses (type or size) is never
    stored: the answer is 500 and the database and the upload directory
    are as before. *)
Theorem upload_removes_its_temp_file env u f w :
  hd false (env_faults env) = false ->
  (multer_accepts f = true ->
   ~ In (multer.path f)
       (tmpFiles (snd (serve env (upload (Some u) (Some f)) w))))
  /\ (multer_accepts f = false ->
      status (fst (serve env (upload (Some u) (Some f)) w)) = 500
      /\ db (snd (serve env (upload (Some u) (Some f)) w)) = db w
      /\ tmpFiles (snd (serve env (upload (Some u) (Some f)) w))
         = tmpFiles w).
Proof.
  intros Hsess. split; intros Hacc.
  - unfold serve. cbn [route]. rewrite snd_run.
    rewrite authMiddleware_passes by exact Hsess.
    unfold multer_accepts in Hacc. apply andb_true_iff in Hacc.
    destruct Hacc as [Hty Hsz]. apply negb_true_iff in Hsz.
    destruct env as [t en fa cr], w as [d bl tm co t' en' fa' cr'].
    unfold files_router.POST_upload. unfold_monad.
    cbn [fst snd hd tl negb]. rewrite Hty, Hsz.
    repeat (exec_step; cbv beta iota zeta; cbn [fst snd hd tl negb]).
    all: cbn [tmpFiles].
    all: try apply not_in_unlinked.
    all: try (apply not_in_absent; assumption).
  - destruct (serve env (upload (Some u) (Some f)) w) as [r w'] eqn:Hrun.
    cbn [fst snd]. revert Hrun. unfold serve. cbn [route]. unfold run.
    rewrite authMiddleware_passes by exact Hsess.
    unfold bind at 1. cbn [upload_single].
    match goal with
    | |- context [multer_file f ?w0] =>
        destruct (multer_file_refused f w0 Hacc) as (e & E); rewrite E
    end.
    intros [= <- <-]. repeat split.
Qed.

Lemma upload_removes_its_temp_file_witness :
  ~ In "/tmp/up2"
      (tmpFiles
         (snd (serve (mkEnv 6 ["f2"; "a4"] [false; false; true] [])
                 (upload (Some alice)
                    (Some (multer.mk "/tmp/up2" "notes.pdf" 3 "application/pdf")))
                 w_shared))).
Proof.
  apply (proj1 (upload_removes_its_temp_file
                  (mkEnv 6 ["f2"; "a4"] [false; false; true] []) alice
                  (multer.mk "/tmp/up2" "notes.pdf" 3 "application/pdf")
                  w_shared eq_refl)).
  reflexivity.
Defined.

(** What a [POST /upload] that answered 201 did to the store. *)
Lemma upload_success env s f w fid name w' :
  serve env (upload s (Some f)) w = (res 201 (Uploaded fid name), w') ->
  exists u newFile,
    s = Some u
    /\ file.id newFile = fid
    /\ file.ownerId newFile = AuthRequest.id u
    /\ file.filename newFile = multer.originalname f
    /\ has_file (db w) fid = false
    /\ files (db w') = (files (db w) ++ [newFile])%list
    /\ shares (db w') = shares (db w)
    /\ users (db w') = users (db w)
    /\ activityLogs (db w')
       = (activityLogs (db w)
          ++ [activityLog.mk (hd "" (tl (env_entropy env))) fid
                (AuthRequest.id u) A_upload None (env_now env)])%list.
Proof.
  destruct env as [t en fa cr], w as [d bl tm co t' en' fa' cr'].
  unfold serve, route, files_router.POST_upload. exec.
  all: intros Hrun; inversion Hrun; subst; clear Hrun.
  all: match goal with
       | H : insert_file_db ?r ?d0 = inr _
         |- exists u nf, Some ?a = Some u /\ _ =>
           assert (Hfresh : has_file d0 (file.id r) = false)
             by (unfold insert_file_db in H;
                 destruct (has_file d0 (file.id r)); [discriminate H|
                 reflexivity]);
           exists a, r
       end.
  all: inserted; cbn in *; repeat split; auto.
Qed.

(** X14. A freshly uploaded file is private to its uploader: when
    [POST /upload] has answered 201 with the id of the new file, the
    access check allows the uploader as owner and denies every other
    user, until a grant is created.  The row carries the uploader as
    owner and an "upload" entry names them. *)
Theorem uploaded_file_is_private env s f w fid name w' :
  reachable w ->
  serve env (upload s (Some f)) w = (res 201 (Uploaded fid name), w') ->
  fid <> "" ->
  exists u,
    s = Some u
    /\ (exists l, In l (activityLogs (db w'))
                  /\ activityLog.fileId l = fid
                  /\ activityLog.userId l = AuthRequest.id u
                  /\ activityLog.activityType l = A_upload)
    /\ forall env2 u2,
         env_faults env2 = [] ->
         resolveByUser env2 w' u2 fid
         = Some (if AuthRequest.id u =? AuthRequest.id u2
                 then Allowed R_owner else Denied).
Proof.
  intros Hreach Hrun Hne.
  destruct (upload_success env s f w fid name w' Hrun)
    as (u & nf & Hs & Hid & Hown & _ & Hfresh & Hfiles & Hshares & _ & Hlog).
  exists u. split; [exact Hs|]. split.
  { eexists. split; [rewrite Hlog; apply in_or_app; right; now left|].
    repeat split. }
  intros env2 u2 Hrel. unfold resolveByUser.
  rewrite GET_id_reliable by assumption. cbn [fst]. unfold GET_id_answer.
  assert (Hnone : find (fun x => file.id x =? fid) (files (db w)) = None).
  { match goal with |- ?x = None => destruct x as [x0|] eqn:E end;
      [|reflexivity].
    apply find_file_by_id in E. destruct E as [Hin Hx].
    assert (has_file (db w) fid = true)
      by (apply has_file_spec; now exists x0).
    congruence. }
  rewrite Hfiles, (find_app_none _ _ _ Hnone). cbn [find].
  rewrite Hid, String.eqb_refl. cbv zeta. rewrite Hown.
  destruct (AuthRequest.id u =? AuthRequest.id u2) eqn:Ho; [reflexivity|].
  assert (Hshare : find (files_router.hasShare_where fid (AuthRequest.id u2)
                           (env_now env2)) (shares (db w')) = None).
  { rewrite Hshares.
    match goal with |- ?x = None => destruct x as [g|] eqn:E end;
      [|reflexivity].
    apply find_some in E. destruct E as [Hin Hp].
    apply hasShare_where_spec in Hp. destruct Hp as (Hf & _).
    pose proof (reachable_Inv _ Hreach) as [Hschema _].
    pose proof (share_file_fk _ Hschema g Hin) as Hfk. congruence. }
  rewrite Hid, Hshare. reflexivity.
Qed.

Lemma uploaded_file_is_private_witness :
  exists u,
    Some alice = Some u
    /\ (exists l, In l (activityLogs (db w_uploaded))
                  /\ activityLog.fileId l = "f1"
                  /\ activityLog.userId l = AuthRequest.id u
                  /\ activityLog.activityType l = A_upload)
    /\ forall env2 u2,
         env_faults env2 = [] ->
         resolveByUser env2 w_uploaded u2 "f1"
         = Some (if AuthRequest.id u =? AuthRequest.id u2
                 then Allowed R_owner else Denied).
Proof.
  apply (uploaded_file_is_private (at_ 3 ["f1"; "a1"]) (Some alice)
           (multer.mk "/tmp/up1" "report.png" 10 "image/png") w_users
           "f1" "report.png" w_uploaded).
  - repeat apply reachable_serve. apply reachable_boot.
  - vm_compute. reflexivity.
  - discriminate.
Defined.

(** ** Listing and revoking grants *)

(** X15. [GET /:fileId/shares] shows the grants of a file to its owner
    only, and shows all of them: a response that carries a list was
    requested by the owner and lists every share row of the file, expired
    or not, direct or link; the route writes nothing; and the owner gets
    the list whenever the storage layer answers. *)
Theorem share_list_is_for_the_owner env s fid w :
  (forall l,
     body (fst (serve env (listShares s fid) w)) = ShareList l ->
     (exists u, s = Some u /\ owned (db w) (AuthRequest.id u) fid)
     /\ l = filter (fun g => share.fileId g =? fid) (shares (db w)))
  /\ db (snd (serve env (listShares s fid) w)) = db w
  /\ (forall u,
        s = Some u -> env_faults env = [] -> fid <> "" ->
        owned (db w) (AuthRequest.id u) fid ->
        NoDup (map file.id (files (db w))) ->
        fst (serve env (listShares s fid) w)
        = res 200
            (ShareList
               (filter (fun g => share.fileId g =? fid) (shares (db w))))).
Proof.
  split; [|split].
  - intros l.
    destruct (serve env (listShares s fid) w) as [r w'] eqn:Hrun.
    cbn [fst]. revert Hrun.
    destruct env as [t en fa cr], w as [d bl tm co t' en' fa' cr'].
    unfold serve, route, share_router.GET_fileId_shares. exec.
    all: intros Hrun; inversion Hrun; subst; clear Hrun.
    all: cbn [body]; intros [=]; subst.
    split; [|reflexivity].
    eexists. split; [reflexivity|]. eapply owned_by_find; eassumption.
  - destruct env as [t en fa cr], w as [d bl tm co t' en' fa' cr'].
    unfold serve, route, share_router.GET_fileId_shares. exec; reflexivity.
  - intros u -> Hrel Hne (f & Hin & Hid & Hown) Hpk.
    apply truthy_neq in Hne.
    assert (Hf : find (fun x => file.id x =? fid) (files (db w)) = Some f).
    { rewrite <- Hid. now apply find_file_In. }
    destruct env as [t en fa cr], w as [d bl tm co t' en' fa' cr'].
    simpl in *. subst fa.
    unfold serve, arrive, route, share_router.GET_fileId_shares.
    rewrite Hne. unfold_monad. cbn [fst snd hd tl negb].
    rewrite Hf. cbv beta iota zeta. rewrite Hown, String.eqb_refl.
    reflexivity.
Qed.

Lemma share_list_is_for_the_owner_witness :
  fst (serve (at_ 30 []) (listShares (Some alice) "f1") w_linked)
  = res 200
      (ShareList
         (filter (fun g => share.fileId g =? "f1") (shares (db w_linked)))).
Proof.
  apply (proj2 (proj2 (share_list_is_for_the_owner (at_ 30 [])
                         (Some alice) "f1" w_linked)) alice).
  - reflexivity.
  - reflexivity.
  - discriminate.
  - unfold owned. vm_compute. eexists.
    split; [left; reflexivity|]. split; reflexivity.
  - vm_compute. repeat constructor. intros [].
Defined.

(** What a [DELETE /:shareId] that answered 200 did. *)
Lemma revoke_done env s sid w r w' :
  serve env (revokeShare s sid) w = (r, w') ->
  status r = 200 ->
  sid <> ""
  /\ shares (db w')
     = filter (fun g => negb (share.id g =? sid)) (shares (db w))
  /\ exists u g,
       s = Some u
       /\ find (fun g => share.id g =? sid) (shares (db w)) = Some g
       /\ owned (db w) (AuthRequest.id u) (share.fileId g)
       /\ activityLogs (db w')
          = (activityLogs (db w)
             ++ [activityLog.mk (hd "" (env_entropy env)) (share.fileId g)
                   (AuthRequest.id u) A_unshare
                   (Some ("Revoked share " ++ sid)%string) (env_now env)])%list.
Proof.
  destruct env as [t en fa cr], w as [d bl tm co t' en' fa' cr'].
  unfold serve, arrive, route, share_router.DELETE_shareId. simpl.
  intros Hrun Hst. revert Hrun. exec.
  all: intros Hrun; inversion Hrun; subst; clear Hrun.
  all: try discriminate Hst.
  inserted. cbn [shares activityLogs db delete_share_db].
  split.
  { intros ->. discriminate. }
  split; [reflexivity|].
  match goal with
  | H : option_map _ (find ?p ?l) = Some (?g, Some ?f),
    Ho : negb (file.ownerId ?f =? _) = false |- _ =>
      destruct (find p l) as [g'|] eqn:Hg; [|discriminate H];
      simpl in H; injection H as Hgg Hff; subst g';
      eexists; exists g; split; [reflexivity|]; split; [reflexivity|];
      split; [eapply owned_by_find; eassumption | reflexivity]
  end.
Qed.

(** X16. A revocation is final and is recorded: when
    [DELETE /api/share/:shareId] answers 200, the requester owned the
    file of the grant, no share row with that id is left, an "unshare"
    entry names the requester, a second revocation of the same id answers
    404, and, if the grant was a link, its token resolves to NotFound. *)
Theorem revoked_grant_stays_revoked env s sid w r w' :
  NoDup (tokens (shares (db w))) ->
  serve env (revokeShare s sid) w = (r, w') ->
  status r = 200 ->
  (exists u g l,
     s = Some u /\ In g (shares (db w)) /\ share.id g = sid
     /\ owned (db w) (AuthRequest.id u) (share.fileId g)
     /\ In l (activityLogs (db w'))
     /\ activityLog.activityType l = A_unshare
     /\ activityLog.userId l = AuthRequest.id u
     /\ activityLog.fileId l = share.fileId g)
  /\ (forall g, In g (shares (db w')) -> share.id g <> sid)
  /\ (forall env2 u2,
        env_faults env2 = [] ->
        fst (serve env2 (revokeShare (Some u2) sid) w')
        = res 404 (Error "Share not found"))
  /\ (forall env2 u2 g tok,
        env_faults env2 = [] ->
        In g (shares (db w)) -> share.id g = sid ->
        share.token g = Some tok -> tok <> "" ->
        resolveByToken env2 w' u2 tok = Some NotFound).
Proof.
  intros Htok Hrun Hst.
  destruct (revoke_done env s sid w r w' Hrun Hst)
    as (Hne & Hshares & u & g & Hs & Hg & Hown & Hlog).
  split; [|split; [|split]].
  - apply find_some in Hg. destruct Hg as [Hin Hid].
    apply String.eqb_eq in Hid.
    exists u, g. eexists.
    split; [exact Hs|]. split; [exact Hin|]. split; [exact Hid|].
    split; [exact Hown|].
    split; [rewrite Hlog; apply in_or_app; right; left; reflexivity|].
    repeat split.
  - intros g' Hin. rewrite Hshares in Hin. apply filter_In in Hin.
    destruct Hin as [_ Hin]. apply negb_true_iff in Hin.
    now apply String.eqb_neq.
  - intros env2 u2 Hrel. apply truthy_neq in Hne.
    assert (Hnone : find (fun g => share.id g =? sid) (shares (db w'))
                    = None).
    { rewrite Hshares. apply find_filter_negb. }
    destruct env2 as [t2 en2 fa2 cr2], w' as [d bl tm co t' en' fa' cr'].
    simpl in *. subst fa2.
    unfold serve, arrive, route, share_router.DELETE_shareId.
    rewrite Hne. unfold_monad. cbn [fst snd hd tl negb].
    rewrite Hnone. reflexivity.
  - intros env2 u2 g' tok Hrel Hin Hid Hg' Htne. unfold resolveByToken.
    rewrite accessLink_unknown; [reflexivity | assumption | assumption |].
    rewrite Hshares. apply find_filter_none.
    intros x Hx Hp. apply andb_true_iff in Hp. destruct Hp as [Hp _].
    apply eq_nullable_spec in Hp.
    assert (x = g')
      by (eapply (NoDup_opt_key_inj share.token); eauto).
    subst x. now rewrite Hid, String.eqb_refl.
Qed.

Lemma revoked_grant_stays_revoked_witness :
  let w' := snd (serve (at_ 7 ["a4"]) (revokeShare (Some alice) "s2")
                   w_linked) in
  (exists u g l,
     Some alice = Some u /\ In g (shares (db w_linked))
     /\ share.id g = "s2"
     /\ owned (db w_linked) (AuthRequest.id u) (share.fileId g)
     /\ In l (activityLogs (db w'))
     /\ activityLog.activityType l = A_unshare
     /\ activityLog.userId l = AuthRequest.id u
     /\ activityLog.fileId l = share.fileId g)
  /\ (forall g, In g (shares (db w')) -> share.id g <> "s2")
  /\ (forall env2 u2,
        env_faults env2 = [] ->
        fst (serve env2 (revokeShare (Some u2) "s2") w')
        = res 404 (Error "Share not found"))
  /\ (forall env2 u2 g tok,
        env_faults env2 = [] ->
        In g (shares (db w_linked)) -> share.id g = "s2" ->
        share.token g = Some tok -> tok <> "" ->
        resolveByToken env2 w' u2 tok = Some NotFound).
Proof.
  apply (revoked_grant_stays_revoked (at_ 7 ["a4"]) (Some alice) "s2"
           w_linked
           (fst (serve (at_ 7 ["a4"]) (revokeShare (Some alice) "s2")
                   w_linked))).
  - vm_compute. repeat constructor. intros [].
  - apply surjective_pairing.
  - vm_compute. reflexivity.
Defined.

(** ** Creating a link and redeeming it *)

(** What a [POST /:fileId/link] that answered 201 wrote. *)
Lemma link_created env s fid e w sid tok exp w' :
  serve env (shareLink s fid e) w
  = (res 201 (LinkCreated sid tok exp), w') ->
  exists u,
    s = Some u
    /\ owned (db w) (AuthRequest.id u) fid
    /\ tok = Some (hd "" (env_entropy env))
    /\ match e with
       | None => exp = None
       | Some v =>
           if js_truthy v
           then match new_Date v with
                | InvalidDate => False
                | DateAt ms => exp = Some ms /\ (env_now env < ms)%Z
                end
           else exp = None
       end
    /\ In (share.mk sid fid ST_link None tok R_viewer exp (env_now env)
             (AuthRequest.id u))
         (shares (db w')).
Proof.
  destruct env as [t en fa cr], w as [d bl tm co t' en' fa' cr'].
  unfold serve, route, share_router.POST_fileId_link. exec.
  all: intros Hrun; inversion Hrun; subst; clear Hrun.
  all: eexists; split; [reflexivity|];
    (split; [eapply owned_by_find; eassumption|]);
    (split; [reflexivity|]).
  all: inserted; cbn [shares db env_now]; split;
    try (apply in_or_app; right; left; reflexivity); auto.
  match goal with
  | H : (_ <=? _)%Z = false |- _ => apply Z.leb_gt in H
  end.
  auto.
Qed.

(** X17. A link that was just created can be redeemed: after
    [POST /:fileId/link] has answered 201 with a token, any signed-in
    user who presents that token no later than the requested expiry (or
    at any time, if none was requested) is given the file with role
    viewer.  The link was requested by the owner, and a requested expiry
    lies strictly after the time of the request. *)
Theorem new_link_can_be_redeemed env s fid e w sid tok exp w' :
  reachable w ->
  serve env (shareLink s fid e) w
  = (res 201 (LinkCreated sid (Some tok) exp), w') ->
  tok <> "" ->
  (exists u, s = Some u /\ owned (db w) (AuthRequest.id u) fid)
  /\ match e with
     | None => exp = None
     | Some v =>
         if js_truthy v
         then match new_Date v with
              | InvalidDate => False
              | DateAt ms => exp = Some ms /\ (env_now env < ms)%Z
              end
         else exp = None
     end
  /\ forall env2 u2 d2,
       env_faults env2 = [] ->
       match exp with
       | Some t => (env_now env2 <= t)%Z
       | None => True
       end ->
       insert_activityLog_db (download_entry env2 u2 fid) (db w') = inr d2 ->
       resolveByToken env2 w' u2 tok = Some (Allowed R_viewer)
       /\ exists f,
            find (fun f => file.id f =? fid) (files (db w')) = Some f
            /\ fst (serve env2 (accessLink (Some u2) tok) w')
               = res 200 (SharedFile fid (file.fileUrl f) R_viewer).
Proof.
  intros Hreach Hrun Hne.
  destruct (link_created env s fid e w sid (Some tok) exp w' Hrun)
    as (u & Hs & Hown & _ & He & Hin).
  split; [now exists u|]. split; [exact He|].
  intros env2 u2 d2 Hrel Hexp Hins.
  assert (Hreach' : reachable w').
  { replace w' with (snd (serve env (shareLink s fid e) w))
      by now rewrite Hrun.
    now apply reachable_serve. }
  destruct (accessLink_honoured env2 w' _ tok u2 d2 Hreach' Hrel Hin
              eq_refl eq_refl Hne Hexp Hins)
    as (f & Hf & Hres & Hdec & _).
  split; [exact Hdec|]. exists f. split; [exact Hf|].
  rewrite Hres. cbn [share.fileId] in Hf.
  apply find_file_by_id in Hf. destruct Hf as [_ ->]. reflexivity.
Qed.

Lemma new_link_can_be_redeemed_witness :
  (exists u, Some alice = Some u
             /\ owned (db w_shared) (AuthRequest.id u) "f1")
  /\ (Some 20%Z = Some 20%Z /\ (env_now (at_ 5 ["tok1"; "s2"; "a3"]) < 20)%Z)
  /\ forall env2 u2 d2,
       env_faults env2 = [] ->
       match Some 20%Z with
       | Some t => (env_now env2 <= t)%Z
       | None => True
       end ->
       insert_activityLog_db (download_entry env2 u2 "f1") (db w_linked)
       = inr d2 ->
       resolveByToken env2 w_linked u2 "tok1" = Some (Allowed R_viewer)
       /\ exists f,
            find (fun f => file.id f =? "f1") (files (db w_linked)) = Some f
            /\ fst (serve env2 (accessLink (Some u2) "tok1") w_linked)
               = res 200 (SharedFile "f1" (file.fileUrl f) R_viewer).
Proof.
  apply (new_link_can_be_redeemed (at_ 5 ["tok1"; "s2"; "a3"]) (Some alice)
           "f1" (Some (json_date 20)) w_shared "s2" "tok1" (Some 20%Z)
           w_linked).
  - exact w_shared_reachable.
  - vm_compute. reflexivity.
  - discriminate.
Defined.

(** ** The stores the server can reach *)

(** X18. Whatever requests have been served, one after the other and
    with whatever failures, the store is consistent: ids are unique,
    every grant and every audit entry belongs to an existing file, a
    token identifies one grant, a user holds at most one direct grant on
    a file (which no database constraint enforces), no grant names the
    owner of its file as grantee, and a direct grant carries no token. *)
Theorem reachable_store_is_consistent w :
  reachable w ->
  NoDup (map file.id (files (db w)))
  /\ NoDup (map share.id (shares (db w)))
  /\ (forall s, In s (shares (db w)) ->
        exists f, In f (files (db w)) /\ file.id f = share.fileId s)
  /\ (forall l, In l (activityLogs (db w)) ->
        exists f, In f (files (db w)) /\ file.id f = activityLog.fileId l)
  /\ (forall a b t,
        In a (shares (db w)) -> In b (shares (db w)) ->
        share.token a = Some t -> share.token b = Some t -> a = b)
  /\ (forall a b u,
        In a (shares (db w)) -> In b (shares (db w)) ->
        share.fileId a = share.fileId b ->
        share.sharedWithUserId a = Some u ->
        share.sharedWithUserId b = Some u -> a = b)
  /\ (forall s f,
        In s (shares (db w)) -> In f (files (db w)) ->
        file.id f = share.fileId s ->
        share.sharedWithUserId s <> Some (file.ownerId f))
  /\ (forall s, In s (shares (db w)) ->
        share.shareType s = ST_user -> share.token s = None).
Proof.
  intros Hreach. pose proof (reachable_Inv _ Hreach) as HI.
  pose proof HI as [Hschema Hgrants].
  split; [apply Hschema|]. split; [apply Hschema|].
  split.
  { intros s Hin. apply has_file_spec. now apply (share_file_fk _ Hschema). }
  split.
  { intros l Hin. apply has_file_spec.
    now apply (activity_log_file_fk _ Hschema). }
  split.
  { intros a b t Ha Hb Hta Htb. eapply link_token_unique; eauto. }
  split.
  { intros a b u Ha Hb Hf Hua Hub. eapply direct_grant_unique; eauto. }
  split.
  { intros s f Hs Hf Hid Hu.
    pose proof (grants_shape _ Hgrants s Hs) as Hshape.
    unfold grant_shape in Hshape.
    destruct (share.shareType s).
    - destruct Hshape as (_ & _ & u & Hsu & Hown).
      apply (Hown f Hf Hid). congruence.
    - destruct Hshape as (Hnone & _). congruence. }
  intros s Hs Hty.
  pose proof (grants_shape _ Hgrants s Hs) as Hshape.
  unfold grant_shape in Hshape. rewrite Hty in Hshape. tauto.
Qed.

Lemma reachable_store_is_consistent_witness :
  NoDup (map file.id (files (db w_linked)))
  /\ NoDup (map share.id (shares (db w_linked)))
  /\ (forall s, In s (shares (db w_linked)) ->
        exists f, In f (files (db w_linked)) /\ file.id f = share.fileId s)
  /\ (forall l, In l (activityLogs (db w_linked)) ->
        exists f, In f (files (db w_linked))
                  /\ file.id f = activityLog.fileId l)
  /\ (forall a b t,
        In a (shares (db w_linked)) -> In b (shares (db w_linked)) ->
        share.token a = Some t -> share.token b = Some t -> a = b)
  /\ (forall a b u,
        In a (shares (db w_linked)) -> In b (shares (db w_linked)) ->
        share.fileId a = share.fileId b ->
        share.sharedWithUserId a = Some u ->
        share.sharedWithUserId b = Some u -> a = b)
  /\ (forall s f,
        In s (shares (db w_linked)) -> In f (files (db w_linked)) ->
        file.id f = share.fileId s ->
        share.sharedWithUserId s <> Some (file.ownerId f))
  /\ (forall s, In s (shares (db w_linked)) ->
        share.shareType s = ST_user -> share.token s = None).
Proof.
  apply (reachable_store_is_consistent w_linked).
  exact w_linked_reachable.
Defined.

(** ** A deletion that fails half-way *)

(** X19. Deleting is not atomic: the blob is destroyed before the
    database is touched.  If the owner's [DELETE /:id] gets as far as the
    audit insert and that insert (or the row deletion after it) fails,
    the answer is 500, the file row and its grants are still there, but
    the blob is gone from Cloudinary. *)
Theorem failed_delete_has_destroyed_the_blob env w u id f rt n :
  find (fun x => file.id x =? id) (files (db w)) = Some f ->
  file.ownerId f = AuthRequest.id u ->
  file.resourceType f = Some rt ->
  rt <> "" -> id <> "" ->
  n = 3 \/ n = 4 ->
  env_faults env = audit_fault n ->
  let r := fst (serve env (deleteFile (Some u) id) w) in
  let w' := snd (serve env (deleteFile (Some u) id) w) in
  status r = 500
  /\ files (db w') = files (db w)
  /\ shares (db w') = shares (db w)
  /\ ~ In (file.cloudinaryId f, rt) (blobs w')
  /\ (forall b, In b (blobs w') -> In b (blobs w)).
Proof.
  intros Hf Hown Hrt Hrtne Hne Hn Hfa. cbv zeta.
  destruct (serve env (deleteFile (Some u) id) w) as [r w'] eqn:Hrun.
  cbn [fst snd]. revert Hrun.
  apply truthy_neq in Hne, Hrtne.
  destruct env as [t en fa cr], w as [d bl tm co t' en' fa' cr'].
  simpl in *. subst fa.
  unfold serve, arrive, route, files_router.DELETE_id.
  rewrite Hne. unfold_monad. cbn [fst snd hd tl negb].
  destruct Hn as [-> | ->]; cbn [audit_fault repeat app hd tl];
    rewrite Hf; cbv beta iota zeta; cbn [fst snd hd tl negb];
    rewrite Hown, String.eqb_refl; cbn [negb];
    rewrite Hrt, Hrtne; cbv beta iota zeta; cbn [fst snd hd tl negb].
  - intros [= <- <-]. cbn [status db blobs]. repeat split.
    + intros Hin. apply filter_In in Hin. destruct Hin as [_ Hin].
      cbn [fst snd] in Hin. now rewrite !String.eqb_refl in Hin.
    + intros b Hin. apply filter_In in Hin. tauto.
  - destruct (insert_activityLog_db _ d) as [e|d'] eqn:Hins;
      cbv beta iota zeta; cbn [fst snd hd tl negb];
      intros [= <- <-]; inserted; cbn [status db blobs files shares];
      repeat split.
    all: try (intros Hin; apply filter_In in Hin; destruct Hin as [_ Hin];
              cbn [fst snd] in Hin; now rewrite !String.eqb_refl in Hin).
    all: intros b Hin; apply filter_In in Hin; tauto.
Qed.

Lemma failed_delete_has_destroyed_the_blob_witness :
  let env := mkEnv 9 ["a9"] (audit_fault 3) [] in
  let r := fst (serve env (deleteFile (Some alice) "f1") w_linked) in
  let w' := snd (serve env (deleteFile (Some alice) "f1") w_linked) in
  status r = 500
  /\ files (db w') = files (db w_linked)
  /\ shares (db w') = shares (db w_linked)
  /\ ~ In ("blob1", "image") (blobs w')
  /\ (forall b, In b (blobs w') -> In b (blobs w_linked)).
Proof.
  apply (failed_delete_has_destroyed_the_blob
           (mkEnv 9 ["a9"] (audit_fault 3) []) w_linked alice "f1"
           (file.mk "f1" "report.png" "blob1" "https://cdn/blob1" 10
              "image/png" (Some "image") "u1" 3 3) "image" 3).
  - vm_compute. reflexivity.
  - reflexivity.
  - reflexivity.
  - discriminate.
  - discriminate.
  - left. reflexivity.
  - reflexivity.
Defined.

(** ** The file list and the access check *)

Lemma in_insert_desc {A} (key : A -> Z) a l x :
  In x (insert_desc key a l) <-> x = a \/ In x l.
Proof.
  induction l as [|y l IH]; cbn [insert_desc].
  - cbn. intuition.
  - destruct (key y <? key a)%Z; cbn [In]; [intuition|].
    rewrite IH. intuition.
Qed.

Lemma in_orderBy_desc {A} (key : A -> Z) l x :
  In x (orderBy_desc key l) <-> In x l.
Proof.
  unfold orderBy_desc. induction l as [|a l IH]; cbn [fold_right].
  - reflexivity.
  - rewrite in_insert_desc, IH. cbn. intuition.
Qed.

Lemma decision_GET_id d t uid id :
  decision_of (GET_id_answer d t uid id)
  = match find (fun f => file.id f =? id) (files d) with
    | None => Some NotFound
    | Some f =>
        if file.ownerId f =? uid then Some (Allowed R_owner)
        else match find (files_router.hasShare_where (file.id f) uid t)
                     (shares d) with
             | Some s => Some (Allowed (share.role s))
             | None => Some Denied
             end
    end.
Proof.
  unfold GET_id_answer.
  destruct (find (fun f => file.id f =? id) (files d)) as [f|];
    [|reflexivity].
  cbv zeta. destruct (file.ownerId f =? uid);
    now destruct (find (files_router.hasShare_where (file.id f) uid t)
                    (shares d)).
Qed.

Lemma GET_files_reliable u w :
  faults w = [] ->
  files_listing.GET_ (Some u) w
  = (Val (orderBy_desc file.createdAt
            (filter (fun f => file.ownerId f =? AuthRequest.id u)
               (files (db w))),
          map (fun s =>
                 (find (fun f => file.id f =? share.fileId s) (files (db w)),
                  share.role s))
            (filter (fun s =>
                       eq_nullable (share.sharedWithUserId s)
                         (AuthRequest.id u)
                       && notExpired (now w) s)
               (shares (db w)))),
     w).
Proof.
  destruct w as [d bl tm co t en fa cr]. cbn [faults db now]. intros ->.
  unfold files_listing.GET_, file_findMany, share_findMany_with_file.
  unfold_monad. cbn [fst snd hd tl negb]. rewrite map_map. reflexivity.
Qed.

(** X20. The file list agrees with the access check.  In a reachable
    store, when the storage layer answers, [GET /api/files] lists a file
    under [ownedFiles] exactly when [GET /api/files/:id] allows the user
    as owner, and under [sharedFiles] with a role exactly when it allows
    the user with that role through a grant; every entry of [sharedFiles]
    has its file; and the route leaves the world as it is. *)
Theorem file_list_agrees_with_access_check env w u fid :
  reachable w ->
  env_faults env = [] ->
  fid <> "" ->
  exists ownedFiles sharedFiles,
    files_listing.GET_ (Some u) (arrive env w)
    = (Val (ownedFiles, sharedFiles), arrive env w)
    /\ ((exists f, In f ownedFiles /\ file.id f = fid)
        <-> resolveByUser env w u fid = Some (Allowed R_owner))
    /\ (forall r,
          (exists f, In (Some f, r) sharedFiles /\ file.id f = fid)
          <-> (r <> R_owner
               /\ resolveByUser env w u fid = Some (Allowed r)))
    /\ (forall e, In e sharedFiles -> fst e <> None).
Proof.
  intros Hreach Hrel Hne.
  pose proof (reachable_Inv _ Hreach) as HI.
  pose proof HI as [Hschema Hgrants].
  do 2 eexists. split.
  { apply GET_files_reliable. destruct env; exact Hrel. }
  unfold resolveByUser. rewrite GET_id_reliable by assumption.
  cbn [fst]. rewrite decision_GET_id.
  change (db (arrive env w)) with (db w).
  change (now (arrive env w)) with (env_now env).
  assert (Hrole : forall s, In s (shares (db w)) -> share.role s <> R_owner).
  { intros s Hs. pose proof (grants_shape _ Hgrants s Hs) as Hshape.
    unfold grant_shape in Hshape.
    destruct (share.shareType s);
      [destruct Hshape as (_ & [-> | ->] & _)
      | destruct Hshape as (_ & -> & _)]; discriminate. }
  assert (Hnotowner : forall s f,
            In s (shares (db w)) -> In f (files (db w)) ->
            file.id f = share.fileId s ->
            share.sharedWithUserId s = Some (AuthRequest.id u) ->
            (file.ownerId f =? AuthRequest.id u) = false).
  { intros s f Hs Hf Hid Hu. apply String.eqb_neq.
    pose proof (grants_shape _ Hgrants s Hs) as Hshape.
    unfold grant_shape in Hshape.
    destruct (share.shareType s).
    - destruct Hshape as (_ & _ & u' & Hu' & Hown).
      assert (u' = AuthRequest.id u) by congruence. subst u'.
      now apply Hown.
    - destruct Hshape as (Hnone & _). congruence. }
  split; [|split].
  - split.
    + intros (f & Hin & Hid). apply in_orderBy_desc, filter_In in Hin.
      destruct Hin as [Hin Hown]. rewrite <- Hid.
      rewrite (find_file_In _ _ (file_pkey _ Hschema) Hin). now rewrite Hown.
    + destruct (find (fun f => file.id f =? fid) (files (db w))) as [f|] eqn:Hf;
        [|discriminate].
      apply find_file_by_id in Hf. destruct Hf as [Hin Hid].
      destruct (file.ownerId f =? AuthRequest.id u) eqn:Hown.
      * intros _. exists f. split; [|exact Hid].
        apply in_orderBy_desc, filter_In. auto.
      * destruct (find (files_router.hasShare_where (file.id f)
                          (AuthRequest.id u) (env_now env))
                    (shares (db w))) as [s|] eqn:Hs; [|discriminate].
        apply find_some in Hs. destruct Hs as [Hs _].
        intros [= E]. now apply Hrole in Hs.
  - intros r. split.
    + intros (f & Hin & Hid). apply in_map_iff in Hin.
      destruct Hin as (s & [= Hfind Hr] & Hs). apply filter_In in Hs.
      destruct Hs as [Hs Hp]. apply andb_true_iff in Hp.
      destruct Hp as [Hu Hact]. apply eq_nullable_spec in Hu.
      pose proof (find_file_by_id _ _ _ Hfind) as [Hfin Hfid].
      assert (Hsf : share.fileId s = fid) by congruence.
      split; [rewrite <- Hr; now apply Hrole|].
      rewrite <- Hsf, Hfind.
      rewrite (Hnotowner s f Hs Hfin Hfid Hu).
      assert (Hfirst : find (files_router.hasShare_where (file.id f)
                               (AuthRequest.id u) (env_now env))
                         (shares (db w)) = Some s).
      { apply find_unique; [exact Hs | |].
        - unfold files_router.hasShare_where.
          rewrite Hfid, String.eqb_refl, Hu, Hact. cbn.
          now rewrite String.eqb_refl.
        - intros y Hy Hp. apply hasShare_where_spec in Hp.
          destruct Hp as (Hyf & Hyu & _).
          eapply direct_grant_unique; eauto. congruence. }
      rewrite Hfirst. now rewrite Hr.
    + intros [Hr Hdec].
      destruct (find (fun f => file.id f =? fid) (files (db w))) as [f|] eqn:Hf;
        [|discriminate].
      pose proof (find_file_by_id _ _ _ Hf) as [Hin Hid].
      destruct (file.ownerId f =? AuthRequest.id u) eqn:Hown;
        [injection Hdec as <-; now elim Hr|].
      destruct (find (files_router.hasShare_where (file.id f)
                        (AuthRequest.id u) (env_now env))
                  (shares (db w))) as [s|] eqn:Hs; [|discriminate].
      injection Hdec as <-. apply find_some in Hs. destruct Hs as [Hs Hp].
      unfold files_router.hasShare_where in Hp.
      apply andb_true_iff in Hp. destruct Hp as [Hp Hact].
      apply andb_true_iff in Hp. destruct Hp as [Hsf Hu].
      apply String.eqb_eq in Hsf.
      exists f. split; [|exact Hid].
      apply in_map_iff. exists s. split.
      * f_equal. rewrite Hsf, Hid. exact Hf.
      * apply filter_In. split; [exact Hs|]. now rewrite Hu, Hact.
  - intros e Hin. apply in_map_iff in Hin.
    destruct Hin as (s & <- & Hs). apply filter_In in Hs.
    destruct Hs as [Hs _]. cbn [fst].
    pose proof (share_file_fk _ Hschema s Hs) as Hfk.
    apply has_file_spec in Hfk. destruct Hfk as (f & Hf & Hid).
    rewrite <- Hid, (find_file_In _ _ (file_pkey _ Hschema) Hf).
    discriminate.
Qed.

Lemma file_list_agrees_with_access_check_witness :
  exists ownedFiles sharedFiles,
    files_listing.GET_ (Some bob) (arrive (at_ 6 []) w_shared)
    = (Val (ownedFiles, sharedFiles), arrive (at_ 6 []) w_shared)
    /\ ((exists f, In f ownedFiles /\ file.id f = "f1")
        <-> resolveByUser (at_ 6 []) w_shared bob "f1"
            = Some (Allowed R_owner))
    /\ (forall r,
          (exists f, In (Some f, r) sharedFiles /\ file.id f = "f1")
          <-> (r <> R_owner
               /\ resolveByUser (at_ 6 []) w_shared bob "f1"
                  = Some (Allowed r)))
    /\ (forall e, In e sharedFiles -> fst e <> None).
Proof.
  apply (file_list_agrees_with_access_check (at_ 6 []) w_shared bob "f1").
  - exact w_shared_reachable.
  - reflexivity.
  - discriminate.
Defined.

(** ** The activity router *)

Lemma insert_desc_sorted {A} (key : A -> Z) a l :
  StronglySorted (fun x y => (key y <= key x)%Z) l ->
  StronglySorted (fun x y => (key y <= key x)%Z) (insert_desc key a l).
Proof.
  induction l as [|y l IH]; intros Hs; cbn [insert_desc].
  - repeat constructor.
  - inversion Hs as [|? ? Hl Hy]; subst.
    destruct (key y <? key a)%Z eqn:E.
    + apply Z.ltb_lt in E. constructor; [exact Hs|].
      constructor; [lia|]. rewrite Forall_forall in *.
      intros x Hx. specialize (Hy x Hx). lia.
    + apply Z.ltb_ge in E. constructor; [now apply IH|].
      rewrite Forall_forall in *. intros x Hx.
      apply in_insert_desc in Hx. destruct Hx as [-> | Hx]; auto.
Qed.

Lemma orderBy_desc_sorted {A} (key : A -> Z) l :
  StronglySorted (fun x y => (key y <= key x)%Z) (orderBy_desc key l).
Proof.
  unfold orderBy_desc. induction l as [|a l IH]; cbn [fold_right].
  - constructor.
  - now apply insert_desc_sorted.
Qed.

Lemma length_insert_desc {A} (key : A -> Z) a l :
  length (insert_desc key a l) = S (length l).
Proof.
  induction l as [|y l IH]; cbn [insert_desc]; [reflexivity|].
  destruct (key y <? key a)%Z; cbn [length]; [reflexivity|].
  now rewrite IH.
Qed.

Lemma length_orderBy_desc {A} (key : A -> Z) l :
  length (orderBy_desc key l) = length l.
Proof.
  unfold orderBy_desc. induction l as [|a l IH]; cbn [fold_right length].
  - reflexivity.
  - now rewrite length_insert_desc, IH.
Qed.

Lemma in_firstn {A} n (l : list A) x : In x (firstn n l) -> In x l.
Proof.
  revert l. induction n as [|n IH]; intros [|y l]; cbn [firstn In];
    try tauto.
  intros [-> | H]; auto.
Qed.

Lemma firstn_sorted {A} (R : A -> A -> Prop) n l :
  StronglySorted R l -> StronglySorted R (firstn n l).
Proof.
  revert l. induction n as [|n IH]; intros [|x rows] Hs; cbn [firstn];
    try constructor.
  - apply IH. now inversion Hs.
  - inversion Hs as [|? ? _ Hall]; subst. rewrite Forall_forall in *.
    intros y Hy. apply in_firstn in Hy. auto.
Qed.

(** X21. The audit log of a file is shown to its owner only.  Whenever
    [GET /api/activity/files/:fileId] answers with a list, for any fault
    schedule, the requester owns the file and the list holds exactly the
    audit entries of that file, newest first; nothing is written.  The
    owner gets the list whenever the storage layer answers. *)
Theorem file_audit_log_is_for_the_owner s fid w :
  (forall l w',
     activity_router.GET_files_fileId s fid w = (Val l, w') ->
     (exists u, s = Some u /\ owned (db w) (AuthRequest.id u) fid)
     /\ (forall a, In a l <->
                   In a (activityLogs (db w)) /\ activityLog.fileId a = fid)
     /\ newest_first l)
  /\ db (snd (activity_router.GET_files_fileId s fid w)) = db w
  /\ (forall u,
        s = Some u -> faults w = [] -> fid <> "" ->
        owned (db w) (AuthRequest.id u) fid ->
        NoDup (map file.id (files (db w))) ->
        exists l, activity_router.GET_files_fileId s fid w = (Val l, w)).
Proof.
  split; [|split].
  - intros l w'. destruct w as [d bl tm co t en fa cr].
    unfold activity_router.GET_files_fileId, activityLog_findMany.
    exec.
    all: intros [= <- <-].
    split; [|split].
    + eexists. split; [reflexivity|]. eapply owned_by_find; eassumption.
    + intros a. rewrite in_orderBy_desc, filter_In.
      now rewrite String.eqb_eq.
    + apply orderBy_desc_sorted.
  - destruct w as [d bl tm co t en fa cr].
    unfold activity_router.GET_files_fileId, activityLog_findMany.
    exec; reflexivity.
  - intros u -> Hrel Hne (f & Hin & Hid & Hown) Hpk.
    apply truthy_neq in Hne.
    assert (Hf : find (fun x => file.id x =? fid) (files (db w)) = Some f).
    { rewrite <- Hid. now apply find_file_In. }
    destruct w as [d bl tm co t en fa cr].
    simpl in *. subst fa.
    unfold activity_router.GET_files_fileId, activityLog_findMany.
    rewrite Hne. unfold_monad. cbn [fst snd hd tl negb].
    rewrite Hf. cbv beta iota zeta. rewrite Hown, String.eqb_refl.
    eexists. reflexivity.
Qed.

Lemma map_Some_inj {A} (l l' : list A) :
  map Some l = map Some l' -> l = l'.
Proof.
  revert l'. induction l as [|x l IH]; intros [|y l'] [=]; [reflexivity|].
  subst. f_equal. auto.
Qed.

Lemma mapM_findFirst (p : activityLog.row -> activityLog.row -> bool) l :
  forall w rs w',
    mapM (fun a => activityLog_findFirst (p a)) l w = (Val rs, w') ->
    db w' = db w
    /\ rs = map (fun a => find (p a) (activityLogs (db w))) l.
Proof.
  induction l as [|a l IH]; intros w rs w'; cbn [mapM].
  - unfold ret. intros [= <- <-]. auto.
  - unfold bind at 1. unfold activityLog_findFirst at 1. unfold storage.
    destruct (hd false (faults w)); [discriminate|].
    unfold bind at 1.
    destruct (mapM _ l _) as [[rs0 | r | e] w0] eqn:E; try discriminate.
    unfold ret. intros [= <- <-].
    apply IH in E. destruct E as [Hdb ->]. cbn [db set_faults] in *.
    split; [exact Hdb|]. reflexivity.
Qed.

Lemma mapM_nonnull (rs : list (option activityLog.row)) :
  forall w out w',
    mapM (fun a => match a with
                   | Some a => ret a
                   | None => throw (TypeError "id")
                   end) rs w = (Val out, w') ->
    w' = w /\ rs = map Some out.
Proof.
  induction rs as [|[a|] rs IH]; intros w out w'; cbn [mapM].
  - unfold ret. intros [= <- <-]. auto.
  - unfold bind at 1. unfold ret at 1. unfold bind at 1.
    destruct (mapM _ rs w) as [[out0 | r | e] w0] eqn:E; try discriminate.
    unfold ret. intros [= <- <-]. apply IH in E. destruct E as [-> ->].
    auto.
  - unfold bind at 1. unfold throw at 1. discriminate.
Qed.

(** X22. The activity feed shows a user only what happened to their own
    files.  Whenever [GET /api/activity] answers with a list, for any
    fault schedule, the list has at most 100 entries, each of them is an
    audit entry of a file the requester owns, newest first; nothing is
    written. *)
Theorem activity_feed_shows_own_files_only s w l w' :
  NoDup (map activityLog.id (activityLogs (db w))) ->
  activity_router.GET_ s w = (Val l, w') ->
  (exists u, s = Some u
     /\ forall a, In a l ->
          In a (activityLogs (db w))
          /\ owned (db w) (AuthRequest.id u) (activityLog.fileId a))
  /\ (length l <= 100)%nat
  /\ newest_first l
  /\ db w' = db w.
Proof.
  intros Hpk. destruct s as [u|];
    [|unfold activity_router.GET_, tryCatch, reply; discriminate].
  unfold activity_router.GET_, file_findMany, activityLog_findMany.
  unfold tryCatch.
  match goal with
  | |- (match ?m w with _ => _ end) = _ -> _ =>
      destruct (m w) as [[out | r | e] w1] eqn:Hrun
  end; [|discriminate|unfold bind, console_error, reply; discriminate].
  intros [= <- <-]. revert Hrun.
  unfold bind at 1. unfold storage at 1.
  destruct (hd false (faults w)); [discriminate|]. cbv zeta.
  set (w0 := set_faults w (tl (faults w))).
  set (mine := filter (fun f => file.ownerId f =? AuthRequest.id u)
                 (files (db w0))).
  destruct (length (map file.id mine) =? 0)%nat eqn:Hempty.
  { unfold ret. intros [= <- <-]. split; [|split; [|split]].
    - exists u. split; [reflexivity|]. intros a [].
    - cbn. lia.
    - constructor.
    - reflexivity. }
  unfold bind at 1. unfold storage at 1.
  destruct (hd false (faults w0)); [discriminate|].
  set (w2 := set_faults w0 (tl (faults w0))).
  set (acts := firstn 100
                 (orderBy_desc activityLog.createdAt
                    (filter
                       (fun a =>
                          existsb (String.eqb (activityLog.fileId a))
                            (map file.id mine))
                       (activityLogs (db w2))))).
  unfold bind at 1.
  destruct (mapM _ acts w2) as [[rs | r | e] w3] eqn:E1; try discriminate.
  intros E2. apply mapM_findFirst in E1. destruct E1 as [Hdb3 Hrs].
  apply mapM_nonnull in E2. destruct E2 as [-> Hout].
  change (db w2) with (db w) in *. change (db w0) with (db w) in *.
  assert (Hacts : forall a, In a acts ->
            In a (activityLogs (db w))
            /\ owned (db w) (AuthRequest.id u) (activityLog.fileId a)).
  { intros a Ha. unfold acts in Ha. apply in_firstn in Ha.
    apply in_orderBy_desc, filter_In in Ha. destruct Ha as [Ha Hex].
    split; [exact Ha|]. apply existsb_exists in Hex.
    destruct Hex as (i & Hi & Ei). apply String.eqb_eq in Ei. subst i.
    apply in_map_iff in Hi. destruct Hi as (f & Hid & Hf).
    unfold mine in Hf. apply filter_In in Hf. destruct Hf as [Hf Hown].
    apply String.eqb_eq in Hown. now exists f. }
  assert (Hsame : out = acts).
  { assert (Hmap : map Some out = map Some acts).
    { rewrite <- Hout, Hrs. apply map_ext_in. intros a Ha.
      destruct (Hacts a Ha) as [Hin _].
      apply find_unique; [exact Hin | apply String.eqb_refl |].
      intros y Hy Ey. apply String.eqb_eq in Ey.
      eapply NoDup_map_key_inj; eauto. }
    exact (map_Some_inj _ _ Hmap). }
  subst out. split; [|split; [|split]].
  - exists u. split; [reflexivity | exact Hacts].
  - unfold acts. apply firstn_le_length.
  - apply firstn_sorted, orderBy_desc_sorted.
  - exact Hdb3.
Qed.

Lemma file_audit_log_is_for_the_owner_witness :
  exists l,
    activity_router.GET_files_fileId (Some alice) "f1"
      (arrive (at_ 30 []) w_linked)
    = (Val l, arrive (at_ 30 []) w_linked).
Proof.
  apply (proj2 (proj2 (file_audit_log_is_for_the_owner (Some alice) "f1"
                         (arrive (at_ 30 []) w_linked))) alice).
  - reflexivity.
  - reflexivity.
  - discriminate.
  - unfold owned. vm_compute. eexists.
    split; [left; reflexivity|]. split; reflexivity.
  - vm_compute. repeat constructor. intros [].
Defined.

Lemma activity_feed_shows_own_files_only_witness :
  exists l w',
    activity_router.GET_ (Some alice) (arrive (at_ 30 []) w_linked)
    = (Val l, w')
    /\ (exists u, Some alice = Some u
          /\ forall a, In a l ->
               In a (activityLogs (db (arrive (at_ 30 []) w_linked)))
               /\ owned (db (arrive (at_ 30 []) w_linked))
                    (AuthRequest.id u) (activityLog.fileId a))
    /\ (length l <= 100)%nat
    /\ newest_first l
    /\ db w' = db (arrive (at_ 30 []) w_linked).
Proof.
  do 2 eexists. split; [vm_compute; reflexivity|].
  apply (activity_feed_shows_own_files_only (Some alice)
           (arrive (at_ 30 []) w_linked)).
  - vm_compute. repeat constructor; simpl; intuition discriminate.
  - vm_compute. reflexivity.
Defined.

(** X23. [GET /api/activity/user] shows a user their own actions only:
    whenever it answers with a list, for any fault schedule, the list has
    at most 50 entries, each an audit entry whose acting user is the
    requester, newest first, and when the user has at most 50 entries none
    is missing; nothing is written. *)
Theorem user_activity_is_the_users_own s w l w' :
  activity_router.GET_user s w = (Val l, w') ->
  (exists u, s = Some u
     /\ (forall a, In a l ->
           In a (activityLogs (db w))
           /\ activityLog.userId a = AuthRequest.id u)
     /\ ((length (filter (fun a => (activityLog.userId a =? AuthRequest.id u)%string)
                    (activityLogs (db w))) <= 50)%nat ->
         forall a, In a (activityLogs (db w)) ->
                   activityLog.userId a = AuthRequest.id u -> In a l))
  /\ (length l <= 50)%nat
  /\ newest_first l
  /\ db w' = db w.
Proof.
  destruct s as [u|];
    [|unfold activity_router.GET_user, tryCatch, reply; discriminate].
  unfold activity_router.GET_user, activityLog_findMany, tryCatch, bind,
    storage, ret.
  destruct (hd false (faults w));
    [unfold console_error, reply; discriminate|].
  cbv zeta. cbn [db set_faults].
  set (rows := orderBy_desc activityLog.createdAt
                 (filter
                    (fun a => activityLog.userId a =? AuthRequest.id u)
                    (activityLogs (db w)))).
  assert (Hrows : forall x, In x rows <->
                    In x (activityLogs (db w))
                    /\ activityLog.userId x = AuthRequest.id u).
  { intros x. unfold rows. rewrite in_orderBy_desc, filter_In.
    now rewrite String.eqb_eq. }
  assert (Hlen : length rows
                 = length (filter
                             (fun a =>
                                activityLog.userId a =? AuthRequest.id u)
                             (activityLogs (db w))))
    by apply length_orderBy_desc.
  assert (Hsorted : newest_first rows) by apply orderBy_desc_sorted.
  set (out := firstn 50 rows).
  assert (Hin : forall x, In x out -> In x rows)
    by (intros x; apply in_firstn).
  assert (Hall : (length rows <= 50)%nat -> out = rows)
    by apply firstn_all2.
  assert (Hout : (length out <= 50)%nat) by apply firstn_le_length.
  assert (Hnewest : newest_first out) by now apply firstn_sorted.
  clearbody out rows. intros [= <- <-].
  split; [|split; [|split]].
  - eexists. split; [reflexivity|]. split.
    + intros x Hx. now apply Hrows, Hin.
    + intros Hle x Hx Hu. rewrite Hall by (rewrite Hlen; exact Hle).
      now apply Hrows.
  - exact Hout.
  - exact Hnewest.
  - reflexivity.
Qed.

Lemma user_activity_is_the_users_own_witness :
  exists l w',
    activity_router.GET_user (Some alice) (arrive (at_ 30 []) w_linked)
    = (Val l, w')
    /\ (exists u, Some alice = Some u
          /\ (forall a, In a l ->
                In a (activityLogs (db (arrive (at_ 30 []) w_linked)))
                /\ activityLog.userId a = AuthRequest.id u)
          /\ ((length
                 (filter (fun a => (activityLog.userId a =? AuthRequest.id u)%string)
                    (activityLogs (db (arrive (at_ 30 []) w_linked))))
               <= 50)%nat ->
              forall a,
                In a (activityLogs (db (arrive (at_ 30 []) w_linked))) ->
                activityLog.userId a = AuthRequest.id u -> In a l))
    /\ (length l <= 50)%nat
    /\ newest_first l
    /\ db w' = db (arrive (at_ 30 []) w_linked).
Proof.
  do 2 eexists. split; [vm_compute; reflexivity|].
  apply (user_activity_is_the_users_own (Some alice)
           (arrive (at_ 30 []) w_linked)).
  vm_compute. reflexivity.
Defined.

(** ** Creating a direct grant and using it *)

(** What [GET /:id] decides for the grantee of a direct grant. *)
Lemma direct_grant_decides env w g u :
  reachable w ->
  env_faults env = [] ->
  In g (shares (db w)) ->
  share.sharedWithUserId g = Some (AuthRequest.id u) ->
  share.fileId g <> "" ->
  resolveByUser env w u (share.fileId g)
  = Some (if notExpired (env_now env) g then Allowed (share.role g)
          else Denied).
Proof.
  intros Hreach Hrel Hin Hu Hne.
  pose proof (reachable_Inv _ Hreach) as HI.
  pose proof HI as [Hschema Hgrants].
  pose proof (share_file_fk _ Hschema g Hin) as Hfk.
  apply has_file_spec in Hfk. destruct Hfk as (f & Hf & Hid).
  pose proof (grants_shape _ Hgrants g Hin) as Hshape.
  unfold grant_shape in Hshape.
  destruct (share.shareType g) eqn:Hty;
    [|destruct Hshape as (Hnone & _); congruence].
  destruct Hshape as (_ & _ & u' & Hu' & Hown).
  assert (u' = AuthRequest.id u) by congruence. subst u'.
  unfold resolveByUser. rewrite GET_id_reliable by assumption.
  cbn [fst]. unfold GET_id_answer.
  rewrite <- Hid. rewrite (find_file_In _ _ (file_pkey _ Hschema) Hf).
  cbv zeta.
  assert (Hnot : (file.ownerId f =? AuthRequest.id u) = false).
  { apply String.eqb_neq. apply Hown; assumption. }
  rewrite Hnot.
  destruct (notExpired (env_now env) g) eqn:Hact.
  - assert (Hfirst : find (files_router.hasShare_where (file.id f)
                             (AuthRequest.id u) (env_now env))
                       (shares (db w)) = Some g).
    { apply find_unique; [exact Hin | |].
      - unfold files_router.hasShare_where.
        rewrite Hid, String.eqb_refl, Hu, Hact. cbn.
        now rewrite String.eqb_refl.
      - intros y Hy Hp. apply hasShare_where_spec in Hp.
        destruct Hp as (Hyf & Hyu & _).
        eapply direct_grant_unique; eauto. congruence. }
    rewrite Hfirst. reflexivity.
  - assert (Hnone : find (files_router.hasShare_where (file.id f)
                            (AuthRequest.id u) (env_now env))
                      (shares (db w)) = None).
    { match goal with |- ?x = None => destruct x as [s|] eqn:E end;
        [|reflexivity].
      apply find_some in E. destruct E as [Hs Hp].
      unfold files_router.hasShare_where in Hp.
      apply andb_true_iff in Hp. destruct Hp as [Hp Hact'].
      apply andb_true_iff in Hp. destruct Hp as [Hsf Hsu].
      apply String.eqb_eq in Hsf. apply eq_nullable_spec in Hsu.
      assert (s = g).
      { eapply direct_grant_unique; eauto. congruence. }
      subst s. congruence. }
    rewrite Hnone. reflexivity.
Qed.

(** What a [POST /:fileId/user] that answered 201 wrote. *)
Lemma direct_grant_created env s fid body w sid target role exp w' :
  serve env (shareWithUser s fid body) w
  = (res 201 (ShareCreated sid target role exp), w') ->
  fid <> ""
  /\ exists u em account,
       s = Some u
       /\ owned (db w) (AuthRequest.id u) fid
       /\ share_router.userEmail body = Some em
       /\ find (fun x => user.email x =? em) (users (db w)) = Some account
       /\ user.id account = target
       /\ target <> AuthRequest.id u
       /\ share_router.roleEnum_of_string
            (if truthy (requested_role body) then requested_role body
             else "viewer") = Some role
       /\ match share_router.expiresAt body with
          | None => exp = None
          | Some v =>
              if js_truthy v
              then match new_Date v with
                   | InvalidDate => False
                   | DateAt ms => exp = Some ms /\ (env_now env < ms)%Z
                   end
              else exp = None
          end
       /\ In (share.mk sid fid ST_user (Some target) None role exp
                (env_now env) (AuthRequest.id u))
            (shares (db w')).
Proof.
  destruct env as [t en fa cr], w as [d bl tm co t' en' fa' cr'].
  unfold serve, route, share_router.POST_fileId_user, requested_role. exec.
  all: intros Hrun; inversion Hrun; subst; clear Hrun.
  all: split;
    [intros ->;
     match goal with
     | H : negb (truthy "") = false |- _ => discriminate H
     end|].
  all: do 3 eexists; split; [reflexivity|];
    (split; [eapply owned_by_find; eassumption|]);
    (split; [reflexivity|]); (split; [eassumption|]);
    (split; [reflexivity|]);
    (split; [now apply String.eqb_neq|]);
    (split; [first [reflexivity | eassumption]|]).
  all: inserted; cbn [shares db env_now]; split;
    try (apply in_or_app; right; left; reflexivity); auto.
  all: match goal with
       | H : (_ <=? _)%Z = false |- _ => apply Z.leb_gt in H
       end; auto.
Qed.

(** X24. A direct grant takes effect as it was answered.  In a reachable
    store, when [POST /:fileId/user] has answered 201 for a grantee, a
    role and an expiry, the requester owned the file and is not the
    grantee, the grantee is the account with the e-mail address of the
    request, the role is viewer or editor, and from then on
    [GET /api/files/:id] allows the grantee with exactly that role at
    every time before the expiry (at every time, if there is none) and
    denies them from the expiry on. *)
Theorem new_direct_grant_takes_effect env s fid body w sid target role exp w' :
  reachable w ->
  serve env (shareWithUser s fid body) w
  = (res 201 (ShareCreated sid target role exp), w') ->
  (exists u, s = Some u /\ owned (db w) (AuthRequest.id u) fid
             /\ target <> AuthRequest.id u)
  /\ (exists em account,
        share_router.userEmail body = Some em
        /\ find (fun x => user.email x =? em) (users (db w)) = Some account
        /\ user.id account = target)
  /\ (role = R_viewer \/ role = R_editor)
  /\ forall env2 u2,
       env_faults env2 = [] ->
       AuthRequest.id u2 = target ->
       resolveByUser env2 w' u2 fid
       = Some (match exp with
               | Some e => if (env_now env2 <? e)%Z then Allowed role
                           else Denied
               | None => Allowed role
               end).
Proof.
  intros Hreach Hrun.
  destruct (direct_grant_created env s fid body w sid target role exp w' Hrun)
    as (Hne & u & em & account & Hs & Hown & Hem & Hacc & Hid & Hself & _ & _
        & Hin).
  assert (Hreach' : reachable w').
  { replace w' with (snd (serve env (shareWithUser s fid body) w))
      by now rewrite Hrun.
    now apply reachable_serve. }
  split; [now exists u|]. split; [now exists em, account|]. split.
  { pose proof (reachable_Inv _ Hreach') as [_ Hgrants].
    pose proof (grants_shape _ Hgrants _ Hin) as Hshape.
    unfold grant_shape in Hshape. cbn in Hshape. tauto. }
  intros env2 u2 Hrel Hu2.
  pose proof (direct_grant_decides env2 w' _ u2 Hreach' Hrel Hin) as Hdec.
  cbn [share.sharedWithUserId share.fileId share.role] in Hdec.
  rewrite Hdec; [|now rewrite Hu2|exact Hne].
  unfold notExpired. cbn [share.expiresAt]. now destruct exp.
Qed.

Lemma new_direct_grant_takes_effect_witness :
  (exists u, Some alice = Some u
             /\ owned (db w_uploaded) (AuthRequest.id u) "f1"
             /\ "u2" <> AuthRequest.id u)
  /\ (exists em account,
        share_router.userEmail
          (share_router.mkUserShareBody (Some "b@x.org") None
             (Some (json_date 10))) = Some em
        /\ find (fun x => user.email x =? em) (users (db w_uploaded))
           = Some account
        /\ user.id account = "u2")
  /\ (R_viewer = R_viewer \/ R_viewer = R_editor)
  /\ forall env2 u2,
       env_faults env2 = [] ->
       AuthRequest.id u2 = "u2" ->
       resolveByUser env2 w_shared u2 "f1"
       = Some (match Some 10%Z with
               | Some e => if (env_now env2 <? e)%Z then Allowed R_viewer
                           else Denied
               | None => Allowed R_viewer
               end).
Proof.
  apply (new_direct_grant_takes_effect (at_ 4 ["s1"; "a2"]) (Some alice)
           "f1"
           (share_router.mkUserShareBody (Some "b@x.org") None
              (Some (json_date 10)))
           w_uploaded "s1" "u2" R_viewer (Some 10%Z) w_shared).
  - repeat apply reachable_serve. apply reachable_boot.
  - vm_compute. reflexivity.
Defined.
